(** * Jewelry catalogue scraper: a shallow embedding and its properties

    The development follows the two source files of the repository:

    - [jewelry_scraper.py]: the [JewelryScraper] class (fetching with
      retries, link and pagination extraction, product parsing, the
      category crawl loop);
    - [app.py]: the Flask backend (the shared [scraper_status] record, the
      [start_scraper] endpoint and the [scraper_thread] worker).

    Conventions.  Python [str] values are modelled by [string] (text over
    the ASCII range); the HTTP transport and the HTML parser are library
    capabilities and enter as parameters: a server oracle answers the
    numbered requests, and [BeautifulSoup] maps a body to the result of CSS
    selection on it.  The observable side effects (HTTP requests and
    [time.sleep] pauses) are recorded in an explicit world that is threaded
    through the calls; log records are not modelled. *)

From Stdlib Require Import ZArith QArith Qround String Ascii List Lia.
From Stdlib Require Import Sorting.Sorted.
From Stdlib Require Import PrimFloat FloatOps SpecFloat.
From Stdlib Require Uint63.
From stdpp Require Import gmap strings list pretty.

Local Open Scope string_scope.
Local Open Scope list_scope.
Local Open Scope nat_scope.

(** ** Python string methods used by the scraper *)

Module PyStr.

(** [c.isspace()] on the ASCII range: TAB..CR, FS..US and the blank. *)
Definition isspace (c : ascii) : bool :=
  let n := N_of_ascii c in
  ((9 <=? n)%N && (n <=? 13)%N) || ((28 <=? n)%N && (n <=? 32)%N).

(** [c.lower()] on the ASCII range. *)
Definition lower_char (c : ascii) : ascii :=
  let n := N_of_ascii c in
  if ((65 <=? n)%N && (n <=? 90)%N)%bool then ascii_of_N (n + 32) else c.

(** [s.lower()] *)
Fixpoint lower (s : string) : string :=
  match s with
  | EmptyString => EmptyString
  | String c t => String (lower_char c) (lower t)
  end.

(** [s.lstrip()] *)
Fixpoint lstrip (s : string) : string :=
  match s with
  | EmptyString => EmptyString
  | String c t => if isspace c then lstrip t else s
  end.

(** [s.rstrip()] *)
Fixpoint rstrip (s : string) : string :=
  match s with
  | EmptyString => EmptyString
  | String c t =>
      match rstrip t with
      | EmptyString => if isspace c then EmptyString else String c EmptyString
      | t' => String c t'
      end
  end.

(** [s.strip()] *)
Definition strip (s : string) : string := rstrip (lstrip s).

(** [s.startswith(p)] *)
Definition startswith (s p : string) : bool := String.prefix p s.

(** [needle in s] *)
Fixpoint contains (needle s : string) : bool :=
  String.prefix needle s ||
  match s with
  | EmptyString => false
  | String _ t => contains needle t
  end.

(** Truth value of a string: the empty string is falsy. *)
Definition truthy (s : string) : bool :=
  match s with EmptyString => false | String _ _ => true end.

(** [a or b] on values that may be [None]; the result may still be falsy. *)
Definition or_else (a b : option string) : option string :=
  match a with
  | Some s => if truthy s then a else b
  | None => b
  end.

(** Truth value of a string-or-None. *)
Definition truthy_opt (a : option string) : bool :=
  match a with Some s => truthy s | None => false end.

End PyStr.

(** ** Exceptions and results *)

Inductive exn : Type :=
| KeyError (key : string)
| ValueError (message : string).

Inductive result (A : Type) : Type :=
| Return (a : A)
| Raise (e : exn).
Arguments Return {A} a.
Arguments Raise {A} e.

Global Instance result_ret : MRet result := fun A a => Return a.

Global Instance result_bind : MBind result := fun A B k r =>
  match r with
  | Return a => k a
  | Raise e => Raise e
  end.

(** A list comprehension whose element expression may raise: the first
    exception aborts the whole comprehension. *)
Fixpoint comprehension {A B} (f : A -> result B) (l : list A) : result (list B) :=
  match l with
  | [] => Return []
  | x :: l' => y ← f x; ys ← comprehension f l'; Return (y :: ys)
  end.

(** ** The parsed page: bs4 tags and CSS selection *)

Record Tag : Type := {
  attrs : gmap string string;   (* the tag's attribute dictionary *)
  text : string                 (* [tag.text] *)
}.

(** [tag.get(key)] *)
Definition tag_get (t : Tag) (key : string) : option string := attrs t !! key.

(** [tag[key]]: raises [KeyError] when the attribute is missing. *)
Definition tag_getitem (t : Tag) (key : string) : result string :=
  match attrs t !! key with
  | Some v => Return v
  | None => Raise (KeyError key)
  end.

(** A parsed document is observed only through CSS selection, which
    returns the matching tags in document order. *)
Record Soup : Type := {
  select : string -> list Tag
}.

(** [soup.select_one(sel)]: the first match, or [None]. *)
Definition select_one (soup : Soup) (sel : string) : option Tag :=
  head (select soup sel).

(** ** Configuration ([JewelryScraperConfig]) *)

Definition SELECTORS (key : string) : string :=
  match key with
  | "product_links" => ".product-item a.product-link"
  | "pagination" => ".pagination a.next"
  | "product_title" => ".product-title"
  | "product_sku" => ".product-sku"
  | "product_price" => ".product-price"
  | "product_stock" => ".stock-status"
  | "product_description" => ".product-description"
  | "product_images" => ".product-gallery img"
  | "product_materials" => ".materials-list"
  | "product_dimensions" => ".dimensions"
  | "product_weight" => ".weight"
  | _ => ""
  end.

Record JewelryScraperConfig : Type := {
  BASE_URL : string;
  CATEGORY_URLS : list string
}.

Definition default_config : JewelryScraperConfig := {|
  BASE_URL := "https://supplier-jewelry-website.com";
  CATEGORY_URLS := ["/necklaces"; "/earrings"; "/rings"; "/bracelets"; "/pendants"]
|}.

(** ** Products *)

Record Product : Type := {
  sku : string;
  title : string;
  price : string;
  stock_status : string;
  description : string;
  materials : string;
  dimensions : string;
  weight : string;
  main_image : string;
  other_images : list string;
  url : string;
  last_updated : string
}.

(** ** The world: numbered HTTP requests and pauses *)

(** Outcome of [session.get(url)] followed by [raise_for_status()]: the
    body, or an exception of the [requests.exceptions.RequestException]
    family (transport error or non-2xx status). *)
Inductive response : Type :=
| Ok (body : string)
| RequestException.

Inductive event : Type :=
| Request (url : string)
| Sleep (seconds : Q).

Record World : Type := {
  requests : nat;          (* number of requests issued so far *)
  events : list event      (* what happened so far, oldest first *)
}.

Definition initial_world : World := {| requests := 0; events := [] |}.

(** The pause made by [time.sleep(seconds)] when it accepts its
    argument. *)
Definition sleep (seconds : Q) (w : World) : World :=
  {| requests := requests w; events := events w ++ [Sleep seconds] |}.

(** [time.sleep(seconds)]: a negative argument is refused. *)
Definition time_sleep (seconds : Q) (w : World) : result World :=
  if Qle_bool 0 seconds then Return (sleep seconds w)
  else Raise (ValueError "sleep length must be non-negative").

(** ** The scraper ([class JewelryScraper]) *)

Section JewelryScraper.

(** [self.config] *)
Variable config : JewelryScraperConfig.

(** [BeautifulSoup(html, 'html.parser')] *)
Variable BeautifulSoup : string -> Soup.

(** The remote site: the answer to the [n]-th request overall, for the
    URL requested. *)
Variable server : nat -> string -> response.

(** [self.session.get(url)] with [response.raise_for_status()] *)
Definition session_get (url : string) (w : World) : response * World :=
  (server (requests w) url,
   {| requests := S (requests w); events := events w ++ [Request url] |}).

(** The body of [for attempt in range(retries)] in [get_page], iterated
    over the remaining attempt numbers.  Falling off the end of the loop
    returns [None]; an exception raised by [time.sleep(delay)] inside the
    [except] clause is not caught. *)
Fixpoint get_page_for (url : string) (retries : nat) (delay : Q)
    (range : list nat) (w : World) : result (option string) * World :=
  match range with
  | [] => (Return None, w)
  | attempt :: range' =>
      match session_get url w with
      | (Ok body, w1) => (Return (Some body), w1)
      | (RequestException, w1) =>
          if attempt <? retries - 1
          then
            match time_sleep delay w1 with
            | Return w2 => get_page_for url retries delay range' w2
            | Raise e => (Raise e, w1)
            end
          else (Return None, w1)
      end
  end.

(** [get_page(self, url, retries=3, delay=2)]; [retries] is a count:
    [range(retries)] is empty for every value below one. *)
Definition get_page (url : string) (retries : nat) (delay : Q) (w : World)
    : result (option string) * World :=
  get_page_for url retries delay (seq 0 retries) w.

(** The element expression of the comprehension in
    [extract_product_links]; every occurrence of [elem['href']] reads the
    same attribute, and the first one raises when it is missing. *)
Definition product_link (elem : Tag) : result string :=
  href ← tag_getitem elem "href";
  Return (if PyStr.startswith href "http" then href
          else BASE_URL config +:+ href).

(** [extract_product_links(self, html)] *)
Definition extract_product_links (html : string) : result (list string) :=
  let soup := BeautifulSoup html in
  let product_elements := select soup (SELECTORS "product_links") in
  comprehension product_link product_elements.

(** [get_next_page_url(self, html, current_url)] *)
Definition get_next_page_url (html current_url : string) : option string :=
  let soup := BeautifulSoup html in
  match select_one soup (SELECTORS "pagination") with
  | Some next_button =>
      match tag_get next_button "href" with
      | Some next_url =>
          if PyStr.truthy next_url then
            if negb (PyStr.startswith next_url "http")
            then Some (BASE_URL config +:+ next_url)
            else Some next_url
          else None
      | None => None
      end
  | None => None
  end.

(** The "Extract stock status" block of [parse_product_page]. *)
Definition extract_stock_status (stock_elem : option Tag) : string :=
  match stock_elem with
  | Some elem =>
      let status_text := PyStr.lower (PyStr.strip (text elem)) in
      if PyStr.contains "out of stock" status_text then "Out of Stock"
      else if PyStr.contains "production" status_text
              || PyStr.contains "manufacturing" status_text then "In Production"
      else if PyStr.contains "discontinued" status_text
              || PyStr.contains "removed" status_text then "Removed"
      else "Available"
  | None => "Available"
  end.

(** The "Extract images" comprehension:
    [img.get('src') or img.get('data-src')] for the images where that
    value is truthy. *)
Definition extract_images (image_elements : list Tag) : list string :=
  omap (fun img =>
          let v := PyStr.or_else (tag_get img "src") (tag_get img "data-src") in
          if PyStr.truthy_opt v then v else None)
       image_elements.

(** [elem.text.strip() if elem else ""] *)
Definition text_or_empty (elem : option Tag) : string :=
  match elem with
  | Some e => PyStr.strip (text e)
  | None => ""
  end.

(** [parse_product_page(self, html, product_url)]; [now] is the value of
    [datetime.now().strftime(...)] at the call. *)
Definition parse_product_page (html product_url now : string) : option Product :=
  let soup := BeautifulSoup html in
  let title_elem := select_one soup (SELECTORS "product_title") in
  let sku_elem := select_one soup (SELECTORS "product_sku") in
  let price_elem := select_one soup (SELECTORS "product_price") in
  let stock_elem := select_one soup (SELECTORS "product_stock") in
  match title_elem, sku_elem with
  | Some title_elem, Some sku_elem =>
      let stock_status := extract_stock_status stock_elem in
      let images := extract_images (select soup (SELECTORS "product_images")) in
      let description := text_or_empty (select_one soup (SELECTORS "product_description")) in
      let materials := text_or_empty (select_one soup (SELECTORS "product_materials")) in
      let dimensions := text_or_empty (select_one soup (SELECTORS "product_dimensions")) in
      let weight := text_or_empty (select_one soup (SELECTORS "product_weight")) in
      Some {| sku := PyStr.strip (text sku_elem);
              title := PyStr.strip (text title_elem);
              price := text_or_empty price_elem;
              stock_status := stock_status;
              description := description;
              materials := materials;
              dimensions := dimensions;
              weight := weight;
              main_image := hd "" images;
              other_images := tl images;
              url := product_url;
              last_updated := now |}
  | _, _ => None
  end.

(** The [while current_url:] loop of [scrape_category].  [fuel] bounds
    the number of times the loop condition is evaluated; [None] means the
    bound was reached with the loop still running. *)
Fixpoint pagination_loop (fuel : nat) (current_url : string) (page_count : nat)
    (product_links : list string) (w : World)
    : option (result (list string) * World) :=
  match fuel with
  | O => None
  | S fuel' =>
      if PyStr.truthy current_url then
        match get_page current_url 3 2%Q w with
        | (Raise e, w1) => Some (Raise e, w1)
        | (Return (Some html), w1) =>
            if negb (PyStr.truthy html) then Some (Return product_links, w1)
            else
              match extract_product_links html with
              | Raise e => Some (Raise e, w1)
              | Return links =>
                  let product_links := product_links ++ links in
                  match get_next_page_url html current_url with
                  | Some next_url =>
                      if PyStr.truthy next_url
                         && negb (String.eqb next_url current_url)
                      then pagination_loop fuel' next_url (page_count + 1)
                             product_links (sleep 1%Q w1)
                      else Some (Return product_links, w1)
                  | None => Some (Return product_links, w1)
                  end
              end
        | (Return None, w1) => Some (Return product_links, w1)
        end
      else Some (Return product_links, w)
  end.

(** [scrape_category(self, category_url)] *)
Definition scrape_category (fuel : nat) (category_url : string) (w : World)
    : option (result (list string) * World) :=
  let full_url :=
    if negb (PyStr.startswith category_url "http")
    then BASE_URL config +:+ category_url
    else category_url in
  pagination_loop fuel full_url 1 [] w.

End JewelryScraper.

(** ** The backend ([app.py]): numbers and the shared status record *)

(** Python's [/] on two ints is true division and the products and sums
    around it are floating point; they are modelled by exact rational
    arithmetic.  The module [Binary64] below evaluates the two progress
    formulas in IEEE 754 binary64, for comparison on a range of totals. *)

(** [int(x)]: truncation toward zero. *)
Definition py_int (x : Q) : Z := Z.quot (Qnum x) (Zpos (Qden x)).

(** [a / b] on ints. *)
Definition true_div (a b : Z) : Q := (inject_Z a / inject_Z b)%Q.

(** [int((processed_categories / total_categories) * 30)] *)
Definition category_progress (processed_categories total_categories : Z) : Z :=
  py_int (true_div processed_categories total_categories * 30)%Q.

(** [int(30 + ((i + 1) / len(unique_links) * 60))] *)
Definition product_progress (i len_unique_links : Z) : Z :=
  py_int (30 + true_div (i + 1) len_unique_links * 60)%Q.

(** What the specification prescribes instead: arithmetic rounding to the
    nearest integer (for the non-negative values at hand, the floor of the
    value plus one half). *)
Definition round_nearest (x : Q) : Z := Qfloor (x + (1 # 2))%Q.

Definition spec_category_progress (k n : Z) : Z :=
  round_nearest (true_div k n * 30)%Q.

Definition spec_product_progress (m t : Z) : Z :=
  (30 + round_nearest (true_div m t * 60)%Q)%Z.

(** Values stored in the [scraper_status] dictionary. *)
Inductive pyval : Type :=
| PStr (s : string)
| PInt (z : Z)
| PNone.

Global Instance pyval_eq_dec : EqDecision pyval.
Proof. solve_decision. Defined.

(** The module-level [scraper_status] dictionary. *)
Definition initial_scraper_status : gmap string pyval :=
  list_to_map
    [ ("status", PStr "Idle"); ("progress", PInt 0); ("pages_crawled", PInt 0);
      ("total_pages", PInt 0); ("products_processed", PInt 0);
      ("total_products", PInt 0); ("available_products", PInt 0);
      ("unavailable_products", PInt 0); ("time_elapsed", PStr "0:00:00");
      ("feed_status", PStr "Pending"); ("start_time", PNone); ("job_id", PNone) ].

(** [scraper_status.update(update_dict)], executed while holding
    [status_lock]: one atomic step. *)
Definition update_scraper_status (update_dict scraper_status : gmap string pyval)
    : gmap string pyval :=
  update_dict ∪ scraper_status.

(** [scraper_status[key]]; every key read by the code is present from the
    start and no key is ever deleted. *)
Definition status_get (scraper_status : gmap string pyval) (key : string) : pyval :=
  default PNone (scraper_status !! key).

(** The [progress] field of a snapshot, as an integer. *)
Definition progress_of (scraper_status : gmap string pyval) : Z :=
  match status_get scraper_status "progress" with
  | PInt z => z
  | _ => 0%Z
  end.

(** [scraper_status["status"] != "Idle"] *)
Definition not_idle (scraper_status : gmap string pyval) : bool :=
  bool_decide (status_get scraper_status "status" ≠ PStr "Idle").

(** Two-digit field of [format_time_elapsed] ([:02d]). *)
Definition pad2 (z : Z) : string :=
  if (z <? 10)%Z then "0" +:+ pretty z else pretty z.

(** [format_time_elapsed(seconds)]; only the integer parts are printed, so
    the clock is read in whole seconds. *)
Definition format_time_elapsed (seconds : Z) : string :=
  let hours := (seconds / 3600)%Z in
  let remainder := (seconds mod 3600)%Z in
  let minutes := (remainder / 60)%Z in
  let seconds := (remainder mod 60)%Z in
  pretty hours +:+ ":" +:+ pad2 minutes +:+ ":" +:+ pad2 seconds.

(** ** The worker ([scraper_thread]) *)

(** The configuration dictionary returned by [load_config]: the value of
    each key, [None] for a key that is missing.  The dictionary comes
    from a JSON file, so a key may be missing; values are taken to have
    the types that the default configuration gives them. *)
Record JobConfig : Type := {
  base_url : option string;
  user_agent : option string;
  request_delay : option Q;
    (* [float(config["request_delay"])]; [None] also when the conversion
       raises *)
  max_retries : option nat;
  categories : option (list string)
}.

(** What one run of the worker reads and writes, and what happens to it. *)
Record Job : Type := {
  scraper_status : gmap string pyval;   (* the shared dictionary *)
  updates : list (gmap string pyval);
    (* the update dictionaries written by this run, in order *)
  snapshots : list (gmap string pyval);
    (* the shared dictionary after each write, by this run or by another
       thread: what a reader of the status can see *)
  world : World;
  products : list Product;              (* [scraper.products] *)
  unavailable_products : list Product;  (* [scraper.unavailable_products] *)
  errors : Z;                           (* [issues["errors"]] *)
  warnings : Z;                         (* [issues["warnings"]] *)
  faults : list bool;
    (* for each coming statement at which an exception may strike (see
       [fault_point]), whether one does; none once the list is used up *)
  others : list (list (gmap string pyval))
    (* for each coming access of this run to the shared dictionary, the
       updates that other worker threads perform before it; none once
       the list is used up *)
}.

Definition set_status (s : gmap string pyval) (j : Job) : Job :=
  {| scraper_status := s; updates := updates j; snapshots := snapshots j ++ [s];
     world := world j; products := products j;
     unavailable_products := unavailable_products j;
     errors := errors j; warnings := warnings j;
     faults := faults j; others := others j |}.

Definition add_update (update_dict : gmap string pyval) (j : Job) : Job :=
  {| scraper_status := scraper_status j; updates := updates j ++ [update_dict];
     snapshots := snapshots j;
     world := world j; products := products j;
     unavailable_products := unavailable_products j;
     errors := errors j; warnings := warnings j;
     faults := faults j; others := others j |}.

Definition set_world (w : World) (j : Job) : Job :=
  {| scraper_status := scraper_status j; updates := updates j; snapshots := snapshots j;
     world := w; products := products j;
     unavailable_products := unavailable_products j;
     errors := errors j; warnings := warnings j;
     faults := faults j; others := others j |}.

Definition set_products (l : list Product) (j : Job) : Job :=
  {| scraper_status := scraper_status j; updates := updates j; snapshots := snapshots j;
     world := world j; products := l;
     unavailable_products := unavailable_products j;
     errors := errors j; warnings := warnings j;
     faults := faults j; others := others j |}.

Definition set_unavailable_products (l : list Product) (j : Job) : Job :=
  {| scraper_status := scraper_status j; updates := updates j; snapshots := snapshots j;
     world := world j; products := products j;
     unavailable_products := l;
     errors := errors j; warnings := warnings j;
     faults := faults j; others := others j |}.

Definition set_issues (errors warnings : Z) (j : Job) : Job :=
  {| scraper_status := scraper_status j; updates := updates j; snapshots := snapshots j;
     world := world j; products := products j;
     unavailable_products := unavailable_products j;
     errors := errors; warnings := warnings;
     faults := faults j; others := others j |}.

Definition set_faults (l : list bool) (j : Job) : Job :=
  {| scraper_status := scraper_status j; updates := updates j; snapshots := snapshots j;
     world := world j; products := products j;
     unavailable_products := unavailable_products j;
     errors := errors j; warnings := warnings j;
     faults := l; others := others j |}.

Definition set_others (l : list (list (gmap string pyval))) (j : Job) : Job :=
  {| scraper_status := scraper_status j; updates := updates j; snapshots := snapshots j;
     world := world j; products := products j;
     unavailable_products := unavailable_products j;
     errors := errors j; warnings := warnings j;
     faults := faults j; others := l |}.

(** Ways in which a piece of the worker fails to run to its end. *)
Inductive abrupt : Type :=
| Unexpected   (* an exception (of class [Exception]) is raised *)
| Hang.        (* a crawl loop is still running when the fuel is spent *)

Definition Worker (A : Type) : Type := Job -> (A + abrupt) * Job.

Global Instance worker_ret : MRet Worker := fun A a j => (inl a, j).

Global Instance worker_bind : MBind Worker := fun A B k m j =>
  match m j with
  | (inl a, j') => k a j'
  | (inr e, j') => (inr e, j')
  end.

(** [raise] *)
Definition raise {A} : Worker A := fun j => (inr Unexpected, j).

(** [try: body except Exception: handler].  A crawl that never ends
    never reaches the handler. *)
Definition try_except {A} (body handler : Worker A) : Worker A := fun j =>
  match body j with
  | (inr Unexpected, j') => handler j'
  | r => r
  end.

(** The first statements of a guarded block, up to an assignment to a
    local variable that the statements after the block read: [Some] of
    the value assigned, or [None] when an exception was raised before. *)
Definition attempt {A} (body : Worker A) : Worker (option A) :=
  try_except (a ← body; mret (Some a)) (mret None).

(** [update_scraper_status(update_dict)] by another worker thread. *)
Definition other_write (j : Job) (update_dict : gmap string pyval) : Job :=
  set_status (update_scraper_status update_dict (scraper_status j)) j.

(** What the other threads do before the next access of this run. *)
Definition interfere : Worker unit := fun j =>
  match others j with
  | [] => (inl tt, j)
  | update_dicts :: rest => (inl tt, foldl other_write (set_others rest j) update_dicts)
  end.

(** The write of this run itself. *)
Definition own_write (update_dict : gmap string pyval) : Worker unit := fun j =>
  (inl tt,
   set_status (update_scraper_status update_dict (scraper_status j))
     (add_update update_dict j)).

(** [update_scraper_status(update_dict)] by the worker: the dictionary is
    updated under the lock and the new value becomes visible to readers. *)
Definition write_status (update_dict : gmap string pyval) : Worker unit :=
  _ ← interfere; own_write update_dict.

(** A statement at which an exception may strike: the status updates
    inside the outer [try], the construction of the scraper before it and
    the bookkeeping after the last update. *)
Definition fault_point : Worker unit := fun j =>
  match faults j with
  | [] => (inl tt, j)
  | strikes :: rest =>
      (if strikes : bool then inr Unexpected else inl tt, set_faults rest j)
  end.

(** A status update inside the outer [try] block. *)
Definition update (update_dict : gmap string pyval) : Worker unit :=
  _ ← fault_point; write_status update_dict.

(** The read of this run itself. *)
Definition own_read (key : string) : Worker pyval := fun j =>
  (inl (status_get (scraper_status j) key), j).

(** [scraper_status[key]], read by the worker. *)
Definition read_status (key : string) : Worker pyval :=
  _ ← interfere; own_read key.

(** Running a world transformer. *)
Definition in_world {A} (f : World -> A * World) : Worker A := fun j =>
  let (a, w) := f (world j) in (inl a, set_world w j).

(** [issues["errors"] += 1] and [issues["warnings"] += 1] *)
Definition add_error : Worker unit := fun j =>
  (inl tt, set_issues (errors j + 1) (warnings j) j).

Definition add_warning : Worker unit := fun j =>
  (inl tt, set_issues (errors j) (warnings j + 1) j).

(** [product['stock_status'] in ["Out of Stock", "In Production", "Removed"]],
    the routing test of [scrape_all_products] and of [scraper_thread]. *)
Definition is_unavailable (product : Product) : bool :=
  bool_decide (stock_status product ∈ ["Out of Stock"; "In Production"; "Removed"]).

Definition append_unavailable (product : Product) : Worker Z := fun j =>
  let l := unavailable_products j ++ [product] in
  (inl (Z.of_nat (length l)), set_unavailable_products l j).

Definition append_available (product : Product) : Worker Z := fun j =>
  let l := products j ++ [product] in
  (inl (Z.of_nat (length l)), set_products l j).

(** How a run of the worker ends; "Completed" and "Failed" are the
    [status] of the entry it appends to [job_history]. *)
Inductive outcome : Type :=
| Completed
| Failed
| Hung     (* a crawl loop was still running when the fuel was spent *)
| Died.    (* an exception before the outer [try] ended the thread *)

(** The update of the outer [except] handler. *)
Definition failure_update : gmap string pyval :=
  list_to_map [ ("status", PStr "Idle"); ("progress", PInt 0);
                ("feed_status", PStr "Failed") ].

Section ScraperThread.

Variable BeautifulSoup : string -> Soup.
Variable server : nat -> string -> response.

(** [datetime.now().strftime(format)] and [time.time()] (whole seconds)
    as functions of what has happened so far. *)
Variable strftime : World -> string -> string.
Variable time_time : World -> Z.

(** [scraper.generate_feeds()]: [true] when both files are written,
    [false] when the call raises. *)
Variable generate_feeds : list Product -> list Product -> bool.

(** Bound on the loop-condition evaluations of each category crawl. *)
Variable fuel : nat.

(** The statements between the first status update and the outer [try]:
    the three configuration keys are read ([KeyError] when one is
    missing) and the scraper is constructed, which creates the output
    directory and may raise. *)
Definition configure (config : JobConfig) : Worker (JewelryScraperConfig * Z) :=
  match base_url config, user_agent config, categories config with
  | Some base_url, Some _, Some categories =>
      _ ← fault_point;
      mret ({| BASE_URL := base_url; CATEGORY_URLS := categories |},
            Z.of_nat (length categories))
  | _, _, _ => raise
  end.

(** [scraper.scrape_category(category_url)] inside the worker. *)
Definition crawl (scraper_config : JewelryScraperConfig) (category_url : string)
    : Worker (list string) := fun j =>
  match scrape_category scraper_config BeautifulSoup server fuel category_url (world j) with
  | Some (Return category_links, w) => (inl category_links, set_world w j)
  | Some (Raise _, w) => (inr Unexpected, set_world w j)
  | None => (inr Hang, j)
  end.

(** [for category_url in scraper_config.CATEGORY_URLS: ...].  The guarded
    block of the body is entered in two steps: an exception raised after
    the crawl leaves [all_product_links] and [processed_categories]
    updated, and either way the one handler counts an error. *)
Fixpoint category_loop (scraper_config : JewelryScraperConfig) (total_categories : Z)
    (category_urls : list string) (all_product_links : list string)
    (processed_categories : Z) : Worker (list string) :=
  match category_urls with
  | [] => mret all_product_links
  | category_url :: rest =>
      _ ← update {[ "status" := PStr ("Scraping category: " +:+ category_url) ]};
      crawled ← attempt (crawl scraper_config category_url);
      match crawled with
      | Some category_links =>
          let all_product_links := all_product_links ++ category_links in
          let processed_categories := (processed_categories + 1)%Z in
          let progress := category_progress processed_categories total_categories in
          _ ← try_except
                (pages_crawled ← read_status "pages_crawled";
                 total_pages ← read_status "total_pages";
                 update (list_to_map [ ("progress", PInt progress);
                                       ("pages_crawled", pages_crawled);
                                       ("total_pages", total_pages) ]))
                add_error;
          category_loop scraper_config total_categories rest
            all_product_links processed_categories
      | None =>
          _ ← add_error;
          category_loop scraper_config total_categories rest
            all_product_links processed_categories
      end
  end.

(** [scraper.get_page(link)] inside the worker. *)
Definition fetch (link : string) : Worker (option string) := fun j =>
  match get_page server link 3 2%Q (world j) with
  | (Return html, w) => (inl html, set_world w j)
  | (Raise _, w) => (inr Unexpected, set_world w j)
  end.

(** [time.sleep(seconds)] inside the worker. *)
Definition pause (seconds : Q) : Worker unit := fun j =>
  match time_sleep seconds (world j) with
  | Return w => (inl tt, set_world w j)
  | Raise _ => (inr Unexpected, j)
  end.

(** The "Process the product" block. *)
Definition process_product (link : string) : Worker unit :=
  html ← fetch link;
  if PyStr.truthy_opt html then
    now ← in_world (fun w => (strftime w "%Y-%m-%d %H:%M:%S", w));
    match parse_product_page BeautifulSoup (default "" html) link now with
    | Some product =>
        if is_unavailable product then
          n ← append_unavailable product;
          update {[ "unavailable_products" := PInt n ]}
        else
          n ← append_available product;
          update {[ "available_products" := PInt n ]}
    | None => mret tt
    end
  else mret tt.

(** The guarded block of the body of the product loop. *)
Definition product_body (config : JobConfig) (start_time len_unique_links : Z)
    (i : Z) (link : string) : Worker unit :=
  _ ← update (list_to_map
         [ ("status", PStr ("Processing product " +:+ pretty (i + 1)%Z
                             +:+ "/" +:+ pretty len_unique_links));
           ("products_processed", PInt (i + 1)) ]);
  let product_progress := product_progress i len_unique_links in
  _ ← update {[ "progress" := PInt product_progress ]};
  _ ← process_product link;
  now ← in_world (fun w => (time_time w, w));
  let elapsed := (now - start_time)%Z in
  _ ← update {[ "time_elapsed" := PStr (format_time_elapsed elapsed) ]};
  if (i mod 10 =? 0)%Z then
    match request_delay config with
    | Some delay => pause delay
    | None => raise
    end
  else pause (1 # 2).

(** [for i, link in enumerate(unique_links): ...] *)
Fixpoint product_loop (config : JobConfig) (start_time len_unique_links : Z)
    (i : Z) (links : list string) : Worker unit :=
  match links with
  | [] => mret tt
  | link :: rest =>
      _ ← try_except (product_body config start_time len_unique_links i link)
            add_warning;
      product_loop config start_time len_unique_links (i + 1)%Z rest
  end.

(** [scraper.generate_feeds()] inside the worker. *)
Definition feeds : Worker unit := fun j =>
  if generate_feeds (products j) (unavailable_products j) then (inl tt, j)
  else (inr Unexpected, j).

(** The body of the outer [try]. *)
Definition try_block (config : JobConfig) (scraper_config : JewelryScraperConfig)
    (total_categories start_time : Z) : Worker unit :=
  _ ← update {[ "total_pages" := PInt 0 ]};
  all_product_links ←
    category_loop scraper_config total_categories (CATEGORY_URLS scraper_config) [] 0%Z;
  let unique_links := elements (list_to_set all_product_links : gset string) in
  let len_unique_links := Z.of_nat (length unique_links) in
  _ ← update (list_to_map [ ("status", PStr "Processing products");
                            ("total_products", PInt len_unique_links) ]);
  _ ← product_loop config start_time len_unique_links 0%Z unique_links;
  _ ← update (list_to_map [ ("status", PStr "Generating feeds");
                            ("progress", PInt 90) ]);
  _ ← try_except
        (_ ← feeds; update {[ "feed_status" := PStr "Completed" ]})
        (_ ← add_error; update {[ "feed_status" := PStr "Failed" ]});
  now ← in_world (fun w => (time_time w, w));
  let formatted_time := format_time_elapsed (now - start_time)%Z in
  _ ← update (list_to_map [ ("status", PStr "Idle"); ("progress", PInt 100);
                            ("time_elapsed", PStr formatted_time) ]);
  fault_point.

(** [scraper_thread(config)]; [history_len] is [len(job_history)] at the
    start of the run.  The entry that the run appends to [job_history] at
    its end is "Completed" or "Failed" as the outcome says; a thread that
    died appends none. *)
Definition scraper_thread (config : JobConfig) (history_len : nat) (j : Job)
    : outcome * Job :=
  let job_id := "job-" +:+ strftime (world j) "%Y%m%d%H" +:+ "-"
                +:+ pretty (history_len + 1) in
  let start_time := time_time (world j) in
  let j :=
    snd (write_status (list_to_map
           [ ("status", PStr "Running");
             ("start_time", PStr (strftime (world j) "%Y-%m-%d %H:%M:%S"));
             ("job_id", PStr job_id); ("progress", PInt 0);
             ("feed_status", PStr "Processing") ]) j) in
  match configure config j with
  | (inl (scraper_config, total_categories), j) =>
      match try_block config scraper_config total_categories start_time j with
      | (inl _, j) => (Completed, j)
      | (inr Unexpected, j) => (Failed, snd (write_status failure_update j))
      | (inr Hang, j) => (Hung, j)
      end
  | (inr _, j) => (Died, j)
  end.

End ScraperThread.

(** The state in which a run starts: the shared dictionary as it stands,
    nothing written yet by this run. *)
Definition new_job (scraper_status : gmap string pyval) (w : World)
    (faults : list bool) (others : list (list (gmap string pyval))) : Job :=
  {| scraper_status := scraper_status; updates := []; snapshots := []; world := w;
     products := []; unavailable_products := []; errors := 0; warnings := 0;
     faults := faults; others := others |}.

(** ** The serving layer ([start_scraper], [get_status]) and its threads *)

(** The process: the shared dictionary and the worker threads that have
    been started, each with the status updates it has yet to perform.  A
    thread is alive as long as updates remain. *)
Record Backend : Type := {
  shared_status : gmap string pyval;
  threads : list (list (gmap string pyval))
}.

Definition initial_backend : Backend :=
  {| shared_status := initial_scraper_status; threads := [] |}.

Inductive http_response : Type :=
| Json200 (message : string)
| Json400 (error : string).

(** [start_scraper()]; [run] is the sequence of status updates that the
    thread started by this call is going to perform.  The request handler
    itself does not write the dictionary. *)
Definition start_scraper (run : list (gmap string pyval)) (b : Backend)
    : http_response * Backend :=
  if not_idle (shared_status b) then (Json400 "Scraper is already running", b)
  else (Json200 "Scraper started",
        {| shared_status := shared_status b; threads := threads b ++ [run] |}).

(** [get_status()] *)
Definition get_status (b : Backend) : gmap string pyval := shared_status b.

(** Thread [i] performs its next status update. *)
Definition thread_step (i : nat) (b : Backend) : Backend :=
  match threads b !! i with
  | Some (update_dict :: rest) =>
      {| shared_status := update_scraper_status update_dict (shared_status b);
         threads := <[i := rest]> (threads b) |}
  | _ => b
  end.

(** The worker threads that are still running. *)
Definition live_workers (b : Backend) : list (list (gmap string pyval)) :=
  filter (fun run => run ≠ []) (threads b).

(** ** The progress formulas in IEEE 754 binary64 *)

Module Binary64.

(** An int operand of [/], converted to a float. *)
Definition of_int (z : Z) : float := PrimFloat.of_uint63 (Uint63.of_Z z).

(** [int(f)] on a float: truncation toward zero. *)
Definition to_int (f : float) : Z :=
  match Prim2SF f with
  | S754_finite s m e =>
      let v := Z.shiftl (Zpos m) e in if s then (- v)%Z else v
  | _ => 0%Z
  end.

(** [int((processed_categories / total_categories) * 30)] *)
Definition category_progress64 (processed_categories total_categories : Z) : Z :=
  to_int ((of_int processed_categories / of_int total_categories) * 30)%float.

(** [int(30 + ((i + 1) / len(unique_links) * 60))] *)
Definition product_progress64 (i len_unique_links : Z) : Z :=
  to_int (30 + (of_int (i + 1) / of_int len_unique_links) * 60)%float.

(** The two formulas agree with the exact ones for every total up to
    [bound] and every count up to the total. *)
Definition agrees_upto (bound : nat) : bool :=
  forallb (fun n =>
    forallb (fun k =>
      let n := Z.of_nat n in
      let k := Z.of_nat k in
      Z.eqb (category_progress64 k n) (category_progress k n)
      && Z.eqb (product_progress64 (k - 1) n) (product_progress (k - 1) n))
      (seq 0 (S n)))
    (seq 1 bound).

End Binary64.

(** ** The stock classification as the specification words it *)

Inductive StockStatus : Type :=
| Available
| OutOfStock
| InProduction
| Removed.

(** The strings by which the code names the four statuses. *)
Definition status_name (st : StockStatus) : string :=
  match st with
  | Available => "Available"
  | OutOfStock => "Out of Stock"
  | InProduction => "In Production"
  | Removed => "Removed"
  end.

(** [s] contains [needle] when the case of letters is ignored: some
    substring of [s] differs from [needle] in case only. *)
Definition ci_substring (needle s : string) : Prop :=
  ∃ pre mid post, s = pre +:+ mid +:+ post ∧ PyStr.lower mid = PyStr.lower needle.

(** The rule of the specification, tested in its order, on the raw text of
    the stock-status element. *)
Definition spec_stock_status (stock_text : string) (st : StockStatus) : Prop :=
  (ci_substring "out of stock" stock_text ∧ st = OutOfStock)
  ∨ (¬ ci_substring "out of stock" stock_text
     ∧ (ci_substring "production" stock_text ∨ ci_substring "manufacturing" stock_text)
     ∧ st = InProduction)
  ∨ (¬ ci_substring "out of stock" stock_text
     ∧ ¬ (ci_substring "production" stock_text ∨ ci_substring "manufacturing" stock_text)
     ∧ (ci_substring "discontinued" stock_text ∨ ci_substring "removed" stock_text)
     ∧ st = Removed)
  ∨ (¬ ci_substring "out of stock" stock_text
     ∧ ¬ (ci_substring "production" stock_text ∨ ci_substring "manufacturing" stock_text)
     ∧ ¬ (ci_substring "discontinued" stock_text ∨ ci_substring "removed" stock_text)
     ∧ st = Available).

(** First and last character of a string are not white space. *)
Definition first_nonspace (s : string) : bool :=
  match s with
  | EmptyString => false
  | String c _ => negb (PyStr.isspace c)
  end.

Fixpoint last_nonspace (s : string) : bool :=
  match s with
  | EmptyString => false
  | String c EmptyString => negb (PyStr.isspace c)
  | String _ t => last_nonspace t
  end.

(** ** Traces of the fetcher and runs of the crawl loop *)




(** [n] attempts on [url] with one pause of [delay] seconds between any
    two consecutive ones. *)
Fixpoint attempts_trace (url : string) (delay : Q) (n : nat) : list event :=
  match n with
  | O => []
  | S O => [Request url]
  | S n' => Request url :: Sleep delay :: attempts_trace url delay n'
  end.

Section CrawlRuns.

Variable config : JewelryScraperConfig.
Variable BeautifulSoup : string -> Soup.
Variable server : nat -> string -> response.

(** [crawl_prefix u w links u' w']: started at page [u] in world [w],
    the crawl loop fetches a sequence of pages, extracts [links] from
    them in order, follows their next-page links and arrives at the top
    of the loop with page [u'] in world [w']. *)
Inductive crawl_prefix : string -> World -> list string -> string -> World -> Prop :=
| crawl_here u w : crawl_prefix u w [] u w
| crawl_on u w html w1 links next_url rest u' w' :
    PyStr.truthy u = true ->
    get_page server u 3 2%Q w = (Return (Some html), w1) ->
    PyStr.truthy html = true ->
    extract_product_links config BeautifulSoup html = Return links ->
    get_next_page_url config BeautifulSoup html u = Some next_url ->
    next_url <> u ->
    crawl_prefix next_url (sleep 1%Q w1) rest u' w' ->
    crawl_prefix u w (links ++ rest) u' w'.

(** Every next-page link that the site serves resolves to the URL of the
    page that carries it. *)
Definition self_linking : Prop :=
  forall n u html next_url,
    server n u = Ok html ->
    get_next_page_url config BeautifulSoup html u = Some next_url ->
    next_url = u.

(** The URL at which [scrape_category] starts. *)
Definition full_url (category_url : string) : string :=
  if negb (PyStr.startswith category_url "http")
  then BASE_URL config +:+ category_url
  else category_url.

End CrawlRuns.

(** The anchor carries an [href] attribute. *)
Definition has_href (elem : Tag) : Prop := is_Some (tag_get elem "href").

(** ** Invariants of a run of the worker *)

(** An update dictionary leaves the job running: it does not set the
    status, or sets it to something other than "Idle". *)
Definition keeps_running (update_dict : gmap string pyval) : Prop :=
  update_dict !! "status" = None
  ∨ ∃ s, update_dict !! "status" = Some (PStr s) ∧ s ≠ "Idle".

(** ** A program logic for the worker *)

(** A piece of the worker started in a state satisfying [P] ends normally
    in a state satisfying [Q], or abruptly in a state satisfying [E]. *)
Definition triple {A} (E : abrupt -> Job -> Prop) (P : Job -> Prop) (m : Worker A)
    (Q : A -> Job -> Prop) : Prop :=
  forall j, P j ->
    match m j with
    | (inl a, j') => Q a j'
    | (inr e, j') => E e j'
    end.

(** The abrupt ends of a guarded block: an exception is to leave the
    state in [H], where the handler takes over; a crawl that never ends
    is not caught. *)
Definition guarded (H : Job -> Prop) (E : abrupt -> Job -> Prop)
    (e : abrupt) (j : Job) : Prop :=
  match e with
  | Unexpected => H j
  | Hang => E Hang j
  end.

(** An update dictionary that sets the status to something other than
    "Idle". *)
Definition marks_running (update_dict : gmap string pyval) : Prop :=
  ∃ s, update_dict !! "status" = Some (PStr s) ∧ s ≠ "Idle".

(** ** A run on its own: no other thread writes the status *)

(** While the job is under way and no other thread writes: the progress
    values of the snapshots never decrease and none exceeds the current
    one, which is at most [b]; no snapshot reads "Idle"; and the updates
    so far, one for each snapshot, begin with one that marks the job as
    running and go on with updates that leave it so. *)
Definition steady (b : Z) (j : Job) : Prop :=
  others j = []
  ∧ Sorted Z.le (progress_of <$> snapshots j)
  ∧ Forall (fun s => (progress_of s <= progress_of (scraper_status j))%Z) (snapshots j)
  ∧ Forall (fun s => not_idle s = true) (snapshots j)
  ∧ not_idle (scraper_status j) = true
  ∧ (progress_of (scraper_status j) <= b)%Z
  ∧ length (snapshots j) = length (updates j)
  ∧ ∃ first rest, updates j = first :: rest
                  ∧ marks_running first ∧ Forall keeps_running rest.

(** After the final update of the [try] block: the last snapshot is the
    shared dictionary, with status "Idle" and progress 100, and what came
    before was [steady]. *)
Definition ended (j : Job) : Prop :=
  ∃ earlier first rest final,
    others j = []
    ∧ snapshots j = earlier ++ [scraper_status j]
    ∧ Sorted Z.le (progress_of <$> earlier)
    ∧ Forall (fun s => (progress_of s <= 100)%Z) earlier
    ∧ Forall (fun s => not_idle s = true) earlier
    ∧ scraper_status j !! "status" = Some (PStr "Idle")
    ∧ scraper_status j !! "progress" = Some (PInt 100)
    ∧ updates j = first :: rest ++ [final]
    ∧ marks_running first ∧ Forall keeps_running rest
    ∧ length earlier = S (length rest).

(** The states in which the [try] block can end abruptly: the job is
    under way, or an exception strikes after the final update. *)
Definition abrupt_state (e : abrupt) (j : Job) : Prop :=
  steady 90 j ∨ (e = Unexpected ∧ ended j).

(** The number of closing updates (those that write "Idle") that a run
    can make at most. *)
Definition closing_updates (o : outcome) : nat :=
  match o with
  | Completed => 1
  | Failed => 2
  | Hung => 0
  | Died => 0
  end.

(** ** The progress values that a run writes *)

(** The values of the [progress] key in a list of update dictionaries. *)
Definition progress_writes (update_dicts : list (gmap string pyval)) : list pyval :=
  omap (fun update_dict => update_dict !! "progress") update_dicts.

(** The progress values written so far by a run with [n] configured
    categories and [t] unique links: 0 with the first update, the value
    of the category formula for the counts [ks] of completed categories,
    the value of the product formula for the links numbered [ms], and the
    values [closing]. *)
Definition written (n t : Z) (ks ms closing : list Z) (j : Job) : Prop :=
  progress_writes (updates j)
  = PInt <$> (0%Z :: ((fun k => category_progress k n) <$> ks)
                     ++ ((fun m => product_progress (m - 1) t) <$> ms)
                     ++ closing).

(** No exception strikes at the statements to come. *)
Definition calm (faults : list bool) : Prop := Forall (fun strikes => strikes = false) faults.

(** The progress written when [p] categories have been completed and [i]
    links have been taken up: the counts of [ks] and [ms] increase and
    are bounded by [p] and [i]; and when no exception strikes during the
    run ([quiet]), the progress has been written for every category
    completed and every link taken up. *)
Definition progress_stage (quiet : Prop) (n t p i : Z) (closing : list Z) (j : Job)
    : Prop :=
  ∃ ks ms,
    written n t ks ms closing j
    ∧ Sorted Z.lt ks ∧ Forall (fun k => (1 <= k <= p)%Z) ks
    ∧ Sorted Z.lt ms ∧ Forall (fun m => (1 <= m <= i)%Z) ms
    ∧ (quiet → ks = seqZ 1 p ∧ ms = seqZ 1 i)
    ∧ (quiet → calm (faults j)).

(** The abrupt ends of the [try] block: some stage has been reached; a
    crawl that never ends has written no closing value. *)
Definition progress_abrupt (quiet : Prop) (n : Z) (e : abrupt) (j : Job) : Prop :=
  ∃ t p i closing,
    (0 <= p <= n)%Z ∧ (0 <= i <= t)%Z
    ∧ closing ∈ [ []; [90%Z]; [90%Z; 100%Z] ]
    ∧ (e = Hang → closing = [])
    ∧ progress_stage quiet n t p i closing j.

(** ** Invariants that any status update keeps *)

(** The invariant reads nothing but the shared dictionary, the snapshots,
    the record of the updates and what the other threads are going to
    do. *)
Definition insensitive (I : Job -> Prop) : Prop :=
  forall j j',
    scraper_status j' = scraper_status j -> snapshots j' = snapshots j ->
    updates j' = updates j -> others j' = others j -> I j -> I j'.

(** The piece of the worker keeps the invariant, however it ends. *)
Definition keeps {A} (I : Job -> Prop) (m : Worker A) : Prop :=
  triple (fun _ => I) I m (fun _ => I).

(** The states in which the [try] block can end abruptly, when [I] holds
    while the job is under way and [I'] from the final update on. *)
Definition keeps_abrupt (I I' : Job -> Prop) (e : abrupt) (j : Job) : Prop :=
  I j ∨ (e = Unexpected ∧ I' j).

(** What a reader sees of the progress while no other thread writes: a
    value that this run has written. *)
Definition shows_written (j : Job) : Prop :=
  others j = []
  ∧ (∃ v, scraper_status j !! "progress" = Some v ∧ v ∈ progress_writes (updates j))
  ∧ Forall (fun s => ∃ v, s !! "progress" = Some v ∧ v ∈ progress_writes (updates j))
      (snapshots j).

(** ** What the readers of the status can rely on *)

(** An update dictionary that, if it sets the progress, sets it to an
    integer between 0 and 100. *)
Definition polite (update_dict : gmap string pyval) : Prop :=
  ∀ v, update_dict !! "progress" = Some v → ∃ p, v = PInt p ∧ (0 <= p <= 100)%Z.

(** A status that has all the keys of [status0] and an integer progress
    between 0 and 100. *)
Definition readable (status0 s : gmap string pyval) : Prop :=
  dom status0 ⊆ dom s ∧ ∃ p, s !! "progress" = Some (PInt p) ∧ (0 <= p <= 100)%Z.

(** The other threads are going to make polite updates only; and if the
    updates of this run have been polite, every status so far is
    readable. *)
Definition replay (status0 : gmap string pyval) (j : Job) : Prop :=
  Forall (Forall polite) (others j)
  ∧ (Forall polite (updates j) →
     readable status0 (scraper_status j) ∧ Forall (readable status0) (snapshots j)).

(** ** Schedules of the worker threads *)

(** The threads perform their status updates in the order that
    [schedule] tells: each entry is the index of the thread that performs
    its next update. *)
Definition run_schedule (schedule : list nat) (b : Backend) : Backend :=
  foldl (fun b i => thread_step i b) b schedule.

(** The number of updates that thread [i] performs in [schedule]. *)
Fixpoint steps_of (i : nat) (schedule : list nat) : nat :=
  match schedule with
  | [] => 0
  | k :: rest => (if decide (k = i) then 1 else 0) + steps_of i rest
  end.

(** Thread [i], started with the updates [run], has performed [c] of
    them; the other threads have nothing but updates that leave the job
    running; and once thread [i] has performed an update the status is
    not "Idle". *)
Definition scheduled (i : nat) (run : list (gmap string pyval)) (c : nat) (b : Backend)
    : Prop :=
  threads b !! i = Some (drop c run)
  ∧ length (threads b) = S i
  ∧ (∀ k l, k ≠ i → threads b !! k = Some l → Forall keeps_running l)
  ∧ (1 <= c → not_idle (shared_status b) = true).

(** The updates of a run under way: one that marks the job as running,
    then updates that leave it so. *)
Definition updates_under_way (j : Job) : Prop :=
  ∃ first rest, updates j = first :: rest
                ∧ marks_running first ∧ Forall keeps_running rest.

(** The updates of a run after the final update of the [try] block. *)
Definition updates_closed (j : Job) : Prop :=
  ∃ first rest final, updates j = first :: rest ++ [final]
                      ∧ marks_running first ∧ Forall keeps_running rest
                      ∧ final !! "status" = Some (PStr "Idle").

(** ** The counters of the status *)

(** The counter [key] of the status [s] shows [n], or is still what it
    was in [s0] when [n] is zero. *)
Definition shows (s0 s : gmap string pyval) (key : string) (n : Z) : Prop :=
  s !! key = if (n =? 0)%Z then s0 !! key else Some (PInt n).

(** In a run on its own in which no exception strikes at a status update:
    [i] products have been taken up, the two product counters show the
    lengths of the two lists, which together hold at most [c] products,
    and [total_products] is [t] once it has been written. *)
Definition tally (s0 : gmap string pyval) (t : option Z) (i c : Z) (j : Job) : Prop :=
  others j = [] ∧ calm (faults j)
  ∧ shows s0 (scraper_status j) "products_processed" i
  ∧ shows s0 (scraper_status j) "available_products" (Z.of_nat (length (products j)))
  ∧ shows s0 (scraper_status j) "unavailable_products"
      (Z.of_nat (length (unavailable_products j)))
  ∧ (Z.of_nat (length (products j) + length (unavailable_products j)) <= c)%Z
  ∧ ∀ n, t = Some n → scraper_status j !! "total_products" = Some (PInt n).

(** Any state will do. *)
Definition anywhere (e : abrupt) (j : Job) : Prop := True.

(** ** A small site for concrete runs *)

Module Example.

Definition tag (attributes : list (string * string)) (content : string) : Tag :=
  {| attrs := list_to_map attributes; text := content |}.

(** A parsed page given by the table of its selections. *)
Definition soup_of (table : list (string * list Tag)) : Soup :=
  {| select := fun sel =>
       match find (fun entry => String.eqb (fst entry) sel) table with
       | Some entry => snd entry
       | None => []
       end |}.

Definition shop : JewelryScraperConfig :=
  {| BASE_URL := "https://shop.example"; CATEGORY_URLS := ["/rings"] |}.

(** A product page in stock-out, one without SKU, a listing with two
    links and a next page, a last listing, and a listing with an anchor
    that has no [href]. *)
Definition ring_page : Soup :=
  soup_of [ (".product-title", [tag [] "  Gold Ring "]);
            (".product-sku", [tag [] "GR-1"]);
            (".product-price", [tag [] "$ 120"]);
            (".stock-status", [tag [] " Currently OUT of Stock "]);
            (".product-gallery img",
             [tag [("src", "/img/a.png")] ""; tag [("data-src", "/img/b.png")] ""]) ].

Definition no_sku_page : Soup :=
  soup_of [ (".product-title", [tag [] "Silver Chain"]) ].

Definition listing_page : Soup :=
  soup_of [ (".product-item a.product-link",
             [tag [("href", "/p/1")] "one"; tag [("href", "https://cdn.example/p/2")] "two"]);
            (".pagination a.next", [tag [("href", "/rings?page=2")] "Next"]) ].

Definition last_page : Soup :=
  soup_of [ (".product-item a.product-link", [tag [("href", "/p/3")] "three"]) ].

Definition broken_page : Soup :=
  soup_of [ (".product-item a.product-link",
             [tag [("href", "/p/1")] "one"; tag [("class", "product-link")] "two"]) ].

(** A product page whose title and SKU elements are there but hold
    nothing but white space. *)
Definition blank_page : Soup :=
  soup_of [ (".product-title", [tag [] "   "]);
            (".product-sku", [tag [] ""]);
            (".product-price", [tag [] "$ 5"]) ].

(** The parser on the bodies of the example site.  A body of the form
    [NEXT url] is a page whose only content is a next-page anchor to
    [url]. *)
Definition parser (html : string) : Soup :=
  match html with
  | String "N" (String "E" (String "X" (String "T" (String " " target)))) =>
      soup_of [ (".pagination a.next", [tag [("href", target)] "Next"]) ]
  | "ring" => ring_page
  | "no sku" => no_sku_page
  | "listing" => listing_page
  | "last" => last_page
  | "broken" => broken_page
  | "blank" => blank_page
  | _ => soup_of []
  end.

(** A site whose every page links to a further page, never seen before. *)
Definition endless_site (n : nat) (url : string) : response :=
  Ok ("NEXT " +:+ url +:+ "/x").

(** A site whose every page links back to itself. *)
Definition looping_site (n : nat) (url : string) : response :=
  if PyStr.startswith url "http" then Ok ("NEXT " +:+ url) else RequestException.

(** A site that serves the first listing page, answers the first request
    for the second one with an error and then stays down. *)
Definition flaky_site (n : nat) (url : string) : response :=
  match n with
  | O => if String.eqb url "https://shop.example/rings" then Ok "listing"
         else RequestException
  | _ => RequestException
  end.

(** A site that is down. *)
Definition dead_site (n : nat) (url : string) : response := RequestException.

(** A site that answers every third request. *)
Definition slow_site (n : nat) (url : string) : response :=
  if n mod 3 =? 2 then Ok "ring" else RequestException.

(** A site with one category of two listing pages and three products. *)
Definition full_site (n : nat) (url : string) : response :=
  if String.eqb url "https://shop.example/rings" then Ok "listing"
  else if String.eqb url "https://shop.example/rings?page=2" then Ok "last"
  else Ok "ring".

Definition job_config : JobConfig :=
  {| base_url := Some "https://shop.example"; user_agent := Some "Mozilla/5.0";
     request_delay := Some 2%Q; max_retries := Some 3; categories := Some ["/rings"] |}.

(** A run of the worker on that site, with a clock that advances by one
    second per request and a feed writer that succeeds; no exception
    strikes and no other thread writes the status. *)
Definition sample_run : outcome * Job :=
  scraper_thread parser full_site (fun _ _ => "2024-01-01 00:00:00")
    (fun w => Z.of_nat (requests w)) (fun _ _ => true) 10
    job_config 0 (new_job initial_scraper_status initial_world [] []).

End Example.

(** ** More string methods ([replace], [split]) *)

Module PyStrExt.

(** Inner loop of [s.replace(old, new)] for a non-empty [old]: [skip]
    counts the characters of a match that are still to be dropped. *)
Fixpoint replace_go (old new : string) (skip : nat) (s : string) : string :=
  match s with
  | EmptyString => EmptyString
  | String c t =>
      match skip with
      | S k => replace_go old new k t
      | O =>
          if String.prefix old s
          then new +:+ replace_go old new (String.length old - 1) t
          else String c (replace_go old new 0 t)
      end
  end.

(** [new] before, between and after the characters of [s]: what
    [s.replace("", new)] gives. *)
Fixpoint interleave (new s : string) : string :=
  match s with
  | EmptyString => new
  | String c t => new +:+ String c (interleave new t)
  end.

(** [s.replace(old, new)]: every occurrence, found left to right without
    overlap. *)
Definition replace (old new s : string) : string :=
  match old with
  | EmptyString => interleave new s
  | String _ _ => replace_go old new 0 s
  end.

(** Inner loop of [s.split()]: [cur] is the word read so far. *)
Fixpoint split_go (cur s : string) : list string :=
  match s with
  | EmptyString => if PyStr.truthy cur then [cur] else []
  | String c t =>
      if PyStr.isspace c
      then (if PyStr.truthy cur then cur :: split_go EmptyString t
            else split_go EmptyString t)
      else split_go (cur +:+ String c EmptyString) t
  end.

(** [s.split()]: the maximal runs of characters other than white space. *)
Definition split (s : string) : list string := split_go EmptyString s.

(** The longest prefix of [s] without white space. *)
Fixpoint word (s : string) : string :=
  match s with
  | EmptyString => EmptyString
  | String c t => if PyStr.isspace c then EmptyString else String c (word t)
  end.

(** No character of [s] is white space. *)
Fixpoint no_space (s : string) : bool :=
  match s with
  | EmptyString => true
  | String c t => negb (PyStr.isspace c) && no_space t
  end.

End PyStrExt.

(** [s] is what [strip] leaves: empty, or beginning and ending with a
    character other than white space. *)
Definition stripped (s : string) : Prop :=
  s = "" ∨ (first_nonspace s = true ∧ last_nonspace s = true).

(** ** The feed mapper ([map_to_amazon_feed]) *)

Definition AMAZON_FEED_COLUMNS : list string :=
  [ "sku"; "product-id"; "product-id-type"; "title"; "product-type";
    "brand"; "description"; "bullet-point1"; "bullet-point2"; "bullet-point3";
    "bullet-point4"; "bullet-point5"; "main-image-url"; "other-image-url1";
    "other-image-url2"; "other-image-url3"; "other-image-url4";
    "swatch-image-url"; "parent-child"; "parent-sku"; "relationship-type";
    "variation-theme"; "size"; "color"; "material-type"; "style";
    "item-price"; "quantity"; "merchant-shipping-group-name";
    "max-aggregate-ship-quantity"; "condition-type"; "sale-price";
    "item-weight"; "item-weight-unit-of-measure"; "item-dimension-unit";
    "item-length"; "item-width"; "item-height"; "fulfillment-center-id" ].

(** Result of code whose only exception is the [IndexError] of [l[0]] on
    an empty list. *)
Inductive indexed (A : Type) : Type :=
| Got (a : A)
| IndexError.
Arguments Got {A} a.
Arguments IndexError {A}.

Global Instance indexed_ret : MRet indexed := fun A a => Got a.

Global Instance indexed_bind : MBind indexed := fun A B k r =>
  match r with
  | Got a => k a
  | IndexError => IndexError
  end.

(** [l[0]] *)
Definition first_item {A} (l : list A) : indexed A :=
  match l with
  | x :: _ => Got x
  | [] => IndexError
  end.

(** [l[k] if len(l) > k else ""] *)
Definition item_or_empty (l : list string) (k : nat) : string :=
  match l !! k with
  | Some x => x
  | None => ""
  end.

(** The mis-decoded euro sign of the source, [replace('â‚¬', '')], as the
    bytes of its UTF-8 encoding. *)
Definition euro_mojibake : string :=
  String "195" (String "162" (String "226" (String "128" (String "154"
    (String "194" (String "172" EmptyString)))))).

(** ['item-price'] *)
Definition item_price (product : Product) : string :=
  PyStr.strip (PyStrExt.replace "$" "" (PyStrExt.replace euro_mojibake "" (price product))).

(** ['item-weight']: [product['weight'].split()[0] if product['weight'] else ""] *)
Definition item_weight (product : Product) : indexed string :=
  if PyStr.truthy (weight product) then first_item (PyStrExt.split (weight product))
  else Got "".

(** ['quantity'] *)
Definition quantity (product : Product) : string :=
  if negb (String.eqb (stock_status product) "Available") then "0" else "10".

(** The dictionary [amazon_item] built for one product, as the list of
    its entries in source order. *)
Definition amazon_item_entries (product : Product) (item_weight : string)
    : list (string * string) :=
  [ ("sku", sku product);
    ("product-id", sku product);
    ("product-id-type", "1");
    ("title", title product);
    ("product-type", "jewelry");
    ("brand", "Your Brand");
    ("description", description product);
    ("bullet-point1", "Material: " +:+ materials product);
    ("bullet-point2", "Dimensions: " +:+ dimensions product);
    ("bullet-point3", "Weight: " +:+ weight product);
    ("bullet-point4", "");
    ("bullet-point5", "");
    ("main-image-url", main_image product);
    ("other-image-url1", item_or_empty (other_images product) 0);
    ("other-image-url2", item_or_empty (other_images product) 1);
    ("other-image-url3", item_or_empty (other_images product) 2);
    ("other-image-url4", item_or_empty (other_images product) 3);
    ("item-price", item_price product);
    ("quantity", quantity product);
    ("condition-type", "New");
    ("item-weight", item_weight);
    ("item-weight-unit-of-measure", "GR");
    ("material-type", materials product) ].

Definition amazon_item (product : Product) : indexed (gmap string string) :=
  w ← item_weight product;
  Got (list_to_map (amazon_item_entries product w)).

(** The loop of [map_to_amazon_feed]: the first product that raises ends
    it. *)
Fixpoint amazon_data (products : list Product) : indexed (list (gmap string string)) :=
  match products with
  | [] => Got []
  | product :: rest =>
      item ← amazon_item product;
      items ← amazon_data rest;
      Got (item :: items)
  end.

(** [pd.DataFrame(rows, columns=columns)]: one row per dictionary, one
    cell per column, [None] where the dictionary has no such key (the
    cell pandas leaves empty). *)
Definition DataFrame (rows : list (gmap string string)) (columns : list string)
    : list (list (option string)) :=
  (fun row => (fun column => row !! column) <$> columns) <$> rows.

(** [map_to_amazon_feed(self, products)] *)
Definition map_to_amazon_feed (products : list Product)
    : indexed (list (list (option string))) :=
  rows ← amazon_data products;
  Got (DataFrame rows AMAZON_FEED_COLUMNS).

(** ** The stand-alone scraper run ([scrape_all_products]) *)

Section ScrapeAllProducts.

Variable config : JewelryScraperConfig.
Variable BeautifulSoup : string -> Soup.
Variable server : nat -> string -> response.
Variable strftime : World -> string -> string.
Variable fuel : nat.

(** The first loop: [for category_url in self.config.CATEGORY_URLS].  An
    exception of a crawl is not caught here. *)
Fixpoint scrape_categories (category_urls : list string) (all_product_links : list string)
    (w : World) : option (result (list string) * World) :=
  match category_urls with
  | [] => Some (Return all_product_links, w)
  | category_url :: rest =>
      match scrape_category config BeautifulSoup server fuel category_url w with
      | Some (Return category_links, w1) =>
          scrape_categories rest (all_product_links ++ category_links) w1
      | Some (Raise e, w1) => Some (Raise e, w1)
      | None => None
      end
  end.

(** The second loop: [for i, link in enumerate(unique_links)], on the two
    lists [self.products] and [self.unavailable_products].  Nothing is
    caught here either. *)
Fixpoint process_links (i : nat) (links : list string)
    (products unavailable_products : list Product) (w : World)
    : result (list Product * list Product) * World :=
  match links with
  | [] => (Return (products, unavailable_products), w)
  | link :: rest =>
      match get_page server link 3 2%Q w with
      | (Raise e, w1) => (Raise e, w1)
      | (Return html, w1) =>
      let (products, unavailable_products) :=
        match html with
        | Some html =>
            if PyStr.truthy html then
              match parse_product_page BeautifulSoup html link
                      (strftime w1 "%Y-%m-%d %H:%M:%S") with
              | Some product =>
                  if is_unavailable product
                  then (products, unavailable_products ++ [product])
                  else (products ++ [product], unavailable_products)
              | None => (products, unavailable_products)
              end
            else (products, unavailable_products)
        | None => (products, unavailable_products)
        end in
      let w2 := sleep (if i mod 10 =? 0 then 2 else 1 # 2) w1 in
      process_links (S i) rest products unavailable_products w2
      end
  end.

(** [scrape_all_products(self)] *)
Definition scrape_all_products (products unavailable_products : list Product) (w : World)
    : option (result (list Product * list Product) * World) :=
  match scrape_categories (CATEGORY_URLS config) [] w with
  | Some (Return all_product_links, w1) =>
      let unique_links := elements (list_to_set all_product_links : gset string) in
      Some (process_links 0 unique_links products unavailable_products w1)
  | Some (Raise e, w1) => Some (Raise e, w1)
  | None => None
  end.

End ScrapeAllProducts.

(** ** The product browser ([get_products]) *)

(** [l[a:b]] for ints [a] and [b]: a negative index counts from the end,
    and indices beyond either end are clamped. *)
Definition py_slice {A} (a b : Z) (l : list A) : list A :=
  let n := Z.of_nat (length l) in
  let clamp i := if (i <? 0)%Z then Z.max (i + n) 0 else Z.min i n in
  let lo := clamp a in
  let hi := clamp b in
  take (Z.to_nat (hi - lo)) (drop (Z.to_nat lo) l).

(** The spreadsheet that the endpoint reads. *)
Inductive xlsx (A : Type) : Type :=
| Missing                   (* [os.path.exists(file_path)] is false *)
| Unreadable                (* [pd.read_excel] raises *)
| Sheet (rows : list A).
Arguments Missing {A}.
Arguments Unreadable {A}.
Arguments Sheet {A} rows.

Inductive products_answer (A : Type) : Type :=
| NoData404
| Error500
| Page200 (data : list A) (page per_page total_records total_pages : Z).
Arguments NoData404 {A}.
Arguments Error500 {A}.
Arguments Page200 {A} data page per_page total_records total_pages.

(** [get_products()], for the file chosen by [status] and the request
    arguments [page] and [per_page] after their conversion by [int].  A
    zero [per_page] makes [//] raise [ZeroDivisionError], which the
    handler answers with status 500. *)
Definition get_products {A} (file : xlsx A) (page per_page : Z) : products_answer A :=
  match file with
  | Missing => NoData404
  | Unreadable => Error500
  | Sheet df =>
      let total_records := Z.of_nat (length df) in
      if (per_page =? 0)%Z then Error500
      else
        let total_pages := ((total_records + per_page - 1) / per_page)%Z in
        let start_idx := ((page - 1) * per_page)%Z in
        let end_idx := Z.min (start_idx + per_page) total_records in
        let page_data := py_slice start_idx end_idx df in
        Page200 page_data page per_page total_records total_pages
  end.

(** The rows of an answer (none for an error). *)
Definition page_rows {A} (answer : products_answer A) : list A :=
  match answer with
  | Page200 data _ _ _ _ => data
  | _ => []
  end.

(** ** The elapsed-time format, tabulated *)

(** The two-digit fields for the numbers below [bound]: two characters
    each, all different. *)
Definition pad2_table_ok (bound : nat) : bool :=
  forallb (fun a =>
    Nat.eqb (String.length (pad2 (Z.of_nat a))) 2
    && forallb (fun b =>
         implb (String.eqb (pad2 (Z.of_nat a)) (pad2 (Z.of_nat b))) (Nat.eqb a b))
         (seq 0 bound))
    (seq 0 bound).

(** ** More sites for concrete runs *)

Module MoreExamples.

(** A site whose second listing page has an anchor without [href]. *)
Definition broken_site (n : nat) (url : string) : response :=
  if String.eqb url "https://shop.example/rings" then Ok "listing"
  else Ok "broken".

(** A site that answers the request for the second listing page with an
    empty body. *)
Definition empty_body_site (n : nat) (url : string) : response :=
  if String.eqb url "https://shop.example/rings" then Ok "listing"
  else Ok "".

(** The world after the first listing page has been crawled. *)
Definition after_first_page : World :=
  sleep 1%Q {| requests := 1; events := [Request "https://shop.example/rings"] |}.

(** The product extracted from the example product page, and its row
    dictionary in the feed. *)
Definition ring_product : Product :=
  {| sku := "GR-1"; title := "Gold Ring"; price := "$ 120";
     stock_status := "Out of Stock"; description := "";
     materials := ""; dimensions := ""; weight := "";
     main_image := "/img/a.png"; other_images := ["/img/b.png"];
     url := "u"; last_updated := "t" |}.

Definition ring_item : gmap string string :=
  list_to_map (amazon_item_entries ring_product "").

(** A stand-alone run of the scraper on the example site, started with
    empty product lists. *)
Definition shop_run : option (result (list Product * list Product) * World) :=
  scrape_all_products Example.shop Example.parser Example.full_site
    (fun _ _ => "2024-01-01 00:00:00") 10 [] [] initial_world.

(** The two product lists of a run that returned. *)
Definition run_lists (r : option (result (list Product * list Product) * World))
    : list Product * list Product :=
  match r with
  | Some (Return lists, _) => lists
  | _ => ([], [])
  end.

(** The world in which a run ended. *)
Definition run_world (r : option (result (list Product * list Product) * World)) : World :=
  match r with
  | Some (_, w) => w
  | None => initial_world
  end.

End MoreExamples.

(** ** Runs of the worker with exceptions and with other writers *)

Module WorkerExamples.

(** A listing page with seven links and no next page. *)
Definition seven_page : Soup :=
  Example.soup_of
    [ (".product-item a.product-link",
       [ Example.tag [("href", "/p/1")] "one"; Example.tag [("href", "/p/2")] "two";
         Example.tag [("href", "/p/3")] "three"; Example.tag [("href", "/p/4")] "four";
         Example.tag [("href", "/p/5")] "five"; Example.tag [("href", "/p/6")] "six";
         Example.tag [("href", "/p/7")] "seven" ]) ].

Definition seven_parser (html : string) : Soup :=
  if String.eqb html "seven" then seven_page else Example.parser html.

(** A site whose seven categories all list the same seven products. *)
Definition seven_site (n : nat) (url : string) : response :=
  if PyStr.startswith url "https://shop.example/c" then Ok "seven" else Ok "ring".

Definition seven_config : JobConfig :=
  {| base_url := Some "https://shop.example"; user_agent := Some "Mozilla/5.0";
     request_delay := Some 2%Q; max_retries := Some 3;
     categories := Some ["/c1"; "/c2"; "/c3"; "/c4"; "/c5"; "/c6"; "/c7"] |}.

(** A run over seven categories and seven unique links; no exception
    strikes and no other thread writes the status. *)
Definition seven_run : outcome * Job :=
  scraper_thread seven_parser seven_site (fun _ _ => "2024-01-01 00:00:00")
    (fun w => Z.of_nat (requests w)) (fun _ _ => true) 10
    seven_config 0 (new_job initial_scraper_status initial_world [] []).

(** The run of [Example.sample_run] with exceptions striking as [faults]
    says and the other threads writing as [others] says. *)
Definition run_with (faults : list bool) (others : list (list (gmap string pyval)))
    : outcome * Job :=
  scraper_thread Example.parser Example.full_site (fun _ _ => "2024-01-01 00:00:00")
    (fun w => Z.of_nat (requests w)) (fun _ _ => true) 10
    Example.job_config 0 (new_job initial_scraper_status initial_world faults others).

(** The first update of a second worker. *)
Definition first_update : gmap string pyval :=
  list_to_map [ ("status", PStr "Running");
                ("start_time", PStr "2024-01-01 00:00:00");
                ("job_id", PStr "job-2024010100-1"); ("progress", PInt 0);
                ("feed_status", PStr "Processing") ].

(** What successive status reads show: the status and the progress of
    each snapshot. *)
Definition reads (run : outcome * Job) : list (pyval * Z) :=
  (fun s => (status_get s "status", progress_of s)) <$> snapshots run.2.

(** A backend with status "Idle" in which a thread is still alive that
    has one update to perform, which does not touch the status. *)
Definition lingering_backend : Backend :=
  {| shared_status := initial_scraper_status;
     threads := [ [ {[ "time_elapsed" := PStr "0:00:01" ]} ] ] |}.

End WorkerExamples.

(** * Properties *)

(** ** Strings *)

Module PyStrFacts.
Import PyStr.

Lemma app_cons c (a b : string) : String c a +:+ b = String c (a +:+ b).
Proof. reflexivity. Qed.

Lemma app_empty_l (a : string) : "" +:+ a = a.
Proof. reflexivity. Qed.

Lemma app_empty_r (a : string) : a +:+ "" = a.
Proof. induction a as [|c a IH]; [reflexivity|]. rewrite app_cons, IH. reflexivity. Qed.

Lemma app_assoc (a b c : string) : (a +:+ b) +:+ c = a +:+ b +:+ c.
Proof.
  induction a as [|x a IH]; [reflexivity|]. rewrite !app_cons, IH. reflexivity.
Qed.

Lemma prefix_spec (p s : string) :
  String.prefix p s = true ↔ ∃ post, s = p +:+ post.
Proof.
  revert s. induction p as [|c p IH]; intros s.
  - split; [intros _; exists s; reflexivity | intros _; destruct s; reflexivity].
  - destruct s as [|d s]; simpl.
    + split; [discriminate | intros [post H]; discriminate].
    + destruct (ascii_dec c d) as [->|Hne].
      * rewrite IH. split; intros [post H]; exists post.
        -- rewrite app_cons. congruence.
        -- rewrite app_cons in H. congruence.
      * split; [discriminate|]. intros [post H]. rewrite app_cons in H. congruence.
Qed.

Lemma contains_eq (needle s : string) :
  contains needle s =
  String.prefix needle s ||
  match s with EmptyString => false | String _ t => contains needle t end.
Proof. destruct s; reflexivity. Qed.

Lemma contains_spec (needle s : string) :
  contains needle s = true ↔ ∃ pre post, s = pre +:+ needle +:+ post.
Proof.
  induction s as [|c s IH]; rewrite contains_eq, orb_true_iff, prefix_spec.
  - split.
    + intros [[post H]|H]; [|discriminate]. exists "", post. exact H.
    + intros (pre & post & H). left. destruct pre; [|discriminate].
      exists post. exact H.
  - rewrite IH. split.
    + intros [[post H]|(pre & post & H)].
      * exists "", post. exact H.
      * exists (String c pre), post. rewrite app_cons. congruence.
    + intros (pre & post & H). destruct pre as [|d pre].
      * left. exists post. exact H.
      * right. exists pre, post. rewrite app_cons in H. congruence.
Qed.

Lemma lower_app (a b : string) : lower (a +:+ b) = lower a +:+ lower b.
Proof.
  induction a as [|c a IH]; [reflexivity|].
  rewrite app_cons. simpl. rewrite IH. reflexivity.
Qed.

(** A split of [lower s] comes from a split of [s]. *)
Lemma lower_app_inv (s x y : string) :
  lower s = x +:+ y → ∃ a b, s = a +:+ b ∧ lower a = x ∧ lower b = y.
Proof.
  revert s. induction x as [|c x IH]; intros s H.
  - exists "", s. auto.
  - destruct s as [|d s]; [discriminate|].
    rewrite app_cons in H. simpl in H. injection H as Hc H.
    destruct (IH _ H) as (a & b & -> & Ha & Hb).
    exists (String d a), b. rewrite app_cons. simpl. rewrite Hc, Ha. auto.
Qed.

Lemma isspace_lower_char c : isspace (lower_char c) = isspace c.
Proof.
  destruct c as [[] [] [] [] [] [] [] []]; reflexivity.
Qed.

Lemma lower_idempotent s : lower (lower s) = lower s.
Proof.
  induction s as [|c s IH]; [reflexivity|]. simpl. rewrite IH. f_equal.
  destruct c as [[] [] [] [] [] [] [] []]; reflexivity.
Qed.

Lemma first_nonspace_lower s : first_nonspace (lower s) = first_nonspace s.
Proof. destruct s; [reflexivity|]. simpl. rewrite isspace_lower_char. reflexivity. Qed.

Lemma last_nonspace_lower s : last_nonspace (lower s) = last_nonspace s.
Proof.
  induction s as [|c s IH]; [reflexivity|].
  destruct s as [|d s]; simpl in *.
  - rewrite isspace_lower_char. reflexivity.
  - exact IH.
Qed.

Lemma lstrip_spec s : ∃ ws, s = ws +:+ lstrip s.
Proof.
  induction s as [|c s [ws IH]]; [exists ""; reflexivity|]. simpl.
  destruct (isspace c).
  - exists (String c ws). rewrite app_cons. congruence.
  - exists "". reflexivity.
Qed.

Lemma rstrip_spec s : ∃ ws, s = rstrip s +:+ ws.
Proof.
  induction s as [|c s [ws IH]]; [exists ""; reflexivity|]. simpl.
  destruct (rstrip s) as [|d r].
  - destruct (isspace c).
    + exists (String c s). reflexivity.
    + exists ws. rewrite app_cons. congruence.
  - exists ws. rewrite app_cons. congruence.
Qed.

Lemma lstrip_keeps (a m b : string) :
  first_nonspace m = true → ∃ a', lstrip (a +:+ m +:+ b) = a' +:+ m +:+ b.
Proof.
  intros Hm. induction a as [|c a IH].
  - exists "". rewrite !app_empty_l. destruct m as [|d m]; [discriminate|].
    rewrite app_cons. simpl in *. destruct (isspace d); [discriminate|reflexivity].
  - rewrite app_cons. simpl. destruct (isspace c); [exact IH|].
    exists (String c a). reflexivity.
Qed.

Lemma rstrip_app (u b : string) :
  last_nonspace u = true → rstrip (u +:+ b) = u +:+ rstrip b.
Proof.
  induction u as [|c u IH]; [discriminate|]. intros Hu.
  rewrite !app_cons. simpl. destruct u as [|d u].
  - rewrite !app_empty_l. simpl in Hu.
    destruct (rstrip b); [|reflexivity].
    destruct (isspace c); [discriminate|reflexivity].
  - rewrite IH by exact Hu. rewrite app_cons. reflexivity.
Qed.

Lemma last_nonspace_app (a m : string) :
  last_nonspace m = true → last_nonspace (a +:+ m) = true.
Proof.
  intros Hm. induction a as [|c a IH]; [exact Hm|].
  rewrite app_cons. simpl. destruct (a +:+ m) eqn:E; [|exact IH].
  destruct a; [|discriminate]. rewrite app_empty_l in E. subst m. discriminate.
Qed.

(** Stripping neither creates nor destroys an occurrence of a word that
    begins and ends with a character other than white space. *)
Lemma strip_substring (m t : string) :
  first_nonspace m = true → last_nonspace m = true →
  (∃ a b, strip t = a +:+ m +:+ b) ↔ (∃ a b, t = a +:+ m +:+ b).
Proof.
  intros Hf Hl. unfold strip. split.
  - intros (a & b & H).
    destruct (lstrip_spec t) as [ws1 H1].
    destruct (rstrip_spec (lstrip t)) as [ws2 H2].
    exists (ws1 +:+ a), (b +:+ ws2).
    rewrite H1 at 1. rewrite H2 at 1. rewrite H. rewrite !app_assoc. reflexivity.
  - intros (a & b & ->).
    destruct (lstrip_keeps a m b Hf) as [a' ->].
    exists a', (rstrip b).
    rewrite <- !app_assoc. rewrite rstrip_app; [reflexivity|].
    apply last_nonspace_app, Hl.
Qed.

(** The test performed by the code, [needle in text.strip().lower()],
    is the case-insensitive substring test of the specification. *)
Lemma contains_lower_strip (needle t : string) :
  lower needle = needle → first_nonspace needle = true → last_nonspace needle = true →
  contains needle (lower (strip t)) = true ↔ ci_substring needle t.
Proof.
  intros Hlow Hf Hl. rewrite contains_spec. unfold ci_substring. split.
  - intros (pre & post & H).
    apply lower_app_inv in H as (a & r & Hs & Ha & Hr).
    apply lower_app_inv in Hr as (m & b & -> & Hm & Hb).
    assert (Hfm : first_nonspace m = true)
      by (rewrite <- first_nonspace_lower, Hm; exact Hf).
    assert (Hlm : last_nonspace m = true)
      by (rewrite <- last_nonspace_lower, Hm; exact Hl).
    destruct (proj1 (strip_substring m t Hfm Hlm)) as (a' & b' & Ht); [eauto|].
    exists a', m, b'. rewrite Hlow. auto.
  - intros (pre & mid & post & Ht & Hmid). rewrite Hlow in Hmid.
    assert (Hfm : first_nonspace mid = true)
      by (rewrite <- first_nonspace_lower, Hmid; exact Hf).
    assert (Hlm : last_nonspace mid = true)
      by (rewrite <- last_nonspace_lower, Hmid; exact Hl).
    destruct (proj2 (strip_substring mid t Hfm Hlm)) as (a & b & Hs); [eauto|].
    exists (lower a), (lower b). rewrite Hs, !lower_app, Hmid. reflexivity.
Qed.

Lemma contains_lower_strip_false (needle t : string) :
  lower needle = needle → first_nonspace needle = true → last_nonspace needle = true →
  contains needle (lower (strip t)) = false ↔ ¬ ci_substring needle t.
Proof.
  intros Hlow Hf Hl. rewrite <- (contains_lower_strip needle t Hlow Hf Hl).
  destruct (contains needle (lower (strip t))); split; congruence.
Qed.

End PyStrFacts.

(** ** Product extraction *)

Section ProductFacts.

Variable BeautifulSoup : string -> Soup.

Local Ltac needle_facts := reflexivity.

(** The status computed from a stock element is one of the four names,
    chosen by the rule of the specification. *)
Lemma extract_stock_status_spec (elem : Tag) :
  ∃ st, extract_stock_status (Some elem) = status_name st
        ∧ spec_stock_status (text elem) st.
Proof.
  unfold extract_stock_status, spec_stock_status.
  set (t := PyStr.lower (PyStr.strip (text elem))).
  destruct (PyStr.contains "out of stock" t) eqn:E1.
  { exists OutOfStock. split; [reflexivity|]. left. split; [|reflexivity].
    apply PyStrFacts.contains_lower_strip in E1; [exact E1|needle_facts..]. }
  apply PyStrFacts.contains_lower_strip_false in E1; [|needle_facts..].
  destruct (PyStr.contains "production" t) eqn:E2;
    [|destruct (PyStr.contains "manufacturing" t) eqn:E3].
  - exists InProduction. split; [reflexivity|]. right; left.
    apply PyStrFacts.contains_lower_strip in E2; [|needle_facts..]. tauto.
  - exists InProduction. split; [reflexivity|]. right; left.
    apply PyStrFacts.contains_lower_strip in E3; [|needle_facts..]. tauto.
  - apply PyStrFacts.contains_lower_strip_false in E2; [|needle_facts..].
    apply PyStrFacts.contains_lower_strip_false in E3; [|needle_facts..].
    destruct (PyStr.contains "discontinued" t) eqn:E4;
      [|destruct (PyStr.contains "removed" t) eqn:E5].
    + exists Removed. split; [reflexivity|]. right; right; left.
      apply PyStrFacts.contains_lower_strip in E4; [|needle_facts..]. tauto.
    + exists Removed. split; [reflexivity|]. right; right; left.
      apply PyStrFacts.contains_lower_strip in E5; [|needle_facts..]. tauto.
    + apply PyStrFacts.contains_lower_strip_false in E4; [|needle_facts..].
      apply PyStrFacts.contains_lower_strip_false in E5; [|needle_facts..].
      exists Available. split; [reflexivity|]. right; right; right. tauto.
Qed.

(** The stock status of a parsed product is the one extracted from the
    first stock-status element of the page. *)
Lemma parse_product_page_stock_status (html product_url now : string) (product : Product) :
  parse_product_page BeautifulSoup html product_url now = Some product →
  stock_status product =
  extract_stock_status (select_one (BeautifulSoup html) (SELECTORS "product_stock")).
Proof.
  unfold parse_product_page.
  destruct (select_one _ (SELECTORS "product_title")); [|discriminate].
  destruct (select_one _ (SELECTORS "product_sku")); [|discriminate].
  intros [= <-]. reflexivity.
Qed.

Lemma stock_status_of_page (html : string) :
  ∃ st,
    extract_stock_status (select_one (BeautifulSoup html) (SELECTORS "product_stock"))
    = status_name st
    ∧ match select_one (BeautifulSoup html) (SELECTORS "product_stock") with
      | Some stock_elem => spec_stock_status (text stock_elem) st
      | None => st = Available
      end.
Proof.
  destruct (select_one _ (SELECTORS "product_stock")) as [elem|].
  - apply extract_stock_status_spec.
  - exists Available. split; reflexivity.
Qed.

(** C1. For every page body the stock status is fixed by
    case-insensitive substring tests on the text of the stock-status
    element, in this order: "out of stock" gives Out of Stock; else
    "production" or "manufacturing" gives In Production; else
    "discontinued" or "removed" gives Removed; else Available.  When the
    page has no stock-status element the status is Available.  This is the
    status of every product extracted from the body. *)
Theorem stock_status_by_case_insensitive_match (html : string) :
  ∃ st,
    extract_stock_status (select_one (BeautifulSoup html) (SELECTORS "product_stock"))
    = status_name st
    ∧ match select_one (BeautifulSoup html) (SELECTORS "product_stock") with
      | Some stock_elem => spec_stock_status (text stock_elem) st
      | None => st = Available
      end
    ∧ ∀ product_url now product,
        parse_product_page BeautifulSoup html product_url now = Some product →
        stock_status product = status_name st.
Proof.
  destruct (stock_status_of_page html) as (st & Hname & Hspec).
  exists st. split; [exact Hname|]. split; [exact Hspec|].
  intros product_url now product H.
  rewrite (parse_product_page_stock_status _ _ _ _ H). exact Hname.
Qed.

(** Routing: a product goes to the unavailable list exactly when its
    status is not "Available". *)
Lemma is_unavailable_iff (html product_url now : string) (product : Product) :
  parse_product_page BeautifulSoup html product_url now = Some product →
  is_unavailable product = true ↔ stock_status product ≠ "Available".
Proof.
  intros H. destruct (stock_status_of_page html) as (st & Hname & _).
  rewrite (parse_product_page_stock_status _ _ _ _ H), Hname.
  unfold is_unavailable.
  rewrite (parse_product_page_stock_status _ _ _ _ H), Hname.
  destruct st; simpl; split; intros Hx; try reflexivity; try discriminate; congruence.
Qed.

(** C8 (as amended). Product extraction returns none whenever the title
    element or the SKU element is absent, and every product it returns
    takes its title and its SKU from elements that are present on the
    page: each is the stripped text of its element, which is empty when
    the element holds nothing but white space. *)
Theorem parse_product_page_requires_title_and_sku (html product_url now : string) :
  let soup := BeautifulSoup html in
  (select_one soup (SELECTORS "product_title") = None
   ∨ select_one soup (SELECTORS "product_sku") = None →
   parse_product_page BeautifulSoup html product_url now = None)
  ∧ (∀ product,
       parse_product_page BeautifulSoup html product_url now = Some product →
       ∃ title_elem sku_elem,
         select_one soup (SELECTORS "product_title") = Some title_elem
         ∧ select_one soup (SELECTORS "product_sku") = Some sku_elem
         ∧ title product = PyStr.strip (text title_elem)
         ∧ sku product = PyStr.strip (text sku_elem)).
Proof.
  intros soup. unfold parse_product_page. fold soup.
  destruct (select_one soup (SELECTORS "product_title")) as [title_elem|];
    destruct (select_one soup (SELECTORS "product_sku")) as [sku_elem|];
    split; try reflexivity; try discriminate; try (intros [?|?]; discriminate).
  intros product [= <-]. exists title_elem, sku_elem. auto.
Qed.

End ProductFacts.

(** A page with the text " Currently OUT of Stock " yields a product with
    status "Out of Stock". *)
Lemma stock_status_by_case_insensitive_match_witness :
  ∃ st, "Out of Stock" = status_name st
        ∧ spec_stock_status " Currently OUT of Stock " st.
Proof.
  destruct (stock_status_by_case_insensitive_match Example.parser "ring")
    as (st & Hname & Hspec & Hproduct).
  exists st. split; [|exact Hspec].
  exact (Hproduct "https://shop.example/p/1" "2024-01-01 00:00:00"
           {| sku := "GR-1"; title := "Gold Ring"; price := "$ 120";
              stock_status := "Out of Stock"; description := "";
              materials := ""; dimensions := ""; weight := "";
              main_image := "/img/a.png"; other_images := ["/img/b.png"];
              url := "https://shop.example/p/1";
              last_updated := "2024-01-01 00:00:00" |} eq_refl).
Defined.

(** The page without SKU is skipped, the complete one is parsed. *)
Lemma parse_product_page_requires_title_and_sku_witness :
  parse_product_page Example.parser "no sku" "u" "t" = None
  ∧ ∃ title_elem sku_elem,
      select_one (Example.parser "ring") (SELECTORS "product_title") = Some title_elem
      ∧ select_one (Example.parser "ring") (SELECTORS "product_sku") = Some sku_elem
      ∧ "Gold Ring" = PyStr.strip (text title_elem)
      ∧ "GR-1" = PyStr.strip (text sku_elem).
Proof.
  split.
  - apply (proj1 (parse_product_page_requires_title_and_sku Example.parser "no sku" "u" "t")).
    right. reflexivity.
  - apply (proj2 (parse_product_page_requires_title_and_sku Example.parser "ring" "u" "t")
             {| sku := "GR-1"; title := "Gold Ring"; price := "$ 120";
                stock_status := "Out of Stock"; description := "";
                materials := ""; dimensions := ""; weight := "";
                main_image := "/img/a.png"; other_images := ["/img/b.png"];
                url := "u"; last_updated := "t" |}).
    reflexivity.
Defined.

(** C8, the claim as worded fails: a page whose title and SKU elements
    are blank yields a product, with an empty title and an empty SKU. *)
Lemma parse_product_page_blank_title_and_sku :
  ∃ product,
    parse_product_page Example.parser "blank" "https://shop.example/p/9" "t" = Some product
    ∧ title product = "" ∧ sku product = "".
Proof. eexists. split; [reflexivity|]. split; reflexivity. Qed.


(** ** Link and pagination extraction *)

Section LinkFacts.

Variable config : JewelryScraperConfig.
Variable BeautifulSoup : string -> Soup.

Lemma product_link_href (elem : Tag) (href : string) :
  tag_get elem "href" = Some href →
  product_link config elem =
  Return (if PyStr.startswith href "http" then href else BASE_URL config +:+ href).
Proof.
  unfold product_link, tag_getitem, tag_get. intros ->. reflexivity.
Qed.

Lemma product_link_no_href (elem : Tag) :
  tag_get elem "href" = None → product_link config elem = Raise (KeyError "href").
Proof.
  unfold product_link, tag_getitem, tag_get. intros ->. reflexivity.
Qed.

Lemma comprehension_all_href (elems : list Tag) :
  Forall has_href elems →
  ∃ links, comprehension (product_link config) elems = Return links
           ∧ length links = length elems.
Proof.
  induction 1 as [|elem elems [href Hhref] _ (links & IH & Hlen)].
  - exists []. split; reflexivity.
  - eexists (_ :: links). simpl. rewrite (product_link_href _ _ Hhref), IH.
    split; [reflexivity|]. simpl. rewrite Hlen. reflexivity.
Qed.

Lemma comprehension_missing_href (elems : list Tag) :
  ¬ Forall has_href elems →
  comprehension (product_link config) elems = Raise (KeyError "href").
Proof.
  induction elems as [|elem elems IH]; intros Hn.
  - destruct Hn. constructor.
  - simpl. destruct (tag_get elem "href") as [href|] eqn:E.
    + rewrite (product_link_href _ _ E). cbn. rewrite IH; [reflexivity|].
      intros Hall. apply Hn. constructor; [exists href; exact E | exact Hall].
    + rewrite (product_link_no_href _ E). reflexivity.
Qed.

(** The next-page URL does not depend on the current URL. *)
Lemma get_next_page_url_ignores_current (html current_url current_url' : string) :
  get_next_page_url config BeautifulSoup html current_url =
  get_next_page_url config BeautifulSoup html current_url'.
Proof. reflexivity. Qed.

Lemma get_next_page_url_absent (html current_url : string) :
  select_one (BeautifulSoup html) (SELECTORS "pagination") = None →
  get_next_page_url config BeautifulSoup html current_url = None.
Proof. unfold get_next_page_url. intros ->. reflexivity. Qed.

(** A next-page URL that is returned is not empty. *)
Lemma get_next_page_url_truthy (html current_url next_url : string) :
  get_next_page_url config BeautifulSoup html current_url = Some next_url →
  PyStr.truthy next_url = true.
Proof.
  unfold get_next_page_url.
  destruct (select_one _ _) as [button|]; [|discriminate].
  destruct (tag_get button "href") as [href|]; [|discriminate].
  destruct (PyStr.truthy href) eqn:Ht; [|discriminate].
  destruct (PyStr.startswith href "http") eqn:Hs; simpl; intros [= <-].
  - exact Ht.
  - destruct href; [discriminate|]. destruct (BASE_URL config); reflexivity.
Qed.

(** The first next-page anchor with a non-empty [href]: the URL it names
    is returned, resolved against the base URL. *)
Lemma get_next_page_url_resolves (html current_url : string) (next_button : Tag)
    (href : string) :
  select_one (BeautifulSoup html) (SELECTORS "pagination") = Some next_button →
  tag_get next_button "href" = Some href → href ≠ "" →
  get_next_page_url config BeautifulSoup html current_url
  = Some (if PyStr.startswith href "http" then href else BASE_URL config +:+ href).
Proof.
  unfold get_next_page_url. intros -> -> Hne.
  destruct href as [|c href]; [contradiction|]. simpl PyStr.truthy. cbv iota.
  destruct (PyStr.startswith (String c href) "http"); reflexivity.
Qed.

(** None is returned exactly when there is no next-page anchor, or the
    first one has no [href] or an empty one. *)
Lemma get_next_page_url_none (html current_url : string) :
  get_next_page_url config BeautifulSoup html current_url = None ↔
  select_one (BeautifulSoup html) (SELECTORS "pagination") = None
  ∨ ∃ next_button,
      select_one (BeautifulSoup html) (SELECTORS "pagination") = Some next_button
      ∧ (tag_get next_button "href" = None ∨ tag_get next_button "href" = Some "").
Proof.
  split.
  - intros H.
    destruct (select_one (BeautifulSoup html) (SELECTORS "pagination"))
      as [button|] eqn:Hsel; [right | left; reflexivity].
    exists button. split; [reflexivity|].
    destruct (tag_get button "href") as [href|] eqn:Hh; [right | left; reflexivity].
    destruct (decide (href = "")) as [->|Hne]; [reflexivity|].
    rewrite (get_next_page_url_resolves _ _ _ _ Hsel Hh Hne) in H. discriminate.
  - unfold get_next_page_url. intros [-> | (button & -> & [-> | ->])]; reflexivity.
Qed.

End LinkFacts.

(** C10. Link extraction returns a list, one link for each matched
    anchor, whenever every matched anchor carries an [href]; and there is
    a page with a matched anchor without [href] on which it raises
    [KeyError] instead of returning. *)
Theorem extract_product_links_total_iff_hrefs :
  (∀ config BeautifulSoup html,
     Forall has_href (select (BeautifulSoup html) (SELECTORS "product_links")) →
     ∃ links,
       extract_product_links config BeautifulSoup html = Return links
       ∧ length links = length (select (BeautifulSoup html) (SELECTORS "product_links")))
  ∧ (∃ config BeautifulSoup html,
       ¬ Forall has_href (select (BeautifulSoup html) (SELECTORS "product_links"))
       ∧ extract_product_links config BeautifulSoup html = Raise (KeyError "href")).
Proof.
  split.
  - intros config BeautifulSoup html Hall. unfold extract_product_links.
    apply comprehension_all_href, Hall.
  - exists Example.shop, Example.parser, "broken". split; [|reflexivity].
    intros Hall. apply Forall_cons_1 in Hall as [_ Hall].
    apply Forall_cons_1 in Hall as [[href Hhref] _]. discriminate Hhref.
Qed.

(** The listing page of the example site has two anchors with [href]. *)
Lemma extract_product_links_total_iff_hrefs_witness :
  ∃ links,
    extract_product_links Example.shop Example.parser "listing" = Return links
    ∧ length links = 2.
Proof.
  apply (proj1 extract_product_links_total_iff_hrefs Example.shop Example.parser "listing").
  repeat constructor; eexists; reflexivity.
Defined.

(** ** The fetcher *)

Section FetcherFacts.

Variable server : nat -> string -> response.

Lemma attempts_trace_succ (url : string) (delay : Q) (n : nat) :
  1 ≤ n →
  attempts_trace url delay (S n) = Request url :: Sleep delay :: attempts_trace url delay n.
Proof. destruct n; [lia | reflexivity]. Qed.



Lemma time_sleep_accepts (seconds : Q) (w : World) :
  (0 <= seconds)%Q → time_sleep seconds w = Return (sleep seconds w).
Proof.
  intros Hs. unfold time_sleep. apply Qle_bool_iff in Hs. rewrite Hs. reflexivity.
Qed.

Lemma time_sleep_refuses (seconds : Q) (w : World) :
  (seconds < 0)%Q →
  time_sleep seconds w = Raise (ValueError "sleep length must be non-negative").
Proof.
  intros Hs. unfold time_sleep.
  destruct (Qle_bool 0 seconds) eqn:Hle; [|reflexivity].
  apply Qle_bool_iff in Hle. exfalso. exact (Qlt_not_le _ _ Hs Hle).
Qed.

(** The loop of [get_page], entered at attempt number [a] with [k]
    attempts to go, for a delay that [time.sleep] accepts. *)
Lemma get_page_for_trace (url : string) (retries : nat) (delay : Q) (k a : nat) (w : World) :
  (0 <= delay)%Q →
  a + k = retries →
  let r := get_page_for server url retries delay (seq a k) w in
  ∃ m, m ≤ k ∧ (1 ≤ k → 1 ≤ m)
    ∧ events r.2 = events w ++ attempts_trace url delay m
    ∧ requests r.2 = requests w + m
    ∧ (∀ i, i < m - 1 → server (requests w + i) url = RequestException)
    ∧ match r.1 with
      | Return None =>
          m = k ∧ (1 ≤ k → server (requests w + (m - 1)) url = RequestException)
      | Return (Some body) => 1 ≤ m ∧ server (requests w + (m - 1)) url = Ok body
      | Raise _ => False
      end.
Proof.
  intros Hd. revert a w. induction k as [|k IH]; intros a w Hak; simpl.
  - exists 0. rewrite app_nil_r, Nat.add_0_r. repeat split; auto; lia.
  - destruct (server (requests w) url) as [body|] eqn:Hs.
    + exists 1. simpl. rewrite Nat.add_0_r. repeat split; auto; try lia.
    + destruct (a <? retries - 1) eqn:Hlt.
      * apply Nat.ltb_lt in Hlt. rewrite time_sleep_accepts by exact Hd.
        specialize (IH (S a)
          (sleep delay {| requests := S (requests w);
                          events := events w ++ [Request url] |})).
        destruct IH as (m & Hm & H1 & Hev & Hreq & Hfail & Hres); [lia|].
        simpl in Hev, Hreq, Hfail, Hres.
        assert (1 ≤ m) by (apply H1; lia).
        exists (S m). split; [lia|]. split; [lia|].
        split; [rewrite Hev, attempts_trace_succ by lia; rewrite <- !app_assoc; reflexivity|].
        split; [rewrite Hreq; lia|].
        split.
        -- intros i Hi. destruct i as [|i]; [rewrite Nat.add_0_r; exact Hs|].
           replace (requests w + S i) with (S (requests w) + i) by lia.
           apply Hfail. lia.
        -- replace (requests w + (S m - 1)) with (S (requests w) + (m - 1)) by lia.
           destruct (get_page_for _ _ _ _ _ _).1 as [[body|]|e].
           ++ destruct Hres as [_ Hok]. split; [lia | exact Hok].
           ++ destruct Hres as [-> Hres]. split; [reflexivity|]. intros _.
              apply Hres. lia.
           ++ exact Hres.
      * apply Nat.ltb_ge in Hlt. assert (k = 0) as -> by lia.
        exists 1. simpl. rewrite Nat.add_0_r. repeat split; auto; try lia.
Qed.

(** With the default delay of two seconds [get_page] raises nothing. *)
Lemma get_page_default_returns (url : string) (retries : nat) (w : World) :
  ∃ html w', get_page server url retries 2%Q w = (Return html, w').
Proof.
  destruct (get_page_for_trace url retries 2%Q retries 0 w ltac:(discriminate) eq_refl)
    as (m & _ & _ & _ & _ & _ & Hres).
  fold (get_page server url retries 2%Q w) in Hres.
  destruct (get_page server url retries 2%Q w) as [[html|e] w'];
    [eauto | contradiction Hres].
Qed.


(** A site that answers the third request: two failures, each followed by
    a pause of two seconds, then the body. *)
Example get_page_third_attempt :
  get_page Example.slow_site "https://shop.example/p/1" 3 2%Q initial_world
  = (Return (Some "ring"),
     {| requests := 3;
        events := [Request "https://shop.example/p/1"; Sleep 2;
                   Request "https://shop.example/p/1"; Sleep 2;
                   Request "https://shop.example/p/1"] |}).
Proof. reflexivity. Qed.

(** A site that is down: three attempts, two pauses, then [None]. *)
Example get_page_dead_site :
  get_page Example.dead_site "https://shop.example/p/1" 3 2%Q initial_world
  = (Return None,
     {| requests := 3;
        events := [Request "https://shop.example/p/1"; Sleep 2;
                   Request "https://shop.example/p/1"; Sleep 2;
                   Request "https://shop.example/p/1"] |}).
Proof. reflexivity. Qed.

(** A page that is returned was served by the site. *)
Lemma get_page_served (url : string) (retries : nat) (w w' : World) (html : string) :
  get_page server url retries 2%Q w = (Return (Some html), w') →
  ∃ n, server n url = Ok html.
Proof.
  intros H.
  destruct (get_page_for_trace url retries 2%Q retries 0 w ltac:(discriminate) eq_refl)
    as (m & _ & _ & _ & _ & _ & Hres).
  fold (get_page server url retries 2%Q w) in Hres. rewrite H in Hres.
  simpl in Hres. destruct Hres as [_ Hok]. eauto.
Qed.

End FetcherFacts.



(** ** The category crawl *)

Section CrawlFacts.

Variable config : JewelryScraperConfig.
Variable BeautifulSoup : string -> Soup.
Variable server : nat -> string -> response.

Local Abbreviation loop := (pagination_loop config BeautifulSoup server).

Lemma loop_empty_url (fuel page_count : nat) (acc : list string) (w : World) :
  loop (S fuel) "" page_count acc w = Some (Return acc, w).
Proof. reflexivity. Qed.

Lemma loop_stops_on_failure (fuel : nat) (u : string) (page_count : nat)
    (acc : list string) (w w1 : World) :
  PyStr.truthy u = true →
  get_page server u 3 2%Q w = (Return None, w1) →
  loop (S fuel) u page_count acc w = Some (Return acc, w1).
Proof. intros Hu Hget. simpl. rewrite Hu, Hget. reflexivity. Qed.

Lemma loop_advances (fuel : nat) (u : string) (page_count : nat) (acc : list string)
    (w w1 : World) (html : string) (links : list string) (next_url : string) :
  PyStr.truthy u = true →
  get_page server u 3 2%Q w = (Return (Some html), w1) →
  PyStr.truthy html = true →
  extract_product_links config BeautifulSoup html = Return links →
  get_next_page_url config BeautifulSoup html u = Some next_url →
  next_url ≠ u →
  loop (S fuel) u page_count acc w =
  loop fuel next_url (page_count + 1) (acc ++ links) (sleep 1%Q w1).
Proof.
  intros Hu Hget Hhtml Hlinks Hnext Hne. simpl.
  rewrite Hu, Hget, Hhtml, Hlinks, Hnext. simpl.
  rewrite (get_next_page_url_truthy _ _ _ _ _ Hnext).
  apply String.eqb_neq in Hne. rewrite Hne. reflexivity.
Qed.

(** The cycle guard: a next-page link back to the current page ends the
    loop after the links of the current page have been added. *)
Lemma loop_stops_on_cycle (fuel : nat) (u : string) (page_count : nat) (acc : list string)
    (w w1 : World) (html : string) (links : list string) :
  PyStr.truthy u = true →
  get_page server u 3 2%Q w = (Return (Some html), w1) →
  PyStr.truthy html = true →
  extract_product_links config BeautifulSoup html = Return links →
  get_next_page_url config BeautifulSoup html u = Some u →
  loop (S fuel) u page_count acc w = Some (Return (acc ++ links), w1).
Proof.
  intros Hu Hget Hhtml Hlinks Hnext. simpl.
  rewrite Hu, Hget, Hhtml, Hlinks, Hnext. simpl.
  rewrite String.eqb_refl, andb_false_r. reflexivity.
Qed.

(** More fuel does not change a result. *)
Lemma loop_fuel_mono (fuel fuel' : nat) (u : string) (page_count : nat)
    (acc : list string) (w : World) (r : result (list string) * World) :
  loop fuel u page_count acc w = Some r → fuel ≤ fuel' →
  loop fuel' u page_count acc w = Some r.
Proof.
  revert fuel' u page_count acc w.
  induction fuel as [|fuel IH]; intros fuel' u n acc w H Hle; [discriminate|].
  destruct fuel' as [|fuel']; [lia|]. simpl in *.
  destruct (PyStr.truthy u); [|exact H].
  destruct (get_page server u 3 2%Q w) as [[[html|]|e] w1]; [|exact H | exact H].
  destruct (negb (PyStr.truthy html)); [exact H|].
  destruct (extract_product_links config BeautifulSoup html) as [links|e]; [|exact H].
  destruct (get_next_page_url config BeautifulSoup html u) as [next_url|]; [|exact H].
  destruct (PyStr.truthy next_url && negb (next_url =? u)%string); [|exact H].
  apply IH; [exact H | lia].
Qed.

Lemma crawl_prefix_loop (u : string) (w : World) (links : list string)
    (cur : string) (wc w' : World) :
  crawl_prefix config BeautifulSoup server u w links cur wc →
  get_page server cur 3 2%Q wc = (Return None, w') →
  ∀ page_count acc, ∃ fuel w'',
    loop fuel u page_count acc w = Some (Return (acc ++ links), w'').
Proof.
  induction 1 as [u w|u w html w1 links next_url rest u' w2 Hu Hget Hhtml Hlinks Hnext Hne _ IH];
    intros Hfail page_count acc.
  - exists 1. rewrite app_nil_r. destruct (PyStr.truthy u) eqn:Hu.
    + exists w'. apply loop_stops_on_failure; assumption.
    + exists w. destruct u; [reflexivity | discriminate].
  - destruct (IH Hfail (page_count + 1) (acc ++ links)) as (fuel & w'' & Hloop).
    exists (S fuel), w''.
    rewrite (loop_advances _ _ _ _ _ _ _ _ _ Hu Hget Hhtml Hlinks Hnext Hne).
    rewrite Hloop, <- app_assoc. reflexivity.
Qed.

(** C9. When the crawl of a category has fetched a sequence of pages and
    the fetch of the next one fails, [scrape_category] stops there and
    returns exactly the links extracted from the pages fetched so far, in
    order, as a normal result. *)
Theorem scrape_category_partial_on_fetch_failure (category_url : string) (w0 : World)
    (links : list string) (cur : string) (w w' : World) :
  crawl_prefix config BeautifulSoup server (full_url config category_url) w0 links cur w →
  get_page server cur 3 2%Q w = (Return None, w') →
  ∃ fuel w'', ∀ fuel', fuel ≤ fuel' →
    scrape_category config BeautifulSoup server fuel' category_url w0
    = Some (Return links, w'').
Proof.
  intros Hprefix Hfail.
  destruct (crawl_prefix_loop _ _ _ _ _ _ Hprefix Hfail 1 []) as (fuel & w'' & Hloop).
  exists fuel, w''. intros fuel' Hle. unfold scrape_category.
  exact (loop_fuel_mono _ _ _ _ _ _ _ Hloop Hle).
Qed.

(** C3 (as amended). When every next-page link that the site serves
    points back to the page that carries it, [scrape_category] ends after
    one evaluation of the loop body, whatever the category and the state
    of the world. *)
Theorem scrape_category_terminates_on_self_links (category_url : string) (w : World) :
  self_linking config BeautifulSoup server →
  ∃ r, ∀ fuel, 1 ≤ fuel →
    scrape_category config BeautifulSoup server fuel category_url w = Some r.
Proof.
  intros Hself.
  assert (∃ r, scrape_category config BeautifulSoup server 1 category_url w = Some r)
    as [r Hr].
  { unfold scrape_category. simpl.
    destruct (PyStr.truthy _) eqn:Hu; [|eauto].
    destruct (get_page server _ 3 2%Q w) as [[[html|]|e] w1] eqn:Hget; [|eauto | eauto].
    destruct (negb (PyStr.truthy html)); [eauto|].
    destruct (extract_product_links config BeautifulSoup html) as [links|e]; [|eauto].
    destruct (get_next_page_url config BeautifulSoup html _) as [next_url|] eqn:Hnext;
      [|eauto].
    destruct (get_page_served _ _ _ _ _ _ Hget) as [n Hn].
    rewrite (Hself _ _ _ _ Hn Hnext), String.eqb_refl, andb_false_r. eauto. }
  exists r. intros fuel Hfuel. unfold scrape_category in *.
  exact (loop_fuel_mono _ _ _ _ _ _ _ Hr Hfuel).
Qed.

(** C2 (as amended). [get_next_page_url] returns none exactly when the
    page has no next-page anchor, or the anchor has no [href] or an empty
    one; otherwise it returns the URL that the anchor names, resolved
    against the base URL, whatever the current URL is, also when the two
    are equal.  The cycle guard is in the crawl loop, which ends with the
    links of the current page when the URL returned equals the current
    one. *)
Theorem next_page_url_and_cycle_guard (html current_url : string) :
  (get_next_page_url config BeautifulSoup html current_url = None ↔
   select_one (BeautifulSoup html) (SELECTORS "pagination") = None
   ∨ ∃ next_button,
       select_one (BeautifulSoup html) (SELECTORS "pagination") = Some next_button
       ∧ (tag_get next_button "href" = None ∨ tag_get next_button "href" = Some ""))
  ∧ (∀ next_button href,
       select_one (BeautifulSoup html) (SELECTORS "pagination") = Some next_button →
       tag_get next_button "href" = Some href → href ≠ "" →
       get_next_page_url config BeautifulSoup html current_url
       = Some (if PyStr.startswith href "http" then href else BASE_URL config +:+ href))
  ∧ (∀ other_url,
       get_next_page_url config BeautifulSoup html other_url
       = get_next_page_url config BeautifulSoup html current_url)
  ∧ (∀ fuel page_count acc w w1 links,
       PyStr.truthy current_url = true →
       get_page server current_url 3 2%Q w = (Return (Some html), w1) →
       PyStr.truthy html = true →
       extract_product_links config BeautifulSoup html = Return links →
       get_next_page_url config BeautifulSoup html current_url = Some current_url →
       loop (S fuel) current_url page_count acc w = Some (Return (acc ++ links), w1)).
Proof.
  split; [apply get_next_page_url_none|].
  split; [intros next_button href; apply get_next_page_url_resolves|].
  split; [reflexivity|].
  intros. apply loop_stops_on_cycle with html; assumption.
Qed.

End CrawlFacts.

(** ** Runs on the example site *)

Module ExampleFacts.
Import Example.

Lemma parser_next (target : string) :
  parser ("NEXT " +:+ target)
  = soup_of [ (".pagination a.next", [tag [("href", target)] "Next"]) ].
Proof. reflexivity. Qed.

Lemma next_page_of_next_body (target current_url : string) :
  PyStr.startswith target "http" = true →
  get_next_page_url shop parser ("NEXT " +:+ target) current_url = Some target.
Proof.
  intros Hhttp. unfold get_next_page_url. rewrite parser_next.
  change (select_one _ _) with (Some (tag [("href", target)] "Next")).
  cbn. rewrite lookup_insert_eq, Hhttp.
  destruct target; [discriminate|]. reflexivity.
Qed.

Lemma links_of_next_body (target : string) :
  extract_product_links shop parser ("NEXT " +:+ target) = Return [].
Proof. reflexivity. Qed.

Lemma startswith_app (s p t : string) :
  PyStr.startswith s p = true → PyStr.startswith (s +:+ t) p = true.
Proof.
  unfold PyStr.startswith. rewrite !PyStrFacts.prefix_spec.
  intros [post ->]. exists (post +:+ t). apply PyStrFacts.app_assoc.
Qed.

Lemma length_app (s t : string) :
  String.length (s +:+ t) = String.length s + String.length t.
Proof.
  induction s as [|c s IH]; [reflexivity|].
  rewrite PyStrFacts.app_cons. simpl. rewrite IH. reflexivity.
Qed.

Lemma app_slash_x_neq (u : string) : u +:+ "/x" ≠ u.
Proof.
  intros H. apply (f_equal String.length) in H. rewrite length_app in H.
  simpl in H. lia.
Qed.

Lemma looping_site_self_linking : self_linking shop parser looping_site.
Proof.
  intros n u html next_url Hserved Hnext. unfold looping_site in Hserved.
  destruct (PyStr.startswith u "http") eqn:Hhttp; [|discriminate].
  injection Hserved as <-.
  rewrite (next_page_of_next_body u u Hhttp) in Hnext. congruence.
Qed.

(** On the endless site one more page follows every page. *)
Lemma endless_site_advances (fuel : nat) (u : string) (page_count : nat)
    (acc : list string) (w : World) :
  PyStr.startswith u "http" = true →
  pagination_loop shop parser endless_site (S fuel) u page_count acc w
  = pagination_loop shop parser endless_site fuel (u +:+ "/x") (page_count + 1)
      (acc ++ [])
      (sleep 1%Q {| requests := S (requests w); events := events w ++ [Request u] |}).
Proof.
  intros Hhttp.
  apply loop_advances with (html := "NEXT " +:+ u +:+ "/x").
  - destruct u; [discriminate | reflexivity].
  - reflexivity.
  - reflexivity.
  - apply links_of_next_body.
  - apply next_page_of_next_body, startswith_app, Hhttp.
  - apply app_slash_x_neq.
Qed.

Lemma endless_site_out_of_fuel (fuel : nat) (u : string) (page_count : nat)
    (acc : list string) (w : World) :
  PyStr.startswith u "http" = true →
  pagination_loop shop parser endless_site fuel u page_count acc w = None.
Proof.
  revert u page_count acc w. induction fuel as [|fuel IH]; intros u n acc w Hhttp.
  - reflexivity.
  - rewrite endless_site_advances by exact Hhttp.
    apply IH, startswith_app, Hhttp.
Qed.

End ExampleFacts.

(** C2, the claim as worded fails: on a page whose next-page link is the
    URL of the page itself, [get_next_page_url] returns that URL. *)
Lemma get_next_page_url_returns_current_url :
  get_next_page_url Example.shop Example.parser
    "NEXT https://shop.example/rings" "https://shop.example/rings"
  = Some "https://shop.example/rings".
Proof. reflexivity. Qed.

(** The last listing page has no next page, the first one names the
    second, and on the looping site the crawl of the first page ends at
    once. *)
Lemma next_page_url_and_cycle_guard_witness :
  get_next_page_url Example.shop Example.parser "last" "https://shop.example/rings" = None
  ∧ get_next_page_url Example.shop Example.parser "listing" "https://shop.example/rings"
    = Some "https://shop.example/rings?page=2"
  ∧ pagination_loop Example.shop Example.parser Example.looping_site 1
      "https://shop.example/rings" 1 [] initial_world
    = Some (Return [],
            {| requests := 1; events := [Request "https://shop.example/rings"] |}).
Proof.
  split; [|split].
  - apply (proj1 (next_page_url_and_cycle_guard Example.shop Example.parser
                    Example.looping_site "last" "https://shop.example/rings")).
    left. reflexivity.
  - apply (proj1 (proj2 (next_page_url_and_cycle_guard Example.shop Example.parser
                           Example.looping_site "listing" "https://shop.example/rings"))
             (Example.tag [("href", "/rings?page=2")] "Next") "/rings?page=2");
      [reflexivity | reflexivity | discriminate].
  - apply (proj2 (proj2 (proj2 (next_page_url_and_cycle_guard Example.shop Example.parser
                                  Example.looping_site "NEXT https://shop.example/rings"
                                  "https://shop.example/rings")))
             0 1 [] initial_world
             {| requests := 1; events := [Request "https://shop.example/rings"] |} []);
      reflexivity.
Defined.

(** C3, the claim as worded fails: there is no page ceiling, and on a site
    whose next-page links always lead to a new URL the crawl never ends,
    whatever the fuel. *)
Lemma endless_crawl_never_ends :
  ¬ ∃ fuel r,
      scrape_category Example.shop Example.parser Example.endless_site fuel
        "/rings" initial_world = Some r.
Proof.
  intros (fuel & r & H). unfold scrape_category in H.
  rewrite ExampleFacts.endless_site_out_of_fuel in H; [discriminate | reflexivity].
Qed.

(** The looping site is crawled in one step. *)
Lemma scrape_category_terminates_on_self_links_witness :
  ∃ r, ∀ fuel, 1 ≤ fuel →
    scrape_category Example.shop Example.parser Example.looping_site fuel
      "/rings" initial_world = Some r.
Proof.
  apply (scrape_category_terminates_on_self_links Example.shop Example.parser
           Example.looping_site "/rings" initial_world).
  exact ExampleFacts.looping_site_self_linking.
Defined.

(** The flaky site: one page fetched, then the second page is unreachable;
    the two links of the first page are returned. *)
Lemma scrape_category_partial_on_fetch_failure_witness :
  ∃ fuel w'', ∀ fuel', fuel ≤ fuel' →
    scrape_category Example.shop Example.parser Example.flaky_site fuel'
      "/rings" initial_world
    = Some (Return ["https://shop.example/p/1"; "https://cdn.example/p/2"], w'').
Proof.
  apply (scrape_category_partial_on_fetch_failure Example.shop Example.parser
           Example.flaky_site "/rings" initial_world
           ["https://shop.example/p/1"; "https://cdn.example/p/2"]
           "https://shop.example/rings?page=2"
           (sleep 1%Q {| requests := 1;
                         events := [Request "https://shop.example/rings"] |})
           (snd (get_page Example.flaky_site "https://shop.example/rings?page=2" 3 2%Q
                   (sleep 1%Q {| requests := 1;
                                 events := [Request "https://shop.example/rings"] |})))).
  - apply (crawl_on Example.shop Example.parser Example.flaky_site
             "https://shop.example/rings" initial_world "listing"
             {| requests := 1; events := [Request "https://shop.example/rings"] |}
             ["https://shop.example/p/1"; "https://cdn.example/p/2"]
             "https://shop.example/rings?page=2" []);
      try reflexivity.
    + discriminate.
    + apply crawl_here.
  - reflexivity.
Defined.

(** ** Progress arithmetic *)

Lemma category_progress_floor (k n : Z) :
  (0 <= k)%Z → (0 < n)%Z → category_progress k n = (30 * k / n)%Z.
Proof.
  intros Hk Hn. destruct n as [|p|p]; try lia.
  unfold category_progress, true_div, py_int, Qdiv, Qinv, Qmult, inject_Z. simpl.
  rewrite Pos.mul_1_r, Z.mul_1_r.
  rewrite Z.quot_div_nonneg by lia. f_equal. lia.
Qed.

Lemma product_progress_floor (i n : Z) :
  (0 <= i + 1)%Z → (0 < n)%Z → product_progress i n = (30 + 60 * (i + 1) / n)%Z.
Proof.
  intros Hi Hn. destruct n as [|p|p]; try lia.
  unfold product_progress, true_div, py_int, Qdiv, Qinv, Qmult, Qplus, inject_Z. simpl.
  rewrite ?Pos.mul_1_l, ?Pos.mul_1_r, ?Z.mul_1_r.
  rewrite Z.quot_div_nonneg by lia.
  replace (30 * Z.pos p + (i + 1) * 60)%Z with (60 * (i + 1) + 30 * Z.pos p)%Z by lia.
  rewrite Z.div_add by lia. lia.
Qed.

Lemma category_progress_zero (n : Z) : category_progress 0 n = 0%Z.
Proof.
  unfold category_progress, true_div, py_int, Qdiv, Qmult, inject_Z. simpl.
  reflexivity.
Qed.

Lemma category_progress_mono (k n : Z) :
  (0 <= k)%Z → (0 < n)%Z → (category_progress k n <= category_progress (k + 1) n)%Z.
Proof.
  intros Hk Hn. rewrite !category_progress_floor by lia.
  apply Z.div_le_mono; lia.
Qed.

Lemma category_progress_le_30 (k n : Z) :
  (0 <= k <= n)%Z → (category_progress k n <= 30)%Z.
Proof.
  intros Hk. destruct (decide (n = 0%Z)) as [->|Hn].
  - assert (k = 0)%Z as -> by lia. rewrite category_progress_zero. lia.
  - rewrite category_progress_floor by lia.
    apply Z.div_le_upper_bound; lia.
Qed.

(** The binary64 evaluation of the two formulas gives the same integers
    for all totals up to 256. *)
Lemma binary64_agrees : Binary64.agrees_upto 256 = true.
Proof. vm_compute. reflexivity. Qed.

Lemma agrees_upto_spec (bound k n : nat) :
  Binary64.agrees_upto bound = true →
  1 ≤ n ≤ bound → k ≤ n →
  Binary64.category_progress64 (Z.of_nat k) (Z.of_nat n)
  = category_progress (Z.of_nat k) (Z.of_nat n)
  ∧ Binary64.product_progress64 (Z.of_nat k - 1) (Z.of_nat n)
    = product_progress (Z.of_nat k - 1) (Z.of_nat n).
Proof.
  intros H Hn Hk.
  unfold Binary64.agrees_upto in H. rewrite forallb_forall in H.
  assert (Hin : In n (seq 1 bound)) by (apply in_seq; lia).
  specialize (H n Hin). rewrite forallb_forall in H.
  assert (Hik : In k (seq 0 (S n))) by (apply in_seq; lia).
  specialize (H k Hik). rewrite andb_true_iff, !Z.eqb_eq in H. exact H.
Qed.

Lemma binary64_progress (k n : nat) :
  1 ≤ n ≤ 256 → k ≤ n →
  Binary64.category_progress64 (Z.of_nat k) (Z.of_nat n)
  = category_progress (Z.of_nat k) (Z.of_nat n)
  ∧ Binary64.product_progress64 (Z.of_nat k - 1) (Z.of_nat n)
    = product_progress (Z.of_nat k - 1) (Z.of_nat n).
Proof. exact (agrees_upto_spec 256 k n binary64_agrees). Qed.

(** ** The status updates of the worker *)

Lemma Sorted_snoc (l : list Z) (p : Z) :
  Sorted Z.le l → Forall (fun x => (x <= p)%Z) l → Sorted Z.le (l ++ [p]).
Proof.
  induction l as [|x l IH]; intros Hs Hall; simpl.
  - repeat constructor.
  - apply Sorted_inv in Hs as [Hs Hhd]. apply Forall_cons_1 in Hall as [Hx Hall].
    constructor; [apply IH; assumption|].
    destruct l as [|y l]; simpl; constructor.
    + exact Hx.
    + apply HdRel_inv in Hhd. exact Hhd.
Qed.

Lemma progress_of_update_set (d s : gmap string pyval) (p : Z) :
  d !! "progress" = Some (PInt p) → progress_of (update_scraper_status d s) = p.
Proof.
  intros Hd. unfold progress_of, status_get, update_scraper_status.
  rewrite (lookup_union_Some_l _ _ _ _ Hd). reflexivity.
Qed.

Lemma progress_of_update_keep (d s : gmap string pyval) :
  d !! "progress" = None → progress_of (update_scraper_status d s) = progress_of s.
Proof.
  intros Hd. unfold progress_of, status_get, update_scraper_status.
  rewrite (lookup_union_r _ _ _ Hd). reflexivity.
Qed.

Lemma not_idle_update (d s : gmap string pyval) :
  keeps_running d → not_idle s = true → not_idle (update_scraper_status d s) = true.
Proof.
  unfold not_idle, status_get, update_scraper_status.
  intros [Hd|(x & Hd & Hx)] Hs.
  - rewrite (lookup_union_r _ _ _ Hd). exact Hs.
  - rewrite (lookup_union_Some_l _ _ _ _ Hd). simpl.
    apply bool_decide_eq_true. congruence.
Qed.

Lemma not_idle_marked (d s : gmap string pyval) :
  marks_running d → not_idle (update_scraper_status d s) = true.
Proof.
  intros (x & Hd & Hx). unfold not_idle, status_get, update_scraper_status.
  rewrite (lookup_union_Some_l _ _ _ _ Hd). simpl.
  apply bool_decide_eq_true. congruence.
Qed.

Lemma idle_of_status (s : gmap string pyval) :
  s !! "status" = Some (PStr "Idle") → not_idle s = false.
Proof. intros Hs. unfold not_idle, status_get. rewrite Hs. reflexivity. Qed.

Lemma progress_of_lookup (s : gmap string pyval) (p : Z) :
  s !! "progress" = Some (PInt p) → progress_of s = p.
Proof. intros Hs. unfold progress_of, status_get. rewrite Hs. reflexivity. Qed.

Lemma failure_update_lookup (s : gmap string pyval) :
  update_scraper_status failure_update s !! "status" = Some (PStr "Idle")
  ∧ update_scraper_status failure_update s !! "progress" = Some (PInt 0)
  ∧ update_scraper_status failure_update s !! "feed_status" = Some (PStr "Failed").
Proof.
  unfold update_scraper_status.
  split; [|split]; apply lookup_union_Some_l; reflexivity.
Qed.

(** *** Rules of the logic *)

Lemma triple_bind {A B} E (P : Job → Prop) (m : Worker A) (Q : A → Job → Prop)
    (k : A → Worker B) (R : B → Job → Prop) :
  triple E P m Q → (∀ a, triple E (Q a) (k a) R) → triple E P (m ≫= k) R.
Proof.
  intros Hm Hk j HP. specialize (Hm j HP).
  unfold mbind, worker_bind. destruct (m j) as [[a|e] j']; [|exact Hm].
  apply Hk, Hm.
Qed.

Lemma triple_ret {A} E (P : Job → Prop) (a : A) : triple E P (mret a) (fun _ => P).
Proof. intros j HP. exact HP. Qed.

Lemma triple_weaken {A} E (P P' : Job → Prop) (m : Worker A) (Q Q' : A → Job → Prop) :
  triple E P m Q → (∀ j, P' j → P j) → (∀ a j, Q a j → Q' a j) → triple E P' m Q'.
Proof.
  intros Hm HP HQ j HP'. specialize (Hm j (HP j HP')).
  destruct (m j) as [[a|e] j']; [apply HQ, Hm | exact Hm].
Qed.

Lemma triple_abrupt {A} (E E' : abrupt → Job → Prop) (P : Job → Prop) (m : Worker A)
    (Q : A → Job → Prop) :
  triple E P m Q → (∀ e j, E e j → E' e j) → triple E' P m Q.
Proof.
  intros Hm HE j HP. specialize (Hm j HP).
  destruct (m j) as [[a|e] j']; [exact Hm | apply HE, Hm].
Qed.

(** [try: body except Exception: handler] *)
Lemma triple_try_except {A} E (H P : Job → Prop) (body handler : Worker A)
    (Q : A → Job → Prop) :
  triple (guarded H E) P body Q → triple E H handler Q →
  triple E P (try_except body handler) Q.
Proof.
  intros Hbody Hhandler j HP. specialize (Hbody j HP). unfold try_except.
  destruct (body j) as [[a|[|]] j']; [exact Hbody | apply Hhandler, Hbody | exact Hbody].
Qed.

Lemma triple_attempt {A} E (H P : Job → Prop) (body : Worker A)
    (Q : option A → Job → Prop) :
  triple (guarded H E) P body (fun a => Q (Some a)) → (∀ j, H j → Q None j) →
  triple E P (attempt body) Q.
Proof.
  intros Hbody Hnone. unfold attempt. apply triple_try_except with (H := H).
  - apply triple_bind with (Q := fun a => Q (Some a)); [exact Hbody|].
    intros a j Hj. exact Hj.
  - intros j Hj. apply Hnone, Hj.
Qed.

Lemma triple_raise {A} (E : abrupt → Job → Prop) (P : Job → Prop) (Q : A → Job → Prop) :
  (∀ j, P j → E Unexpected j) → triple E P raise Q.
Proof. intros HE j Hj. apply HE, Hj. Qed.

(** Steps that leave alone what the invariant [P] reads: the shared
    dictionary, the record of the updates, and the two oracles. *)
Lemma triple_silent {A} E (m : Worker A) (P : Job → Prop) :
  (∀ j, ∃ a j', m j = (inl a, j')
                ∧ scraper_status j' = scraper_status j ∧ snapshots j' = snapshots j
                ∧ updates j' = updates j ∧ others j' = others j
                ∧ faults j' = faults j) →
  (∀ j j', scraper_status j' = scraper_status j → snapshots j' = snapshots j →
           updates j' = updates j → others j' = others j → faults j' = faults j →
           P j → P j') →
  triple E P m (fun _ => P).
Proof.
  intros Hm HP j Hj. destruct (Hm j) as (a & j' & -> & Hst & Hsn & Hup & Hot & Hfa).
  exact (HP j j' Hst Hsn Hup Hot Hfa Hj).
Qed.

(** Steps that change nothing of what the invariant [P] reads, but may
    end abruptly. *)
Lemma triple_frame {A} E (m : Worker A) (P : Job → Prop) :
  (∀ j, scraper_status (m j).2 = scraper_status j ∧ snapshots (m j).2 = snapshots j
        ∧ updates (m j).2 = updates j ∧ others (m j).2 = others j
        ∧ faults (m j).2 = faults j) →
  (∀ j j', scraper_status j' = scraper_status j → snapshots j' = snapshots j →
           updates j' = updates j → others j' = others j → faults j' = faults j →
           P j → P j') →
  (∀ e j, P j → E e j) →
  triple E P m (fun _ => P).
Proof.
  intros Hm HP HE j Hj. destruct (Hm j) as (Hst & Hsn & Hup & Hot & Hfa).
  pose proof (HP j (m j).2 Hst Hsn Hup Hot Hfa Hj) as Hj'.
  destruct (m j) as [[a|e] j']; [exact Hj' | apply HE, Hj'].
Qed.

(** *** A run on its own *)

Lemma steady_le (b b' : Z) (j : Job) : (b <= b')%Z → steady b j → steady b' j.
Proof.
  intros Hle (H1 & H2 & H3 & H4 & H5 & H6 & H7).
  repeat (split; [assumption|]). split; [lia | exact H7].
Qed.

Lemma steady_frame (b : Z) (j j' : Job) :
  scraper_status j' = scraper_status j → snapshots j' = snapshots j →
  updates j' = updates j → others j' = others j → faults j' = faults j →
  steady b j → steady b j'.
Proof. intros Hst Hsn Hup Hot _. unfold steady. rewrite Hst, Hsn, Hup, Hot. tauto. Qed.

(** One more update that leaves the job under way and does not lower the
    progress. *)
Lemma steady_write (b b' : Z) (d : gmap string pyval) (j j' : Job) :
  steady b j →
  scraper_status j' = update_scraper_status d (scraper_status j) →
  snapshots j' = snapshots j ++ [update_scraper_status d (scraper_status j)] →
  updates j' = updates j ++ [d] → others j' = others j →
  keeps_running d →
  (progress_of (scraper_status j)
   <= progress_of (update_scraper_status d (scraper_status j)) <= b')%Z →
  steady b' j'.
Proof.
  intros (Hot & Hsorted & Hle & Hrun & Hni & Hb & Hlen & first & rest & Hup & Hfirst & Hrest)
    Hst' Hsn' Hup' Hot' Hk Hp.
  unfold steady. rewrite Hst', Hsn', Hup', Hot'.
  split; [exact Hot|]. rewrite fmap_app. simpl.
  split.
  { apply Sorted_snoc; [exact Hsorted|].
    apply Forall_fmap. eapply Forall_impl; [exact Hle|]. simpl. intros; lia. }
  split.
  { apply Forall_app. split; [|apply Forall_cons_2; [lia | apply Forall_nil_2]].
    eapply Forall_impl; [exact Hle|]. simpl. intros; lia. }
  assert (Hni' : not_idle (update_scraper_status d (scraper_status j)) = true)
    by (apply not_idle_update; assumption).
  split.
  { apply Forall_app. split; [exact Hrun|].
    apply Forall_cons_2; [exact Hni' | apply Forall_nil_2]. }
  split; [exact Hni'|]. split; [lia|].
  split; [rewrite !length_app, Hlen; reflexivity|].
  exists first, (rest ++ [d]). rewrite Hup. split; [reflexivity|].
  split; [exact Hfirst|].
  apply Forall_app. split; [exact Hrest|].
  apply Forall_cons_2; [exact Hk | apply Forall_nil_2].
Qed.

(** The first update of a run. *)
Lemma steady_first_write (d : gmap string pyval) (j : Job) :
  snapshots j = [] → updates j = [] → others j = [] →
  d !! "progress" = Some (PInt 0) → d !! "status" = Some (PStr "Running") →
  steady 0 (snd (write_status d j)).
Proof.
  intros Hsn Hup Hot Hp Hst.
  unfold write_status, mbind, worker_bind, interfere, own_write. rewrite Hot.
  unfold steady. simpl. rewrite Hsn, Hup, Hot. simpl.
  rewrite (progress_of_update_set _ _ _ Hp).
  assert (Hn : not_idle (update_scraper_status d (scraper_status j)) = true).
  { apply not_idle_marked. exists "Running". split; [exact Hst | discriminate]. }
  split; [reflexivity|]. split; [repeat constructor|].
  split.
  { apply Forall_cons_2; [|apply Forall_nil_2].
    rewrite (progress_of_update_set _ _ _ Hp). lia. }
  split; [apply Forall_cons_2; [exact Hn | apply Forall_nil_2]|].
  split; [exact Hn|]. split; [lia|]. split; [reflexivity|].
  exists d, []. split; [reflexivity|]. split; [|apply Forall_nil_2].
  exists "Running". split; [exact Hst | discriminate].
Qed.

(** How a status update inside the outer [try] runs when no other thread
    writes. *)
Lemma update_alone (d : gmap string pyval) (j : Job) :
  others j = [] →
  ∃ j0, scraper_status j0 = scraper_status j ∧ snapshots j0 = snapshots j
        ∧ updates j0 = updates j ∧ others j0 = others j
        ∧ products j0 = products j
        ∧ unavailable_products j0 = unavailable_products j
        ∧ (update d j = (inr Unexpected, j0) ∧ (∃ rest, faults j = true :: rest)
           ∨ update d j
             = (inl tt,
                set_status (update_scraper_status d (scraper_status j0))
                  (add_update d j0))).
Proof.
  intros Hot.
  unfold update, write_status, mbind, worker_bind, fault_point, interfere, own_write.
  destruct (faults j) as [|[|] rest] eqn:Hf.
  - exists j. rewrite Hot. repeat (split; [reflexivity|]). right. reflexivity.
  - exists (set_faults rest j). simpl.
    repeat (split; [reflexivity|]). left. split; [reflexivity | eauto].
  - exists (set_faults rest j). simpl. rewrite Hot.
    repeat (split; [reflexivity|]). right. reflexivity.
Qed.

Section SteadyFacts.

Variable BeautifulSoup : string -> Soup.
Variable server : nat -> string -> response.
Variable strftime : World -> string -> string.
Variable time_time : World -> Z.
Variable generate_feeds : list Product -> list Product -> bool.
Variable fuel : nat.

Local Ltac keep_running :=
  first [ left; reflexivity
        | right; eexists; split; [reflexivity | discriminate] ].

(** A status update that leaves the job under way and does not lower the
    progress. *)
Lemma steady_update E (b b' : Z) (d : gmap string pyval) :
  keeps_running d →
  (∀ s, (progress_of s <= b)%Z →
        (progress_of s <= progress_of (update_scraper_status d s) <= b')%Z) →
  (∀ j, steady b j → E Unexpected j) →
  triple E (steady b) (update d) (fun _ => steady b').
Proof.
  intros Hk Hp HE j Hj. pose proof Hj as (Hot & _ & _ & _ & _ & Hb & _).
  destruct (update_alone d j Hot)
    as (j0 & Hst & Hsn & Hup & Hot0 & _ & _ & Hrun).
  assert (Hj0 : steady b j0).
  { unfold steady in *. rewrite Hst, Hsn, Hup, Hot0. exact Hj. }
  assert (Hwrite : steady b' (set_status (update_scraper_status d (scraper_status j0))
                                (add_update d j0))).
  { apply (steady_write b b' d j0); try reflexivity; [exact Hj0 | exact Hk|].
    apply Hp. rewrite Hst. exact Hb. }
  destruct Hrun as [[-> _] | ->]; [apply HE, Hj0 | exact Hwrite].
Qed.

Lemma steady_update_keep E (b : Z) (d : gmap string pyval) :
  d !! "progress" = None → keeps_running d →
  (∀ j, steady b j → E Unexpected j) →
  triple E (steady b) (update d) (fun _ => steady b).
Proof.
  intros Hd Hk HE. apply steady_update; [exact Hk | | exact HE].
  intros s Hs. rewrite progress_of_update_keep by exact Hd. lia.
Qed.

Lemma steady_update_progress E (b p : Z) (d : gmap string pyval) :
  d !! "progress" = Some (PInt p) → keeps_running d → (b <= p)%Z →
  (∀ j, steady b j → E Unexpected j) →
  triple E (steady b) (update d) (fun _ => steady p).
Proof.
  intros Hd Hk Hbp HE. apply steady_update; [exact Hk | | exact HE].
  intros s Hs. rewrite (progress_of_update_set _ _ _ Hd). lia.
Qed.

Lemma steady_read_status E (b : Z) (key : string) :
  triple E (steady b) (read_status key) (fun _ => steady b).
Proof.
  intros j Hj. pose proof Hj as (Hot & _).
  unfold read_status, mbind, worker_bind, interfere, own_read. rewrite Hot. exact Hj.
Qed.

Lemma steady_silent {A} E (b : Z) (m : Worker A) :
  (∀ j, scraper_status (m j).2 = scraper_status j ∧ snapshots (m j).2 = snapshots j
        ∧ updates (m j).2 = updates j ∧ others (m j).2 = others j
        ∧ faults (m j).2 = faults j) →
  (∀ e j, steady b j → E e j) →
  triple E (steady b) m (fun _ => steady b).
Proof. intros Hm HE. apply triple_frame; [exact Hm | apply steady_frame | exact HE]. Qed.

Lemma in_world_frame {A} (f : World → A * World) (j : Job) :
  scraper_status (in_world f j).2 = scraper_status j
  ∧ snapshots (in_world f j).2 = snapshots j
  ∧ updates (in_world f j).2 = updates j ∧ others (in_world f j).2 = others j
  ∧ faults (in_world f j).2 = faults j.
Proof. unfold in_world. destruct (f (world j)) as [a w]. auto. Qed.

Lemma crawl_frame (scraper_config : JewelryScraperConfig) (category_url : string) (j : Job) :
  let r := crawl BeautifulSoup server fuel scraper_config category_url j in
  scraper_status r.2 = scraper_status j ∧ snapshots r.2 = snapshots j
  ∧ updates r.2 = updates j ∧ others r.2 = others j ∧ faults r.2 = faults j.
Proof.
  unfold crawl. destruct (scrape_category _ _ _ _ _ _) as [[[links|e] w]|]; simpl; auto.
Qed.

Lemma fetch_frame (link : string) (j : Job) :
  let r := fetch server link j in
  scraper_status r.2 = scraper_status j ∧ snapshots r.2 = snapshots j
  ∧ updates r.2 = updates j ∧ others r.2 = others j ∧ faults r.2 = faults j.
Proof.
  unfold fetch. destruct (get_page _ _ _ _ _) as [[html|e] w]; simpl; auto.
Qed.

Lemma pause_frame (seconds : Q) (j : Job) :
  scraper_status (pause seconds j).2 = scraper_status j
  ∧ snapshots (pause seconds j).2 = snapshots j
  ∧ updates (pause seconds j).2 = updates j ∧ others (pause seconds j).2 = others j
  ∧ faults (pause seconds j).2 = faults j.
Proof. unfold pause. destruct (time_sleep _ _) as [w|e]; simpl; auto. Qed.

Lemma feeds_frame (j : Job) :
  scraper_status (feeds generate_feeds j).2 = scraper_status j
  ∧ snapshots (feeds generate_feeds j).2 = snapshots j
  ∧ updates (feeds generate_feeds j).2 = updates j
  ∧ others (feeds generate_feeds j).2 = others j
  ∧ faults (feeds generate_feeds j).2 = faults j.
Proof. unfold feeds. destruct (generate_feeds _ _); simpl; auto. Qed.

Local Abbreviation E := abrupt_state.

Lemma steady_abrupt (b : Z) (e : abrupt) (j : Job) :
  (b <= 90)%Z → steady b j → abrupt_state e j.
Proof. intros Hb Hj. left. exact (steady_le b 90 j Hb Hj). Qed.

Lemma steady_guarded (b b' : Z) (e : abrupt) (j : Job) :
  (b <= b')%Z → (b <= 90)%Z → steady b j → guarded (steady b') abrupt_state e j.
Proof.
  intros Hb Hb90 Hj. destruct e; simpl.
  - exact (steady_le b b' j Hb Hj).
  - exact (steady_abrupt b Hang j Hb90 Hj).
Qed.

Lemma steady_category_loop (scraper_config : JewelryScraperConfig) (total : Z)
    (category_urls all_product_links : list string) (processed : Z) :
  (0 <= processed)%Z → (processed + Z.of_nat (length category_urls) <= total)%Z →
  triple E (steady (category_progress processed total))
    (category_loop BeautifulSoup server fuel scraper_config total category_urls
       all_product_links processed)
    (fun _ => steady 30).
Proof.
  revert all_product_links processed.
  induction category_urls as [|category_url rest IH]; intros all processed Hp Hlen.
  - simpl. apply triple_weaken with (P := steady 30) (Q := fun _ => steady 30);
      [apply triple_ret | | auto].
    intros j Hj. eapply steady_le; [|exact Hj].
    apply category_progress_le_30. simpl in Hlen. lia.
  - simpl in Hlen. simpl.
    set (cur := category_progress processed total).
    set (next := category_progress (processed + 1) total).
    assert (Hcur : (cur <= 90)%Z).
    { pose proof (category_progress_le_30 processed total ltac:(lia)). unfold cur. lia. }
    assert (Hnext : (next <= 90)%Z).
    { pose proof (category_progress_le_30 (processed + 1) total ltac:(lia)).
      unfold next. lia. }
    assert (Hmono : (cur <= next)%Z) by (apply category_progress_mono; lia).
    eapply triple_bind.
    { apply steady_update_keep; [reflexivity | keep_running|].
      intros j Hj. exact (steady_abrupt cur _ j Hcur Hj). }
    intros ?.
    apply triple_bind with (Q := fun _ => steady cur).
    { apply triple_attempt with (H := steady cur); [|auto].
      apply steady_silent; [apply crawl_frame|].
      intros e j Hj. exact (steady_guarded cur cur e j (Z.le_refl _) Hcur Hj). }
    intros [category_links|].
    + apply triple_bind with (Q := fun _ => steady next).
      * apply triple_try_except with (H := steady next).
        -- eapply triple_bind; [apply steady_read_status|]. intros pages_crawled.
           eapply triple_bind; [apply steady_read_status|]. intros total_pages.
           apply steady_update_progress; [reflexivity | keep_running | exact Hmono|].
           intros j Hj. exact (steady_le _ _ j Hmono Hj).
        -- apply steady_silent; [intros j; simpl; auto|].
           intros e j Hj. exact (steady_abrupt next _ j Hnext Hj).
      * intros ?. apply IH; lia.
    + eapply triple_bind.
      { apply steady_silent with (m := add_error); [intros j; simpl; auto|].
        intros e j Hj. exact (steady_abrupt cur _ j Hcur Hj). }
      intros ?. apply IH; lia.
Qed.

Lemma steady_process_product EE (b : Z) (link : string) :
  (∀ e j, steady b j → EE e j) →
  triple EE (steady b) (process_product BeautifulSoup server strftime link)
    (fun _ => steady b).
Proof.
  intros HE. unfold process_product.
  eapply triple_bind; [apply steady_silent; [apply fetch_frame | exact HE]|].
  intros html.
  destruct (PyStr.truthy_opt html); [|apply triple_ret].
  eapply triple_bind; [apply steady_silent; [apply in_world_frame | exact HE]|].
  intros now.
  destruct (parse_product_page _ _ _ _) as [product|]; [|apply triple_ret].
  destruct (is_unavailable product).
  - eapply triple_bind.
    { apply steady_silent with (m := append_unavailable product);
        [intros j; simpl; auto | exact HE]. }
    intros n. apply steady_update_keep; [reflexivity | keep_running | apply HE].
  - eapply triple_bind.
    { apply steady_silent with (m := append_available product);
        [intros j; simpl; auto | exact HE]. }
    intros n. apply steady_update_keep; [reflexivity | keep_running | apply HE].
Qed.

Lemma steady_product_body EE (config : JobConfig) (start_time len i : Z) (link : string) :
  (0 <= i)%Z → (i + 1 <= len)%Z →
  (∀ e j, steady (30 + 60 * (i + 1) / len) j → EE e j) →
  triple EE (steady (30 + 60 * i / len))
    (product_body BeautifulSoup server strftime time_time config start_time len i link)
    (fun _ => steady (30 + 60 * (i + 1) / len)).
Proof.
  intros Hi Hlen HE. unfold product_body.
  set (cur := (30 + 60 * i / len)%Z).
  set (next := (30 + 60 * (i + 1) / len)%Z) in *.
  assert (Hmono : (cur <= next)%Z).
  { unfold cur, next.
    assert (60 * i / len <= 60 * (i + 1) / len)%Z by (apply Z.div_le_mono; lia). lia. }
  assert (HEcur : ∀ e j, steady cur j → EE e j).
  { intros e j Hj. apply HE. exact (steady_le cur next j Hmono Hj). }
  eapply triple_bind; [apply steady_update_keep; [reflexivity | keep_running | apply HEcur]|].
  intros ?. apply triple_bind with (Q := fun _ => steady next).
  { assert (Hpp : product_progress i len = next)
      by (rewrite product_progress_floor by lia; reflexivity).
    apply triple_weaken with (P := steady cur)
                             (Q := fun _ => steady (product_progress i len));
      [|auto | intros _ j Hj; rewrite Hpp in Hj; exact Hj].
    apply steady_update_progress;
      [reflexivity | keep_running | rewrite Hpp; exact Hmono | apply HEcur]. }
  intros ?. eapply triple_bind; [apply steady_process_product; exact HE|].
  intros ?. eapply triple_bind; [apply steady_silent; [apply in_world_frame | exact HE]|].
  intros now.
  eapply triple_bind; [apply steady_update_keep; [reflexivity | keep_running | apply HE]|].
  intros ?. destruct (i mod 10 =? 0)%Z.
  - destruct (request_delay config) as [delay|].
    + apply steady_silent; [apply pause_frame | exact HE].
    + apply triple_raise. apply HE.
  - apply steady_silent; [apply pause_frame | exact HE].
Qed.

Lemma steady_product_loop (config : JobConfig) (start_time len : Z)
    (links : list string) (i : Z) :
  (0 <= i)%Z → (i + Z.of_nat (length links) <= len)%Z →
  triple E (steady (30 + 60 * i / len))
    (product_loop BeautifulSoup server strftime time_time config start_time len i links)
    (fun _ => steady 90).
Proof.
  revert i. induction links as [|link rest IH]; intros i Hi Hlen.
  - simpl. apply triple_weaken with (P := steady 90) (Q := fun _ => steady 90);
      [apply triple_ret | | auto].
    intros j Hj. eapply steady_le; [|exact Hj]. simpl in Hlen.
    destruct (decide (len = 0%Z)) as [->|Hne].
    + rewrite Z.div_0_r. lia.
    + assert (60 * i / len <= 60)%Z by (apply Z.div_le_upper_bound; lia). lia.
  - simpl in Hlen. simpl product_loop.
    assert (Hnext : (30 + 60 * (i + 1) / len <= 90)%Z).
    { assert (60 * (i + 1) / len <= 60)%Z by (apply Z.div_le_upper_bound; lia). lia. }
    apply triple_bind with (Q := fun _ => steady (30 + 60 * (i + 1) / len)).
    + apply triple_try_except with (H := steady (30 + 60 * (i + 1) / len)).
      * apply steady_product_body; [lia | lia|].
        intros e j Hj.
        exact (steady_guarded _ _ e j (Z.le_refl _) Hnext Hj).
      * apply steady_silent with (m := add_warning); [intros j; simpl; auto|].
        intros e j Hj. exact (steady_abrupt _ _ j Hnext Hj).
    + intros ?. apply (IH (i + 1)%Z); lia.
Qed.

Lemma ended_after_final (d : gmap string pyval) (j : Job) :
  steady 90 j →
  d !! "progress" = Some (PInt 100) → d !! "status" = Some (PStr "Idle") →
  ended (set_status (update_scraper_status d (scraper_status j)) (add_update d j)).
Proof.
  intros (Hot & Hsorted & Hle & Hrun & Hni & Hb & Hlen & first & rest & Hup & Hfirst & Hrest)
    Hd Hst.
  exists (snapshots j), first, rest, d. simpl.
  split; [exact Hot | split; [reflexivity | split; [exact Hsorted|]]].
  split; [eapply Forall_impl; [exact Hle|]; simpl; intros; lia|].
  split; [exact Hrun|].
  unfold update_scraper_status.
  split; [apply lookup_union_Some_l, Hst|].
  split; [apply lookup_union_Some_l, Hd|].
  split; [rewrite Hup; reflexivity|].
  split; [exact Hfirst | split; [exact Hrest|]].
  rewrite Hlen, Hup. reflexivity.
Qed.

Lemma steady_try_block (config : JobConfig) (scraper_config : JewelryScraperConfig)
    (start_time : Z) :
  triple E (steady 0)
    (try_block BeautifulSoup server strftime time_time generate_feeds fuel config
       scraper_config (Z.of_nat (length (CATEGORY_URLS scraper_config))) start_time)
    (fun _ => ended).
Proof.
  unfold try_block.
  assert (HE : ∀ b, (b <= 90)%Z → ∀ e j, steady b j → E e j).
  { intros b Hb e j Hj. exact (steady_abrupt b e j Hb Hj). }
  eapply triple_bind;
    [apply steady_update_keep; [reflexivity | keep_running | apply (HE 0%Z); lia]|].
  intros ?. apply triple_bind with (Q := fun _ => steady 30).
  { apply triple_weaken
      with (P := steady (category_progress 0
                           (Z.of_nat (length (CATEGORY_URLS scraper_config)))))
           (Q := fun _ => steady 30);
      [apply steady_category_loop; lia | | auto].
    intros j Hj. rewrite category_progress_zero. exact Hj. }
  intros all_product_links. cbv zeta.
  eapply triple_bind;
    [apply steady_update_keep; [reflexivity | keep_running | apply (HE 30%Z); lia]|].
  intros ?. apply triple_bind with (Q := fun _ => steady 90).
  { match goal with
    | |- triple _ _ (product_loop _ _ _ _ _ _ ?len _ _) _ =>
        apply triple_weaken with (P := steady (30 + 60 * 0 / len)) (Q := fun _ => steady 90);
          [apply steady_product_loop; lia | | auto]
    end.
    intros j Hj. apply steady_le with 30%Z; [|exact Hj].
    rewrite Z.mul_0_r. change (0 / ?x)%Z with 0%Z. lia. }
  intros ?. eapply triple_bind.
  { apply steady_update_progress with (p := 90%Z);
      [reflexivity | keep_running | lia | apply (HE 90%Z); lia]. }
  intros ?. apply triple_bind with (Q := fun _ => steady 90).
  { apply triple_try_except with (H := steady 90).
    - eapply triple_bind.
      { apply steady_silent; [apply feeds_frame|].
        intros e j Hj. exact (steady_guarded 90 90 e j (Z.le_refl _) (Z.le_refl _) Hj). }
      intros ?. apply steady_update_keep; [reflexivity | keep_running | auto].
    - eapply triple_bind.
      { apply steady_silent with (m := add_error); [intros j; simpl; auto|].
        apply (HE 90%Z). lia. }
      intros ?. apply steady_update_keep;
        [reflexivity | keep_running | apply (HE 90%Z); lia]. }
  intros ?. eapply triple_bind;
    [apply steady_silent; [apply in_world_frame | apply (HE 90%Z); lia]|].
  intros now. apply triple_bind with (Q := fun _ => ended).
  { intros j Hj. pose proof Hj as (Hot & _).
    destruct (update_alone (list_to_map
                [("status", PStr "Idle"); ("progress", PInt 100);
                 ("time_elapsed", PStr (format_time_elapsed (now - start_time)))]) j Hot)
      as (j0 & Hst & Hsn & Hup & Hot0 & _ & _ & Hrun).
    assert (Hj0 : steady 90 j0).
    { unfold steady in *. rewrite Hst, Hsn, Hup, Hot0. exact Hj. }
    destruct Hrun as [[-> _] | ->].
    - left. exact Hj0.
    - apply ended_after_final; [exact Hj0 | reflexivity | reflexivity]. }
  intros ? j Hj. unfold fault_point.
  assert (Hj' : ∀ rest, ended (set_faults rest j)).
  { intros rest. destruct Hj as (earlier & first & r & final & Hj).
    exists earlier, first, r, final. exact Hj. }
  destruct (faults j) as [|[|] rest]; [exact Hj | right; split; [reflexivity|] | ];
    apply Hj'.
Qed.

(** How a run on its own ends, by outcome. *)
Lemma alone_run (config : JobConfig) (history_len : nat) (j : Job) :
  snapshots j = [] → updates j = [] → others j = [] →
  let run := scraper_thread BeautifulSoup server strftime time_time generate_feeds fuel
               config history_len j in
  match run.1 with
  | Completed => ended run.2
  | Hung => steady 90 run.2
  | Died => steady 0 run.2
  | Failed => ∃ j', (steady 90 j' ∨ ended j')
                    ∧ run.2 = set_status
                                (update_scraper_status failure_update (scraper_status j'))
                                (add_update failure_update j')
  end.
Proof.
  intros Hsn Hup Hot. unfold scraper_thread. cbv zeta.
  match goal with
  | |- context [configure _ (snd (write_status ?d ?j))] =>
      pose proof (steady_first_write d j Hsn Hup Hot eq_refl eq_refl) as Hj1;
      set (j1 := snd (write_status d j)) in *
  end.
  assert (Hconf : match configure config j1 with
                  | (inl (scraper_config, total), j2) =>
                      steady 0 j2
                      ∧ total = Z.of_nat (length (CATEGORY_URLS scraper_config))
                  | (inr _, j2) => steady 0 j2
                  end).
  { unfold configure.
    destruct (base_url config); [|exact Hj1].
    destruct (user_agent config); [|exact Hj1].
    destruct (categories config); [|exact Hj1].
    unfold mbind, worker_bind, fault_point.
    assert (Hf : ∀ rest, steady 0 (set_faults rest j1)) by (intros rest; exact Hj1).
    destruct (faults j1) as [|[|] rest]; simpl; auto. }
  destruct (configure config j1) as [[[scraper_config total]|e] j2]; [|exact Hconf].
  destruct Hconf as [Hj2 ->].
  pose proof (steady_try_block config scraper_config (time_time (world j)) j2 Hj2) as H.
  destruct (try_block _ _ _ _ _ _ _ _ _ _ j2) as [[[]|[|]] j3]; simpl.
  - exact H.
  - exists j3. split.
    + destruct H as [H | [_ H]]; [left | right]; exact H.
    + assert (Hot3 : others j3 = []).
      { destruct H as [(Hot3 & _) | [_ (? & ? & ? & ? & Hot3 & _)]]; exact Hot3. }
      unfold write_status, mbind, worker_bind, interfere, own_write. rewrite Hot3.
      reflexivity.
  - destruct H as [H | [Habs _]]; [exact H | discriminate Habs].
Qed.

Lemma ended_sorted (j : Job) : ended j → Sorted Z.le (progress_of <$> snapshots j).
Proof.
  intros (earlier & first & rest & final & _ & Hsn & Hsorted & Hle & _ & _ & Hp & _).
  rewrite Hsn, fmap_app. simpl. rewrite (progress_of_lookup _ _ Hp).
  apply Sorted_snoc; [exact Hsorted|]. apply Forall_fmap. exact Hle.
Qed.

Lemma steady_sorted (b : Z) (j : Job) :
  steady b j → Sorted Z.le (progress_of <$> snapshots j).
Proof. intros (_ & Hsorted & _). exact Hsorted. Qed.

(** C7 (as amended). In a run of the worker during which no other thread
    writes the status, whatever the site answers, wherever an exception
    strikes and however the run ends, the progress values of the statuses
    that the run makes visible never decrease from one to the next; the
    one exception is the last write of a failed run, which resets the
    progress to 0 in the same update that sets the status to "Idle". *)
Theorem progress_never_decreases (config : JobConfig) (history_len : nat)
    (status0 : gmap string pyval) (w : World) (faults : list bool) :
  let run := scraper_thread BeautifulSoup server strftime time_time generate_feeds fuel
               config history_len (new_job status0 w faults []) in
  match run.1 with
  | Failed =>
      ∃ earlier closing,
        snapshots run.2 = earlier ++ [closing]
        ∧ Sorted Z.le (progress_of <$> earlier)
        ∧ closing !! "status" = Some (PStr "Idle")
        ∧ closing !! "progress" = Some (PInt 0)
  | _ => Sorted Z.le (progress_of <$> snapshots run.2)
  end.
Proof.
  intros run.
  pose proof (alone_run config history_len (new_job status0 w faults [])
                eq_refl eq_refl eq_refl) as Hrun.
  cbv zeta in Hrun. fold run in Hrun.
  destruct (run.1).
  - apply ended_sorted, Hrun.
  - destruct Hrun as (j' & Hj' & ->).
    destruct (failure_update_lookup (scraper_status j')) as (Hst & Hp & _).
    exists (snapshots j'), (update_scraper_status failure_update (scraper_status j')).
    split; [reflexivity|]. split; [|split; assumption].
    destruct Hj' as [Hj' | Hj']; [exact (steady_sorted _ _ Hj') | apply ended_sorted, Hj'].
  - exact (steady_sorted _ _ Hrun).
  - exact (steady_sorted _ _ Hrun).
Qed.

(** The statuses and the updates of a run on its own, by outcome: those
    written while the job is under way, none of which reads "Idle", then
    the closing ones, which do. *)
Lemma alone_run_shape (config : JobConfig) (history_len : nat)
    (status0 : gmap string pyval) (w : World) (faults : list bool) :
  let run := scraper_thread BeautifulSoup server strftime time_time generate_feeds fuel
               config history_len (new_job status0 w faults []) in
  ∃ under_way closing first rest final,
    snapshots run.2 = under_way ++ closing
    ∧ Forall (fun s => not_idle s = true) under_way
    ∧ Forall (fun s => not_idle s = false) closing
    ∧ updates run.2 = first :: rest ++ final
    ∧ marks_running first ∧ Forall keeps_running rest
    ∧ length under_way = S (length rest)
    ∧ length closing = length final
    ∧ match run.1 with
      | Completed => length closing = 1
      | Failed => 1 <= length closing <= 2
      | Hung | Died => closing = []
      end.
Proof.
  intros run.
  pose proof (alone_run config history_len (new_job status0 w faults [])
                eq_refl eq_refl eq_refl) as Hrun.
  cbv zeta in Hrun. fold run in Hrun.
  assert (Hsteady : ∀ b j, steady b j →
            ∃ under_way closing first rest final,
              snapshots j = under_way ++ closing
              ∧ Forall (fun s => not_idle s = true) under_way
              ∧ Forall (fun s => not_idle s = false) closing
              ∧ updates j = first :: rest ++ final
              ∧ marks_running first ∧ Forall keeps_running rest
              ∧ length under_way = S (length rest)
              ∧ length closing = length final
              ∧ closing = []).
  { intros b j (_ & _ & _ & Hni & _ & _ & Hlen & first & rest & Hup & Hfirst & Hrest).
    exists (snapshots j), [], first, rest, []. rewrite !app_nil_r.
    split; [reflexivity | split; [exact Hni | split; [apply Forall_nil_2|]]].
    split; [exact Hup | split; [exact Hfirst | split; [exact Hrest|]]].
    split; [rewrite Hlen, Hup; reflexivity|]. split; reflexivity. }
  assert (Hended : ∀ j, ended j →
            ∃ under_way closing first rest final,
              snapshots j = under_way ++ closing
              ∧ Forall (fun s => not_idle s = true) under_way
              ∧ Forall (fun s => not_idle s = false) closing
              ∧ updates j = first :: rest ++ final
              ∧ marks_running first ∧ Forall keeps_running rest
              ∧ length under_way = S (length rest)
              ∧ length closing = length final
              ∧ length closing = 1).
  { intros j (earlier & first & rest & final & _ & Hsn & _ & _ & Hni & Hst & _ & Hup
              & Hfirst & Hrest & Hlen).
    exists earlier, [scraper_status j], first, rest, [final].
    split; [exact Hsn | split; [exact Hni | split]].
    { apply Forall_cons_2; [apply idle_of_status, Hst | apply Forall_nil_2]. }
    split; [exact Hup | split; [exact Hfirst | split; [exact Hrest|]]].
    split; [exact Hlen|]. split; reflexivity. }
  destruct (run.1).
  - destruct (Hended _ Hrun) as (u & c & f & r & fin & H). exists u, c, f, r, fin. exact H.
  - destruct Hrun as (j' & Hj' & ->).
    destruct (failure_update_lookup (scraper_status j')) as (Hst & _).
    assert (Hshape : ∃ under_way closing first rest final,
              snapshots j' = under_way ++ closing
              ∧ Forall (fun s => not_idle s = true) under_way
              ∧ Forall (fun s => not_idle s = false) closing
              ∧ updates j' = first :: rest ++ final
              ∧ marks_running first ∧ Forall keeps_running rest
              ∧ length under_way = S (length rest)
              ∧ length closing = length final
              ∧ length closing <= 1).
    { destruct Hj' as [Hj' | Hj'].
      - destruct (Hsteady _ _ Hj') as (u & c & f & r & fin & H1 & H2 & H3 & H4 & H5 & H6
                                       & H7 & H8 & ->).
        exists u, [], f, r, fin. repeat (split; [assumption|]). simpl. lia.
      - destruct (Hended _ Hj') as (u & c & f & r & fin & H1 & H2 & H3 & H4 & H5 & H6
                                    & H7 & H8 & H9).
        exists u, c, f, r, fin. repeat (split; [assumption|]). lia. }
    destruct Hshape as (u & c & f & r & fin & Hsn & Hu & Hc & Hup & Hf & Hr & Hlen & Hlen'
                        & Hone).
    exists u, (c ++ [update_scraper_status failure_update (scraper_status j')]),
      f, r, (fin ++ [failure_update]).
    simpl. rewrite Hsn, Hup, <- app_comm_cons, <- !List.app_assoc.
    split; [reflexivity | split; [exact Hu | split]].
    { apply Forall_app. split; [exact Hc|].
      apply Forall_cons_2; [apply idle_of_status, Hst | apply Forall_nil_2]. }
    split; [reflexivity | split; [exact Hf | split; [exact Hr|]]].
    split; [exact Hlen|]. rewrite !length_app, Hlen'. simpl. split; lia.
  - destruct (Hsteady _ _ Hrun) as (u & c & f & r & fin & H1 & H2 & H3 & H4 & H5 & H6
                                    & H7 & H8 & H9).
    exists u, c, f, r, fin. repeat (split; [assumption|]). exact H9.
  - destruct (Hsteady _ _ Hrun) as (u & c & f & r & fin & H1 & H2 & H3 & H4 & H5 & H6
                                    & H7 & H8 & H9).
    exists u, c, f, r, fin. repeat (split; [assumption|]). exact H9.
Qed.

End SteadyFacts.

(** ** The progress values that a run writes *)

Lemma progress_writes_snoc (us : list (gmap string pyval)) (d : gmap string pyval) :
  progress_writes (us ++ [d])
  = progress_writes us ++ match d !! "progress" with Some v => [v] | None => [] end.
Proof.
  unfold progress_writes. rewrite omap_app. simpl.
  destruct (d !! "progress"); reflexivity.
Qed.

Lemma Sorted_lt_snoc (l : list Z) (x : Z) :
  Sorted Z.lt l → Forall (fun y => (y < x)%Z) l → Sorted Z.lt (l ++ [x]).
Proof.
  induction l as [|y l IH]; intros Hs Hall; simpl.
  - repeat constructor.
  - apply Sorted_inv in Hs as [Hs Hhd]. apply Forall_cons_1 in Hall as [Hy Hall].
    constructor; [apply IH; assumption|].
    destruct l as [|z l]; simpl; constructor.
    + exact Hy.
    + apply HdRel_inv in Hhd. exact Hhd.
Qed.

Lemma seqZ_snoc (p : Z) : (0 <= p)%Z → seqZ 1 (p + 1) = seqZ 1 p ++ [(p + 1)%Z].
Proof.
  intros Hp. rewrite seqZ_app by lia. simpl. f_equal.
  replace (1 + p)%Z with (p + 1)%Z by lia. reflexivity.
Qed.

(** What the other threads do leaves the record of this run's updates
    and the exceptions to come as they are. *)
Lemma other_writes_frame (ds : list (gmap string pyval)) (j : Job) :
  updates (foldl other_write j ds) = updates j
  ∧ faults (foldl other_write j ds) = faults j
  ∧ others (foldl other_write j ds) = others j
  ∧ products (foldl other_write j ds) = products j
  ∧ unavailable_products (foldl other_write j ds) = unavailable_products j.
Proof.
  revert j. induction ds as [|d ds IH]; intros j; simpl; [auto|].
  destruct (IH (other_write j d)) as (H1 & H2 & H3 & H4 & H5).
  rewrite H1, H2, H3, H4, H5. auto.
Qed.

Lemma interfere_frame (j : Job) :
  ∃ j', interfere j = (inl tt, j') ∧ updates j' = updates j ∧ faults j' = faults j
        ∧ products j' = products j
        ∧ unavailable_products j' = unavailable_products j
        ∧ others j' = tail (others j).
Proof.
  unfold interfere. destruct (others j) as [|ds rest] eqn:Hot.
  - exists j. rewrite Hot. auto 10.
  - eexists. split; [reflexivity|].
    destruct (other_writes_frame ds (set_others rest j)) as (H1 & H2 & H3 & H4 & H5).
    rewrite H1, H2, H3, H4, H5. auto 10.
Qed.

(** A status update inside the outer [try], as seen in the record of the
    updates and in the exceptions to come. *)
Lemma update_record (d : gmap string pyval) (j : Job) :
  ∃ j', (update d j = (inr Unexpected, j') ∧ updates j' = updates j
         ∧ ∃ rest, faults j = true :: rest ∧ faults j' = rest)
        ∨ (update d j = (inl tt, j') ∧ updates j' = updates j ++ [d]
           ∧ faults j' = tail (faults j) ∧ hd false (faults j) = false).
Proof.
  unfold update, write_status, mbind, worker_bind, fault_point.
  destruct (faults j) as [|[|] rest] eqn:Hf.
  - destruct (interfere_frame j) as (j' & -> & Hup & Hfa & _).
    eexists. right. unfold own_write. split; [reflexivity|]. simpl.
    rewrite Hup, Hfa, Hf. auto.
  - eexists. left. split; [reflexivity|]. simpl. eauto.
  - destruct (interfere_frame (set_faults rest j)) as (j' & -> & Hup & Hfa & _).
    eexists. right. unfold own_write. split; [reflexivity|]. simpl.
    rewrite Hup, Hfa. auto.
Qed.

Lemma read_status_record (key : string) (j : Job) :
  ∃ v j', read_status key j = (inl v, j') ∧ updates j' = updates j
          ∧ faults j' = faults j.
Proof.
  unfold read_status, mbind, worker_bind.
  destruct (interfere_frame j) as (j' & -> & Hup & Hfa & _).
  unfold own_read. eauto.
Qed.

Lemma calm_tail (faults : list bool) : calm faults → calm (tail faults).
Proof. destruct faults; [auto|]. intros H. apply Forall_cons_1 in H. apply H. Qed.

Section ProgressFacts.

Variable BeautifulSoup : string -> Soup.
Variable server : nat -> string -> response.
Variable strftime : World -> string -> string.
Variable time_time : World -> Z.
Variable generate_feeds : list Product -> list Product -> bool.
Variable fuel : nat.

(** No exception strikes during the run; the number of configured
    categories. *)
Variable quiet : Prop.
Variable n : Z.

Local Abbreviation stage := (progress_stage quiet n).

Lemma stage_frame (t p i : Z) (closing : list Z) (j j' : Job) :
  updates j' = updates j → faults j' = faults j →
  stage t p i closing j → stage t p i closing j'.
Proof.
  intros Hup Hfa. unfold progress_stage, written. rewrite Hup, Hfa. tauto.
Qed.

(** Once an exception has struck, the counts may be anything larger. *)
Lemma stage_bump (t p p' i i' : Z) (closing : list Z) (j : Job) :
  ¬ quiet → (p <= p')%Z → (i <= i')%Z →
  stage t p i closing j → stage t p' i' closing j.
Proof.
  intros Hq Hp Hi (ks & ms & Hw & Hks & Hkb & Hms & Hmb & _ & _).
  exists ks, ms. split; [exact Hw | split; [exact Hks | split]].
  { eapply Forall_impl; [exact Hkb|]. simpl. intros; lia. }
  split; [exact Hms | split].
  { eapply Forall_impl; [exact Hmb|]. simpl. intros; lia. }
  split; intros Habs; contradiction.
Qed.

(** An update that does not write the progress. *)
Lemma stage_update_keep EE (t p i : Z) (closing : list Z) (d : gmap string pyval) :
  d !! "progress" = None →
  (∀ j, stage t p i closing j ∧ ¬ quiet → EE Unexpected j) →
  triple EE (stage t p i closing) (update d) (fun _ => stage t p i closing).
Proof.
  intros Hd HE j Hj.
  destruct (update_record d j) as (j' & [(-> & Hup & rest & Hf & Hf')
                                        | (-> & Hup & Hf' & _)]).
  - apply HE.
    assert (Hnq : ¬ quiet).
    { intros Hq. destruct Hj as (ks & ms & _ & _ & _ & _ & _ & _ & Hcalm).
      specialize (Hcalm Hq). rewrite Hf in Hcalm.
      apply Forall_cons_1 in Hcalm as [Habs _]. discriminate Habs. }
    split; [|exact Hnq].
    destruct Hj as (ks & ms & Hw & Hks & Hkb & Hms & Hmb & _ & _).
    exists ks, ms. unfold written. rewrite Hup.
    repeat (split; [assumption|]). split; intros Habs; contradiction.
  - destruct Hj as (ks & ms & Hw & Hks & Hkb & Hms & Hmb & Hex & Hcalm).
    exists ks, ms. unfold written. rewrite Hup, progress_writes_snoc, Hd, app_nil_r.
    repeat (split; [assumption|]).
    intros Hq. rewrite Hf'. apply calm_tail, Hcalm, Hq.
Qed.

Lemma stage_silent {A} EE (t p i : Z) (closing : list Z) (m : Worker A) :
  (∀ j, updates (m j).2 = updates j ∧ faults (m j).2 = faults j) →
  (∀ e j, stage t p i closing j → EE e j) →
  triple EE (stage t p i closing) m (fun _ => stage t p i closing).
Proof.
  intros Hm HE j Hj. destruct (Hm j) as [Hup Hfa].
  pose proof (stage_frame t p i closing j (m j).2 Hup Hfa Hj) as Hj'.
  destruct (m j) as [[a|e] j']; [exact Hj' | apply HE, Hj'].
Qed.

Lemma stage_read_status EE (t p i : Z) (closing : list Z) (key : string) :
  triple EE (stage t p i closing) (read_status key) (fun _ => stage t p i closing).
Proof.
  intros j Hj. destruct (read_status_record key j) as (v & j' & -> & Hup & Hfa).
  exact (stage_frame t p i closing j j' Hup Hfa Hj).
Qed.

(** The progress update after the [p + 1]-th completed category. *)
Lemma stage_update_category EE (t p : Z) (d : gmap string pyval) :
  (0 <= p)%Z →
  d !! "progress" = Some (PInt (category_progress (p + 1) n)) →
  (∀ j, stage t p 0 [] j ∧ ¬ quiet → EE Unexpected j) →
  triple EE (stage t p 0 []) (update d) (fun _ => stage t (p + 1) 0 []).
Proof.
  intros Hp Hd HE j Hj.
  destruct (update_record d j) as (j' & [(-> & Hup & rest & Hf & Hf')
                                        | (-> & Hup & Hf' & _)]).
  - apply HE.
    assert (Hnq : ¬ quiet).
    { intros Hq. destruct Hj as (ks & ms & _ & _ & _ & _ & _ & _ & Hcalm).
      specialize (Hcalm Hq). rewrite Hf in Hcalm.
      apply Forall_cons_1 in Hcalm as [Habs _]. discriminate Habs. }
    split; [|exact Hnq].
    destruct Hj as (ks & ms & Hw & Hks & Hkb & Hms & Hmb & _ & _).
    exists ks, ms. unfold written. rewrite Hup.
    repeat (split; [assumption|]). split; intros Habs; contradiction.
  - destruct Hj as (ks & ms & Hw & Hks & Hkb & Hms & Hmb & Hex & Hcalm).
    assert (ms = []) as ->.
    { destruct ms as [|m ms]; [reflexivity|].
      apply Forall_cons_1 in Hmb as [Hm _]. lia. }
    exists (ks ++ [(p + 1)%Z]), []. unfold written in *.
    rewrite Hup, progress_writes_snoc, Hd, Hw. simpl. rewrite !app_nil_r.
    split; [rewrite !fmap_app; reflexivity|].
    split.
    { apply Sorted_lt_snoc; [exact Hks|].
      eapply Forall_impl; [exact Hkb|]. simpl. intros; lia. }
    split.
    { apply Forall_app. split.
      - eapply Forall_impl; [exact Hkb|]. simpl. intros; lia.
      - apply Forall_cons_2; [lia | apply Forall_nil_2]. }
    split; [constructor | split; [apply Forall_nil_2|]].
    split.
    + intros Hq. destruct (Hex Hq) as [-> _]. split; [|reflexivity].
      symmetry. apply seqZ_snoc, Hp.
    + intros Hq. rewrite Hf'. apply calm_tail, Hcalm, Hq.
Qed.

(** The progress update for the link numbered [i + 1]. *)
Lemma stage_update_product EE (t p i : Z) (d : gmap string pyval) :
  (0 <= i)%Z →
  d !! "progress" = Some (PInt (product_progress i t)) →
  (∀ j, stage t p i [] j ∧ ¬ quiet → EE Unexpected j) →
  triple EE (stage t p i []) (update d) (fun _ => stage t p (i + 1) []).
Proof.
  intros Hi Hd HE j Hj.
  destruct (update_record d j) as (j' & [(-> & Hup & rest & Hf & Hf')
                                        | (-> & Hup & Hf' & _)]).
  - apply HE.
    assert (Hnq : ¬ quiet).
    { intros Hq. destruct Hj as (ks & ms & _ & _ & _ & _ & _ & _ & Hcalm).
      specialize (Hcalm Hq). rewrite Hf in Hcalm.
      apply Forall_cons_1 in Hcalm as [Habs _]. discriminate Habs. }
    split; [|exact Hnq].
    destruct Hj as (ks & ms & Hw & Hks & Hkb & Hms & Hmb & _ & _).
    exists ks, ms. unfold written. rewrite Hup.
    repeat (split; [assumption|]). split; intros Habs; contradiction.
  - destruct Hj as (ks & ms & Hw & Hks & Hkb & Hms & Hmb & Hex & Hcalm).
    exists ks, (ms ++ [(i + 1)%Z]). unfold written in *.
    rewrite Hup, progress_writes_snoc, Hd, Hw. simpl. rewrite !app_nil_r.
    split.
    { rewrite !fmap_app. simpl. rewrite <- !List.app_assoc.
      replace (i + 1 - 1)%Z with i by lia. reflexivity. }
    split; [exact Hks | split; [exact Hkb | split]].
    { apply Sorted_lt_snoc; [exact Hms|].
      eapply Forall_impl; [exact Hmb|]. simpl. intros; lia. }
    split.
    { apply Forall_app. split.
      - eapply Forall_impl; [exact Hmb|]. simpl. intros; lia.
      - apply Forall_cons_2; [lia | apply Forall_nil_2]. }
    split.
    + intros Hq. destruct (Hex Hq) as [-> ->]. split; [reflexivity|].
      symmetry. apply seqZ_snoc, Hi.
    + intros Hq. rewrite Hf'. apply calm_tail, Hcalm, Hq.
Qed.

(** One of the two closing progress updates of the [try] block. *)
Lemma stage_update_closing EE (t p i v : Z) (closing : list Z) (d : gmap string pyval) :
  d !! "progress" = Some (PInt v) →
  (∀ j, stage t p i closing j ∧ ¬ quiet → EE Unexpected j) →
  triple EE (stage t p i closing) (update d) (fun _ => stage t p i (closing ++ [v])).
Proof.
  intros Hd HE j Hj.
  destruct (update_record d j) as (j' & [(-> & Hup & rest & Hf & Hf')
                                        | (-> & Hup & Hf' & _)]).
  - apply HE.
    assert (Hnq : ¬ quiet).
    { intros Hq. destruct Hj as (ks & ms & _ & _ & _ & _ & _ & _ & Hcalm).
      specialize (Hcalm Hq). rewrite Hf in Hcalm.
      apply Forall_cons_1 in Hcalm as [Habs _]. discriminate Habs. }
    split; [|exact Hnq].
    destruct Hj as (ks & ms & Hw & Hks & Hkb & Hms & Hmb & _ & _).
    exists ks, ms. unfold written. rewrite Hup.
    repeat (split; [assumption|]). split; intros Habs; contradiction.
  - destruct Hj as (ks & ms & Hw & Hks & Hkb & Hms & Hmb & Hex & Hcalm).
    exists ks, ms. unfold written in *.
    rewrite Hup, progress_writes_snoc, Hd, Hw. simpl.
    split.
    { rewrite !fmap_app. simpl. rewrite <- !List.app_assoc. reflexivity. }
    repeat (split; [assumption|]).
    intros Hq. rewrite Hf'. apply calm_tail, Hcalm, Hq.
Qed.

Local Abbreviation E := (progress_abrupt quiet n).

Lemma stage_abrupt (t p i : Z) (closing : list Z) (e : abrupt) (j : Job) :
  (0 <= p <= n)%Z → (0 <= i <= t)%Z →
  closing ∈ [ []; [90%Z]; [90%Z; 100%Z] ] → (e = Hang → closing = []) →
  stage t p i closing j → E e j.
Proof. intros Hp Hi Hc Hh Hj. exists t, p, i, closing. auto. Qed.

Local Ltac other_keys := first [ reflexivity | discriminate ].

Lemma stage_category_loop (scraper_config : JewelryScraperConfig) (t : Z)
    (category_urls all_product_links : list string) (p : Z) :
  (0 <= t)%Z → (0 <= p)%Z → (p + Z.of_nat (length category_urls) <= n)%Z →
  triple E (stage t p 0 [])
    (category_loop BeautifulSoup server fuel scraper_config n category_urls
       all_product_links p)
    (fun _ j => ∃ p', (p <= p' <= n)%Z ∧ stage t p' 0 [] j).
Proof.
  intros Ht. revert all_product_links p.
  induction category_urls as [|category_url rest IH]; intros all p Hp Hlen.
  - simpl. intros j Hj. exists p. simpl in Hlen. split; [lia | exact Hj].
  - simpl in Hlen. simpl.
    assert (HE : ∀ p', (p <= p' <= p + 1)%Z → ∀ e j, stage t p' 0 [] j → E e j).
    { intros p' Hp' e j Hj.
      apply (stage_abrupt t p' 0 [] e j); [lia | lia | constructor | auto | exact Hj]. }
    eapply triple_bind.
    { apply stage_update_keep; [reflexivity|].
      intros j [Hj _]. apply (HE p); [lia | exact Hj]. }
    intros ?. apply triple_bind with (Q := fun _ => stage t p 0 []).
    { apply triple_attempt with (H := stage t p 0 []); [|auto].
      apply stage_silent.
      - intros j. unfold crawl.
        destruct (scrape_category _ _ _ _ _ _) as [[[links|e] w]|]; simpl; auto.
      - intros [|] j Hj; simpl; [exact Hj | apply (HE p); [lia | exact Hj]]. }
    intros [category_links|].
    + apply triple_bind with (Q := fun _ => stage t (p + 1) 0 []).
      * apply triple_try_except with (H := stage t (p + 1) 0 []).
        -- eapply triple_bind; [apply stage_read_status|]. intros pages_crawled.
           eapply triple_bind; [apply stage_read_status|]. intros total_pages.
           apply stage_update_category; [exact Hp | reflexivity|].
           intros j [Hj Hnq]. simpl.
           apply (stage_bump t p (p + 1) 0 0 [] j Hnq); [lia | lia | exact Hj].
        -- apply stage_silent with (m := add_error); [intros j; simpl; auto|].
           apply (HE (p + 1)%Z). lia.
      * intros ?.
        apply triple_weaken
          with (P := stage t (p + 1) 0 [])
               (Q := fun _ j => ∃ p', (p + 1 <= p' <= n)%Z ∧ stage t p' 0 [] j);
          [apply IH; lia | auto|].
        intros _ j (p' & Hp' & Hj). exists p'. split; [lia | exact Hj].
    + eapply triple_bind.
      { apply stage_silent with (m := add_error); [intros j; simpl; auto|].
        apply (HE p). lia. }
      intros ?. apply IH; lia.
Qed.

Lemma stage_product_loop (config : JobConfig) (start_time t p : Z)
    (links : list string) (i : Z) :
  (0 <= p <= n)%Z → (0 <= i)%Z → (i + Z.of_nat (length links) = t)%Z →
  triple E (stage t p i [])
    (product_loop BeautifulSoup server strftime time_time config start_time t i links)
    (fun _ => stage t p t []).
Proof.
  intros Hp. revert i. induction links as [|link rest IH]; intros i Hi Hlen.
  - simpl in *. replace t with i by lia. apply triple_ret.
  - simpl in Hlen. simpl product_loop.
    assert (HE : ∀ i', (i <= i' <= i + 1)%Z → ∀ e j, stage t p i' [] j → E e j).
    { intros i' Hi' e j Hj.
      apply (stage_abrupt t p i' [] e j); [lia | lia | constructor | auto | exact Hj]. }
    assert (HG : ∀ e j, stage t p (i + 1) [] j →
                        guarded (stage t p (i + 1) []) E e j).
    { intros [|] j Hj; simpl; [exact Hj | apply (HE (i + 1)%Z); [lia | exact Hj]]. }
    assert (HB : ∀ j, stage t p i [] j ∧ ¬ quiet →
                      guarded (stage t p (i + 1) []) E Unexpected j).
    { intros j [Hj Hnq]. simpl.
      apply (stage_bump t p p i (i + 1) [] j Hnq); [lia | lia | exact Hj]. }
    apply triple_bind with (Q := fun _ => stage t p (i + 1) []).
    + apply triple_try_except with (H := stage t p (i + 1) []).
      * unfold product_body.
        eapply triple_bind; [apply stage_update_keep; [reflexivity | exact HB]|].
        intros ?. eapply triple_bind.
        { apply stage_update_product; [exact Hi | reflexivity | exact HB]. }
        intros ?. apply triple_bind with (Q := fun _ => stage t p (i + 1) []).
        { unfold process_product.
          eapply triple_bind.
          { apply stage_silent; [|exact HG].
            intros j. unfold fetch.
            destruct (get_page _ _ _ _ _) as [[html|e] w]; simpl; auto. }
          intros html. destruct (PyStr.truthy_opt html); [|apply triple_ret].
          eapply triple_bind.
          { apply stage_silent; [|exact HG].
            intros j. unfold in_world. simpl. auto. }
          intros now.
          destruct (parse_product_page _ _ _ _) as [product|]; [|apply triple_ret].
          destruct (is_unavailable product).
          - eapply triple_bind.
            { apply stage_silent with (m := append_unavailable product);
                [intros j; simpl; auto | exact HG]. }
            intros ?. apply stage_update_keep; [reflexivity|].
            intros j [Hj _]. apply HG, Hj.
          - eapply triple_bind.
            { apply stage_silent with (m := append_available product);
                [intros j; simpl; auto | exact HG]. }
            intros ?. apply stage_update_keep; [reflexivity|].
            intros j [Hj _]. apply HG, Hj. }
        intros ?. eapply triple_bind.
        { apply stage_silent; [|exact HG]. intros j. unfold in_world. simpl. auto. }
        intros now. eapply triple_bind.
        { apply stage_update_keep; [reflexivity|]. intros j [Hj _]. apply HG, Hj. }
        intros ?.
        assert (Hpause : ∀ seconds,
                  triple (guarded (stage t p (i + 1) []) E) (stage t p (i + 1) [])
                    (pause seconds) (fun _ => stage t p (i + 1) [])).
        { intros seconds. apply stage_silent; [|exact HG].
          intros j. unfold pause. destruct (time_sleep _ _); simpl; auto. }
        destruct (i mod 10 =? 0)%Z; [|apply Hpause].
        destruct (request_delay config) as [delay|]; [apply Hpause|].
        apply triple_raise. intros j Hj. exact Hj.
      * apply stage_silent with (m := add_warning); [intros j; simpl; auto|].
        apply (HE (i + 1)%Z). lia.
    + intros ?. apply (IH (i + 1)%Z); lia.
Qed.

Lemma stage_try_block (config : JobConfig) (scraper_config : JewelryScraperConfig)
    (start_time : Z) :
  (Z.of_nat (length (CATEGORY_URLS scraper_config)) = n)%Z →
  triple E (stage 0 0 0 [])
    (try_block BeautifulSoup server strftime time_time generate_feeds fuel config
       scraper_config n start_time)
    (fun _ j => ∃ t p, (0 <= p <= n)%Z ∧ (0 <= t)%Z ∧ stage t p t [90; 100]%Z j).
Proof.
  intros Hn. unfold try_block.
  eapply triple_bind.
  { apply stage_update_keep; [reflexivity|].
    intros j [Hj _].
    apply (stage_abrupt 0 0 0 [] _ j); [lia | lia | constructor | auto | exact Hj]. }
  intros ?.
  apply triple_bind with (Q := fun _ j => ∃ p, (0 <= p <= n)%Z ∧ stage 0 p 0 [] j).
  { apply stage_category_loop; lia. }
  intros all_product_links. cbv zeta.
  set (unique_links := elements (list_to_set all_product_links : gset string)).
  set (t := Z.of_nat (length unique_links)).
  intros j (p & Hp & Hj). revert j Hj.
  change (triple E (stage 0 p 0 [])
            (_ ← update (list_to_map [("status", PStr "Processing products");
                                      ("total_products", PInt t)]);
             _ ← product_loop BeautifulSoup server strftime time_time config start_time
                   t 0 unique_links;
             _ ← update (list_to_map [("status", PStr "Generating feeds");
                                      ("progress", PInt 90)]);
             _ ← try_except
                   (_ ← feeds generate_feeds; update {[ "feed_status" := PStr "Completed" ]})
                   (_ ← add_error; update {[ "feed_status" := PStr "Failed" ]});
             now ← in_world (fun w => (time_time w, w));
             _ ← update (list_to_map
                    [("status", PStr "Idle"); ("progress", PInt 100);
                     ("time_elapsed", PStr (format_time_elapsed (now - start_time)))]);
             fault_point)
            (fun _ j => ∃ t p, (0 <= p <= n)%Z ∧ (0 <= t)%Z ∧ stage t p t [90; 100]%Z j)).
  assert (Ht : (0 <= t)%Z) by (unfold t; lia).
  assert (Hretag : ∀ j, stage 0 p 0 [] j → stage t p 0 [] j).
  { intros j (ks & ms & Hw & Hks & Hkb & Hms & Hmb & Hex & Hcalm).
    assert (ms = []) as ->.
    { destruct ms as [|m ms]; [reflexivity|].
      apply Forall_cons_1 in Hmb as [Hm _]. lia. }
    exists ks, []. unfold written in *. rewrite Hw. auto 10. }
  assert (HE : ∀ i closing e j,
            (0 <= i <= t)%Z → closing ∈ [ []; [90%Z]; [90%Z; 100%Z] ] →
            (e = Hang → closing = []) → stage t p i closing j → E e j).
  { intros i closing e j Hi Hc Hh Hj.
    exact (stage_abrupt t p i closing e j Hp Hi Hc Hh Hj). }
  apply triple_weaken with (P := stage t p 0 [])
    (Q := fun _ j => ∃ t p, (0 <= p <= n)%Z ∧ (0 <= t)%Z ∧ stage t p t [90; 100]%Z j);
    [|exact Hretag | auto].
  eapply triple_bind.
  { apply stage_update_keep; [reflexivity|].
    intros j [Hj _]. apply (HE 0%Z [] _ j); [lia | constructor | auto | exact Hj]. }
  intros ?. eapply triple_bind; [apply stage_product_loop; [exact Hp | lia | unfold t; lia]|].
  intros ?. apply triple_bind with (Q := fun _ => stage t p t [90%Z]).
  { apply (stage_update_closing E t p t 90 []); [reflexivity|].
    intros j [Hj _]. apply (HE t [] _ j); [lia | constructor | auto | exact Hj]. }
  assert (H90 : ∀ e j, stage t p t [90%Z] j → e = Unexpected → E e j).
  { intros e j Hj ->.
    apply (HE t [90%Z] _ j); [lia | right; constructor | discriminate | exact Hj]. }
  intros ?. apply triple_bind with (Q := fun _ => stage t p t [90%Z]).
  { apply triple_try_except with (H := stage t p t [90%Z]).
    - apply triple_bind with (Q := fun _ => stage t p t [90%Z]).
      { intros j Hj. unfold feeds. destruct (generate_feeds _ _); exact Hj. }
      intros ?. apply stage_update_keep; [reflexivity|]. intros j [Hj _]. exact Hj.
    - apply triple_bind with (Q := fun _ => stage t p t [90%Z]).
      { intros j Hj. exact Hj. }
      intros ?. apply stage_update_keep; [reflexivity|].
      intros j [Hj _]. exact (H90 _ j Hj eq_refl). }
  intros ?. apply triple_bind with (Q := fun _ => stage t p t [90%Z]).
  { intros j Hj. exact Hj. }
  intros now. apply triple_bind with (Q := fun _ => stage t p t [90; 100]%Z).
  { apply (stage_update_closing E t p t 100 [90%Z]); [reflexivity|].
    intros j [Hj _]. exact (H90 _ j Hj eq_refl). }
  intros ? j Hj. unfold fault_point.
  assert (Hj' : ∀ rest, faults j = true :: rest → E Unexpected (set_faults rest j)).
  { intros rest Hf.
    destruct Hj as (ks & ms & Hw & Hks & Hkb & Hms & Hmb & _ & Hcalm).
    apply (HE t [90; 100]%Z _ _); [lia | right; right; constructor | discriminate|].
    exists ks, ms. repeat (split; [assumption|]).
    assert (Hnq : ¬ quiet).
    { intros Hq. specialize (Hcalm Hq). rewrite Hf in Hcalm.
      apply Forall_cons_1 in Hcalm as [Habs _]. discriminate Habs. }
    split; intros Habs; contradiction. }
  destruct (faults j) as [|[|] rest] eqn:Hf.
  - exists t, p. auto.
  - apply Hj'. reflexivity.
  - exists t, p. split; [exact Hp | split; [exact Ht|]].
    destruct Hj as (ks & ms & Hw & Hks & Hkb & Hms & Hmb & Hex & Hcalm).
    exists ks, ms. repeat (split; [assumption|]).
    intros Hq. specialize (Hcalm Hq). rewrite Hf in Hcalm.
    apply Forall_cons_1 in Hcalm. apply Hcalm.
Qed.

End ProgressFacts.

Lemma written_more (a b c : list Z) (v : Z) :
  (PInt <$> (0%Z :: a ++ b ++ c)) ++ [PInt v] = PInt <$> (0%Z :: a ++ b ++ c ++ [v]).
Proof.
  rewrite <- fmap_snoc. f_equal. simpl. rewrite <- !List.app_assoc. reflexivity.
Qed.

(** How far a run gets, by outcome, in terms of the progress values it
    has written. *)
Lemma progress_run (BeautifulSoup : string → Soup) (server : nat → string → response)
    (strftime : World → string → string) (time_time : World → Z)
    (generate_feeds : list Product → list Product → bool) (fuel : nat)
    (config : JobConfig) (history_len : nat) (j : Job) :
  updates j = [] →
  let run := scraper_thread BeautifulSoup server strftime time_time generate_feeds fuel
               config history_len j in
  let n := Z.of_nat (length (default [] (categories config))) in
  let quiet := calm (faults j) in
  match run.1 with
  | Completed =>
      ∃ t p, (0 <= p <= n)%Z ∧ (0 <= t)%Z ∧ progress_stage quiet n t p t [90; 100]%Z run.2
  | Failed =>
      ∃ t p i closing,
        (0 <= p <= n)%Z ∧ (0 <= i <= t)%Z ∧ closing ∈ [ []; [90%Z]; [90%Z; 100%Z] ]
        ∧ progress_stage quiet n t p i (closing ++ [0%Z]) run.2
  | Hung =>
      ∃ t p i, (0 <= p <= n)%Z ∧ (0 <= i <= t)%Z ∧ progress_stage quiet n t p i [] run.2
  | Died => progress_stage quiet n 0 0 0 [] run.2
  end.
Proof.
  intros Hup run n quiet. unfold run, scraper_thread. cbv zeta.
  match goal with
  | |- context [configure _ (snd (write_status ?d ?j))] =>
      assert (Hj1 : progress_stage quiet n 0 0 0 [] (snd (write_status d j)));
        [|set (j1 := snd (write_status d j)) in *]
  end.
  { unfold write_status, mbind, worker_bind.
    destruct (interfere_frame j) as (j' & -> & Hup' & Hfa' & _).
    exists [], []. unfold written, own_write. simpl. rewrite Hup', Hup, Hfa'.
    split; [reflexivity|]. split; [constructor|]. split; [apply Forall_nil_2|].
    split; [constructor|]. split; [apply Forall_nil_2|].
    split; [intros _; split; reflexivity|]. intros Hq. exact Hq. }
  clearbody j1.
  assert (Hconf : match configure config j1 with
                  | (inl (scraper_config, total), j2) =>
                      progress_stage quiet n 0 0 0 [] j2
                      ∧ total = n
                      ∧ Z.of_nat (length (CATEGORY_URLS scraper_config)) = n
                  | (inr _, j2) => progress_stage quiet n 0 0 0 [] j2
                  end).
  { unfold configure, n.
    destruct (base_url config) as [base|]; [|exact Hj1].
    destruct (user_agent config) as [agent|]; [|exact Hj1].
    destruct (categories config) as [cats|]; [|exact Hj1].
    unfold mbind, worker_bind, fault_point.
    destruct Hj1 as (ks & ms & Hw & Hks & Hkb & Hms & Hmb & Hex & Hcalm).
    destruct (faults j1) as [|[|] rest] eqn:Hf; simpl.
    - split; [|split; reflexivity].
      exists ks, ms. rewrite Hf. repeat (split; [assumption|]). exact Hcalm.
    - exists ks, ms. clear Hex. repeat (split; [assumption|]).
      assert (Hnq : ¬ quiet).
      { intros Hq. specialize (Hcalm Hq).
        apply Forall_cons_1 in Hcalm as [Habs _]. discriminate Habs. }
      split; intros Habs; contradiction.
    - split; [|split; reflexivity].
      exists ks, ms. repeat (split; [assumption|]).
      intros Hq. specialize (Hcalm Hq). apply Forall_cons_1 in Hcalm. apply Hcalm. }
  destruct (configure config j1) as [[[scraper_config total]|e] j2]; [|exact Hconf].
  destruct Hconf as (Hj2 & -> & Hn).
  pose proof (stage_try_block BeautifulSoup server strftime time_time generate_feeds
                fuel quiet n config scraper_config (time_time (world j)) Hn j2 Hj2) as H.
  destruct (try_block _ _ _ _ _ _ _ _ _ _ j2) as [[[]|[|]] j3]; simpl.
  - exact H.
  - destruct H as (t & p & i & closing & Hp & Hi & Hc & _ & Hj3).
    exists t, p, i, closing. split; [exact Hp | split; [exact Hi | split; [exact Hc|]]].
    unfold write_status, mbind, worker_bind.
    destruct (interfere_frame j3) as (j' & -> & Hup' & Hfa' & _).
    destruct Hj3 as (ks & ms & Hw & Hrest).
    exists ks, ms. unfold written in *. unfold own_write. simpl.
    rewrite Hup', Hfa', progress_writes_snoc, Hw.
    split; [|exact Hrest].
    change (failure_update !! "progress") with (Some (PInt 0)).
    exact (written_more _ _ _ 0%Z).
  - destruct H as (t & p & i & closing & Hp & Hi & _ & Hh & Hj3).
    rewrite (Hh eq_refl) in Hj3. exists t, p, i. auto.
Qed.

(** ** Invariants that any status update keeps *)

Section AnyUpdate.

Variable BeautifulSoup : string -> Soup.
Variable server : nat -> string -> response.
Variable strftime : World -> string -> string.
Variable time_time : World -> Z.
Variable generate_feeds : list Product -> list Product -> bool.
Variable fuel : nat.

(** [I] holds while the job is under way, [I'] from the final update of
    the [try] block on. *)
Variables I I' : Job -> Prop.
Hypothesis I_insensitive : insensitive I.
Hypothesis I'_insensitive : insensitive I'.
Hypothesis I_write : forall update_dict j,
  keeps_running update_dict -> I j -> I (snd (write_status update_dict j)).
Hypothesis I_read : forall key j, I j -> I (snd (read_status key j)).
Hypothesis I_final : forall update_dict j,
  update_dict !! "status" = Some (PStr "Idle") ->
  update_dict !! "progress" = Some (PInt 100) ->
  I j -> I' (snd (write_status update_dict j)).

Local Ltac keep_running :=
  first [ left; reflexivity
        | right; eexists; split; [reflexivity | discriminate] ].

Lemma keeps_bind {A B} (m : Worker A) (k : A → Worker B) :
  keeps I m → (∀ a, keeps I (k a)) → keeps I (m ≫= k).
Proof. intros Hm Hk. apply triple_bind with (Q := fun _ => I); assumption. Qed.

Lemma keeps_ret {A} (a : A) : keeps I (mret a).
Proof. apply triple_ret. Qed.

Lemma keeps_try_except {A} (body handler : Worker A) :
  keeps I body → keeps I handler → keeps I (try_except body handler).
Proof.
  intros Hb Hh. apply triple_try_except with (H := I); [|exact Hh].
  apply (triple_abrupt (fun _ => I)); [exact Hb|]. intros [|] j Hj; exact Hj.
Qed.

Lemma keeps_attempt {A} (body : Worker A) : keeps I body → keeps I (attempt body).
Proof.
  intros Hb. unfold attempt. apply keeps_try_except; [|apply keeps_ret].
  apply keeps_bind; [exact Hb | intros a; apply keeps_ret].
Qed.

Lemma keeps_silent {A} (m : Worker A) :
  (∀ j, scraper_status (m j).2 = scraper_status j ∧ snapshots (m j).2 = snapshots j
        ∧ updates (m j).2 = updates j ∧ others (m j).2 = others j) →
  keeps I m.
Proof.
  intros Hm j Hj. destruct (Hm j) as (Hst & Hsn & Hup & Hot).
  pose proof (I_insensitive j (m j).2 Hst Hsn Hup Hot Hj) as Hj'.
  destruct (m j) as [[a|e] j']; exact Hj'.
Qed.

Lemma keeps_fault_point : keeps I fault_point.
Proof.
  apply keeps_silent. intros j. unfold fault_point.
  destruct (faults j) as [|strikes rest]; simpl; auto.
Qed.

Lemma write_status_returns (d : gmap string pyval) (j : Job) :
  write_status d j = (inl tt, snd (write_status d j)).
Proof.
  unfold write_status, mbind, worker_bind, interfere.
  destruct (others j); reflexivity.
Qed.

Lemma read_status_returns (key : string) (j : Job) :
  ∃ v, read_status key j = (inl v, snd (read_status key j)).
Proof.
  unfold read_status, mbind, worker_bind, interfere.
  destruct (others j); eexists; reflexivity.
Qed.

Lemma keeps_write (d : gmap string pyval) : keeps_running d → keeps I (write_status d).
Proof.
  intros Hd j Hj. pose proof (I_write d j Hd Hj) as Hj'.
  rewrite write_status_returns. exact Hj'.
Qed.

Lemma keeps_update (d : gmap string pyval) : keeps_running d → keeps I (update d).
Proof.
  intros Hd. unfold update. apply keeps_bind; [apply keeps_fault_point|].
  intros ?. apply keeps_write, Hd.
Qed.

Lemma keeps_read (key : string) : keeps I (read_status key).
Proof.
  intros j Hj. pose proof (I_read key j Hj) as Hj'.
  destruct (read_status_returns key j) as [v ->]. exact Hj'.
Qed.

Lemma keeps_category_loop (scraper_config : JewelryScraperConfig) (total : Z)
    (category_urls all_product_links : list string) (processed : Z) :
  keeps I (category_loop BeautifulSoup server fuel scraper_config total category_urls
             all_product_links processed).
Proof.
  revert all_product_links processed.
  induction category_urls as [|category_url rest IH]; intros all processed; simpl.
  - apply keeps_ret.
  - apply keeps_bind; [apply keeps_update; keep_running|]. intros ?.
    apply keeps_bind.
    { apply keeps_attempt, keeps_silent. intros j. unfold crawl.
      destruct (scrape_category _ _ _ _ _ _) as [[[links|e] w]|]; simpl; auto. }
    intros [category_links|].
    + apply keeps_bind; [|intros ?; apply IH].
      apply keeps_try_except.
      * apply keeps_bind; [apply keeps_read|]. intros ?.
        apply keeps_bind; [apply keeps_read|]. intros ?. apply keeps_update; keep_running.
      * apply keeps_silent. intros j. simpl. auto.
    + apply keeps_bind; [|intros ?; apply IH].
      apply keeps_silent. intros j. simpl. auto.
Qed.

Lemma keeps_pause (seconds : Q) : keeps I (pause seconds).
Proof.
  apply keeps_silent. intros j. unfold pause. destruct (time_sleep _ _); simpl; auto.
Qed.

Lemma keeps_in_world {A} (f : World → A * World) : keeps I (in_world f).
Proof.
  apply keeps_silent. intros j. unfold in_world. destruct (f (world j)). simpl. auto.
Qed.

Lemma keeps_product_body (config : JobConfig) (start_time len i : Z) (link : string) :
  keeps I (product_body BeautifulSoup server strftime time_time config start_time len
             i link).
Proof.
  unfold product_body.
  apply keeps_bind; [apply keeps_update; keep_running|]. intros ?.
  apply keeps_bind; [apply keeps_update; keep_running|]. intros ?.
  apply keeps_bind.
  { unfold process_product. apply keeps_bind.
    { apply keeps_silent. intros j. unfold fetch.
      destruct (get_page _ _ _ _ _) as [[html|e] w]; simpl; auto. }
    intros html. destruct (PyStr.truthy_opt html); [|apply keeps_ret].
    apply keeps_bind; [apply keeps_in_world|]. intros now.
    destruct (parse_product_page _ _ _ _) as [product|]; [|apply keeps_ret].
    destruct (is_unavailable product).
    - apply keeps_bind; [|intros ?; apply keeps_update; keep_running].
      apply keeps_silent. intros j. simpl. auto.
    - apply keeps_bind; [|intros ?; apply keeps_update; keep_running].
      apply keeps_silent. intros j. simpl. auto. }
  intros ?. apply keeps_bind; [apply keeps_in_world|]. intros now.
  apply keeps_bind; [apply keeps_update; keep_running|]. intros ?.
  destruct (i mod 10 =? 0)%Z; [|apply keeps_pause].
  destruct (request_delay config); [apply keeps_pause|].
  intros j Hj. exact Hj.
Qed.

Lemma keeps_product_loop (config : JobConfig) (start_time len : Z)
    (links : list string) (i : Z) :
  keeps I (product_loop BeautifulSoup server strftime time_time config start_time len
             i links).
Proof.
  revert i. induction links as [|link rest IH]; intros i; simpl.
  - apply keeps_ret.
  - apply keeps_bind; [|intros ?; apply IH].
    apply keeps_try_except; [apply keeps_product_body|].
    apply keeps_silent. intros j. simpl. auto.
Qed.

Lemma keeps_try_block (config : JobConfig) (scraper_config : JewelryScraperConfig)
    (total start_time : Z) :
  triple (keeps_abrupt I I') I
    (try_block BeautifulSoup server strftime time_time generate_feeds fuel config
       scraper_config total start_time)
    (fun _ => I').
Proof.
  assert (Hpre : ∀ A (m : Worker A), keeps I m → triple (keeps_abrupt I I') I m (fun _ => I)).
  { intros A m Hm. apply (triple_abrupt (fun _ => I)); [exact Hm|].
    intros e j Hj. left. exact Hj. }
  unfold try_block.
  eapply triple_bind; [apply Hpre, keeps_update; keep_running|]. intros ?.
  eapply triple_bind; [apply Hpre, keeps_category_loop|]. intros all. cbv zeta.
  eapply triple_bind; [apply Hpre, keeps_update; keep_running|]. intros ?.
  eapply triple_bind; [apply Hpre, keeps_product_loop|]. intros ?.
  eapply triple_bind; [apply Hpre, keeps_update; keep_running|]. intros ?.
  eapply triple_bind.
  { apply Hpre, keeps_try_except.
    - apply keeps_bind; [|intros ?; apply keeps_update; keep_running].
      apply keeps_silent. intros j. unfold feeds.
      destruct (generate_feeds _ _); simpl; auto.
    - apply keeps_bind; [|intros ?; apply keeps_update; keep_running].
      apply keeps_silent. intros j. simpl. auto. }
  intros ?. eapply triple_bind; [apply Hpre, keeps_in_world|]. intros now.
  apply triple_bind with (Q := fun _ => I').
  { unfold update. apply triple_bind with (Q := fun _ => I).
    - apply Hpre, keeps_fault_point.
    - intros ? j Hj. rewrite write_status_returns.
      apply I_final; [reflexivity | reflexivity | exact Hj]. }
  intros ? j Hj. unfold fault_point.
  assert (Hj' : ∀ rest, I' (set_faults rest j)).
  { intros rest. apply (I'_insensitive j); [reflexivity.. | exact Hj]. }
  destruct (faults j) as [|[|] rest]; [exact Hj | right; split; [reflexivity|] | ];
    apply Hj'.
Qed.

(** What holds after the first update of a run holds, in the form that
    the outcome tells, when the run is over. *)
Lemma run_keeps_running (config : JobConfig) (history_len : nat) (j : Job) :
  (∀ d, d !! "progress" = Some (PInt 0) → d !! "status" = Some (PStr "Running") →
        I (snd (write_status d j))) →
  let run := scraper_thread BeautifulSoup server strftime time_time generate_feeds fuel
               config history_len j in
  match run.1 with
  | Completed => I' run.2
  | Failed => ∃ j', (I j' ∨ I' j') ∧ run.2 = snd (write_status failure_update j')
  | Hung | Died => I run.2
  end.
Proof.
  intros H0. unfold scraper_thread. cbv zeta.
  match goal with
  | |- context [configure _ (snd (write_status ?d ?j))] =>
      pose proof (H0 d eq_refl eq_refl) as Hj1;
      set (j1 := snd (write_status d j)) in *
  end.
  clearbody j1.
  assert (Hconf : keeps I (configure config)).
  { unfold configure.
    destruct (base_url config); [|intros j' Hj'; exact Hj'].
    destruct (user_agent config); [|intros j' Hj'; exact Hj'].
    destruct (categories config); [|intros j' Hj'; exact Hj'].
    apply keeps_bind; [apply keeps_fault_point | intros ?; apply keeps_ret]. }
  specialize (Hconf j1 Hj1).
  destruct (configure config j1) as [[[scraper_config total]|e] j2]; [|exact Hconf].
  pose proof (keeps_try_block config scraper_config total (time_time (world j)) j2 Hconf)
    as H.
  destruct (try_block _ _ _ _ _ _ _ _ _ _ j2) as [[[]|[|]] j3]; simpl.
  - exact H.
  - exists j3. split; [|reflexivity].
    destruct H as [H | [_ H]]; [left | right]; exact H.
  - destruct H as [H | [Habs _]]; [exact H | discriminate Habs].
Qed.

End AnyUpdate.

(** An invariant that every status update keeps and that holds after the
    first update of a run holds when the run is over. *)
Lemma run_keeps (BeautifulSoup : string → Soup) (server : nat → string → response)
    (strftime : World → string → string) (time_time : World → Z)
    (generate_feeds : list Product → list Product → bool) (fuel : nat)
    (I : Job → Prop) :
  insensitive I →
  (∀ update_dict j, I j → I (snd (write_status update_dict j))) →
  (∀ key j, I j → I (snd (read_status key j))) →
  ∀ (config : JobConfig) (history_len : nat) (j : Job),
    (∀ d, d !! "progress" = Some (PInt 0) → d !! "status" = Some (PStr "Running") →
          I (snd (write_status d j))) →
    I (scraper_thread BeautifulSoup server strftime time_time generate_feeds fuel
         config history_len j).2.
Proof.
  intros Hins Hwrite Hread config history_len j H0.
  pose proof (run_keeps_running BeautifulSoup server strftime time_time generate_feeds
                fuel I I Hins Hins (fun d j _ => Hwrite d j) Hread
                (fun d j _ _ => Hwrite d j) config history_len j H0) as H.
  cbv zeta in H.
  destruct (scraper_thread _ _ _ _ _ _ _ _ _).1.
  - exact H.
  - destruct H as (j' & Hj' & ->). apply Hwrite. destruct Hj'; assumption.
  - exact H.
  - exact H.
Qed.

(** ** The progress values of a run *)

Lemma shows_written_write (update_dict : gmap string pyval) (j : Job) :
  shows_written j → shows_written (snd (write_status update_dict j)).
Proof.
  intros (Hot & (v & Hv & Hin) & Hall).
  unfold write_status, mbind, worker_bind, interfere. rewrite Hot.
  unfold own_write. simpl.
  assert (Hnew : ∃ v', update_scraper_status update_dict (scraper_status j) !! "progress"
                       = Some v'
                       ∧ v' ∈ progress_writes (updates j ++ [update_dict])).
  { rewrite progress_writes_snoc. unfold update_scraper_status.
    destruct (update_dict !! "progress") as [v'|] eqn:Hd.
    - exists v'. split; [apply lookup_union_Some_l; exact Hd|].
      apply elem_of_app. right. constructor.
    - exists v. split; [rewrite lookup_union_r by exact Hd; exact Hv|].
      rewrite app_nil_r. exact Hin. }
  split; [exact Hot|]. split; [exact Hnew|].
  apply Forall_app. split.
  - eapply Forall_impl; [exact Hall|]. intros s (v' & Hs & Hin').
    exists v'. split; [exact Hs|].
    change (v' ∈ progress_writes (updates j ++ [update_dict])).
    rewrite progress_writes_snoc. apply elem_of_app. left. exact Hin'.
  - apply Forall_singleton. exact Hnew.
Qed.

Lemma shows_written_first (update_dict : gmap string pyval) (j : Job) :
  others j = [] → snapshots j = [] → update_dict !! "progress" = Some (PInt 0) →
  shows_written (snd (write_status update_dict j)).
Proof.
  intros Hot Hsn Hd.
  unfold write_status, mbind, worker_bind, interfere. rewrite Hot.
  unfold own_write. simpl.
  assert (Hnew : ∃ v', update_scraper_status update_dict (scraper_status j) !! "progress"
                       = Some v'
                       ∧ v' ∈ progress_writes (updates j ++ [update_dict])).
  { exists (PInt 0). split; [apply lookup_union_Some_l; exact Hd|].
    rewrite progress_writes_snoc, Hd. apply elem_of_app. right. constructor. }
  split; [exact Hot|]. split; [exact Hnew|].
  change (Forall (fun s => ∃ v, s !! "progress" = Some v
                                ∧ v ∈ progress_writes (updates j ++ [update_dict]))
            (snapshots j ++ [update_scraper_status update_dict (scraper_status j)])).
  rewrite Hsn. apply Forall_singleton. exact Hnew.
Qed.

Lemma shows_written_read (key : string) (j : Job) :
  shows_written j → shows_written (snd (read_status key j)).
Proof.
  intros (Hot & Hrest).
  unfold read_status, mbind, worker_bind, interfere. rewrite Hot. simpl.
  split; [exact Hot | exact Hrest].
Qed.

Lemma shows_written_insensitive : insensitive shows_written.
Proof.
  intros j j' Hst Hsn Hup Hot. unfold shows_written.
  rewrite Hst, Hsn, Hup, Hot. auto.
Qed.

(** The progress values written by a run, in closed form. *)
Lemma progress_values
    (BeautifulSoup : string → Soup) (server : nat → string → response)
    (strftime : World → string → string) (time_time : World → Z)
    (generate_feeds : list Product → list Product → bool) (fuel : nat)
    (config : JobConfig) (history_len : nat) (status0 : gmap string pyval) (w : World)
    (faults : list bool) (others : list (list (gmap string pyval))) :
  let run := scraper_thread BeautifulSoup server strftime time_time generate_feeds fuel
               config history_len (new_job status0 w faults others) in
  let n := Z.of_nat (length (default [] (categories config))) in
  ∃ (ks ms : list Z) (t : Z) (closing : list Z),
    progress_writes (updates run.2)
    = PInt <$> (0 :: ((fun k => 30 * k / n) <$> ks)
                  ++ ((fun m => 30 + 60 * m / t) <$> ms) ++ closing)%Z
    ∧ Sorted Z.lt ks ∧ Forall (fun k => (1 <= k <= n)%Z) ks
    ∧ Sorted Z.lt ms ∧ Forall (fun m => (1 <= m <= t)%Z) ms
    ∧ match run.1 with
      | Completed => closing = [90; 100]%Z
      | Failed => ∃ before, before ∈ [ []; [90%Z]; [90%Z; 100%Z] ]
                            ∧ closing = before ++ [0%Z]
      | Hung => closing = []
      | Died => ks = [] ∧ ms = [] ∧ closing = []
      end
    ∧ (calm faults →
       ∃ p i, ks = seqZ 1 p ∧ ms = seqZ 1 i ∧ (run.1 = Completed → i = t)).
Proof.
  intros run n.
  assert (Hgen : ∃ (t p i : Z) (closing : list Z),
             progress_stage (calm faults) n t p i closing run.2
             ∧ (0 <= p <= n)%Z ∧ (0 <= i <= t)%Z
             ∧ match run.1 with
               | Completed => closing = [90; 100]%Z ∧ i = t
               | Failed => ∃ before, before ∈ [ []; [90%Z]; [90%Z; 100%Z] ]
                                     ∧ closing = before ++ [0%Z]
               | Hung => closing = []
               | Died => p = 0%Z ∧ i = 0%Z ∧ closing = []
               end).
  { pose proof (progress_run BeautifulSoup server strftime time_time generate_feeds fuel
                  config history_len (new_job status0 w faults others) eq_refl) as H.
    cbv zeta in H. fold run in H. fold n in H.
    change (calm _) with (calm faults) in H.
    destruct run.1.
    - destruct H as (t & p & Hp & Ht & H). exists t, p, t, [90; 100]%Z.
      repeat split; try assumption; lia.
    - destruct H as (t & p & i & before & Hp & Hi & Hb & H).
      exists t, p, i, (before ++ [0%Z]).
      split; [exact H|]. split; [exact Hp|]. split; [exact Hi|]. exists before. auto.
    - destruct H as (t & p & i & Hp & Hi & H). exists t, p, i, []. auto.
    - exists 0%Z, 0%Z, 0%Z, []. repeat split; try assumption; lia. }
  destruct Hgen as (t & p & i & closing & Hstage & Hp & Hi & Hout).
  destruct Hstage as (ks & ms & Hw & Hks & Hkb & Hms & Hmb & Hex & _).
  assert (Hkeq : Forall (fun k => category_progress k n = (30 * k / n)%Z) ks).
  { eapply Forall_impl; [exact Hkb|]. intros k Hk. simpl in Hk.
    apply category_progress_floor; lia. }
  assert (Hmeq : Forall (fun m => product_progress (m - 1) t = (30 + 60 * m / t)%Z) ms).
  { eapply Forall_impl; [exact Hmb|]. intros m Hm. simpl in Hm.
    rewrite product_progress_floor by lia. do 3 f_equal. lia. }
  exists ks, ms, t, closing.
  split.
  { unfold written in Hw. rewrite Hw.
    rewrite (Forall_fmap_ext_1 _ _ _ Hkeq), (Forall_fmap_ext_1 _ _ _ Hmeq). reflexivity. }
  split; [exact Hks|]. split.
  { eapply Forall_impl; [exact Hkb|]. intros k Hk. simpl in Hk. lia. }
  split; [exact Hms|]. split.
  { eapply Forall_impl; [exact Hmb|]. intros m Hm. simpl in Hm.
    lia. }
  split.
  { destruct run.1.
    - apply Hout.
    - exact Hout.
    - exact Hout.
    - destruct Hout as (-> & -> & ->).
      split; [|split; [|reflexivity]].
      + destruct ks as [|k ?]; [reflexivity|].
        apply Forall_cons_1 in Hkb as [Hk _]. lia.
      + destruct ms as [|m ?]; [reflexivity|].
        apply Forall_cons_1 in Hmb as [Hm _]. lia. }
  intros Hq. destruct (Hex Hq) as [Hk Hm]. exists p, i.
  split; [exact Hk|]. split; [exact Hm|].
  intros Hc. rewrite Hc in Hout. apply Hout.
Qed.

(** C4 (as amended).  The progress values that a run writes, in order:
    0 with its first update; for some increasing counts [k] of completed
    categories out of the [n] configured, the integer quotient
    [30 * k / n], which is [k / n * 30] truncated; for some increasing
    numbers [m] of links out of the [t] unique ones, [30 + 60 * m / t];
    and the closing values the outcome tells: 90 and 100 for a completed
    run, a final 0 for a failed one.  When no exception strikes, the
    counts are 1, 2, ... without gaps, up to [t] for the links of a
    completed run.  For totals up to 256 the binary64 evaluation of the
    two expressions gives these same integers.  While no other thread
    writes, whatever a status read shows as progress is one of the
    values written. *)
Theorem progress_is_truncated_not_rounded
    (BeautifulSoup : string → Soup) (server : nat → string → response)
    (strftime : World → string → string) (time_time : World → Z)
    (generate_feeds : list Product → list Product → bool) (fuel : nat)
    (config : JobConfig) (history_len : nat) (status0 : gmap string pyval) (w : World)
    (faults : list bool) (others : list (list (gmap string pyval))) :
  let run := scraper_thread BeautifulSoup server strftime time_time generate_feeds fuel
               config history_len (new_job status0 w faults others) in
  let n := Z.of_nat (length (default [] (categories config))) in
  ∃ (ks ms : list Z) (t : Z) (closing : list Z),
    progress_writes (updates run.2)
    = PInt <$> (0 :: ((fun k => 30 * k / n) <$> ks)
                  ++ ((fun m => 30 + 60 * m / t) <$> ms) ++ closing)%Z
    ∧ Sorted Z.lt ks ∧ Forall (fun k => (1 <= k <= n)%Z) ks
    ∧ Sorted Z.lt ms ∧ Forall (fun m => (1 <= m <= t)%Z) ms
    ∧ match run.1 with
      | Completed => closing = [90; 100]%Z
      | Failed => ∃ before, before ∈ [ []; [90%Z]; [90%Z; 100%Z] ]
                            ∧ closing = before ++ [0%Z]
      | Hung => closing = []
      | Died => ks = [] ∧ ms = [] ∧ closing = []
      end
    ∧ (calm faults →
       ∃ p i, ks = seqZ 1 p ∧ ms = seqZ 1 i ∧ (run.1 = Completed → i = t))
    ∧ ((n <= 256)%Z →
       Forall (fun k => Binary64.category_progress64 k n = (30 * k / n)%Z) ks)
    ∧ ((t <= 256)%Z →
       Forall (fun m => Binary64.product_progress64 (m - 1) t = (30 + 60 * m / t)%Z) ms)
    ∧ (others = [] →
       Forall (fun s => ∃ v, s !! "progress" = Some v
                             ∧ v ∈ progress_writes (updates run.2))
         (snapshots run.2)).
Proof.
  intros run n.
  destruct (progress_values BeautifulSoup server strftime time_time generate_feeds fuel
              config history_len status0 w faults others)
    as (ks & ms & t & closing & Hw & Hks & Hkb & Hms & Hmb & Hout & Hcalm).
  fold run in Hw, Hout, Hcalm. fold n in Hw, Hkb.
  exists ks, ms, t, closing.
  do 7 (split; [assumption|]).
  assert (H64 : ∀ k m : Z, (0 <= k <= m)%Z → (1 <= m <= 256)%Z →
            Binary64.category_progress64 k m = category_progress k m
            ∧ Binary64.product_progress64 (k - 1) m = product_progress (k - 1) m).
  { intros k m Hk Hm.
    pose proof (binary64_progress (Z.to_nat k) (Z.to_nat m)) as H.
    rewrite !Z2Nat.id in H by lia. apply H; lia. }
  split.
  { intros Hn. eapply Forall_impl; [exact Hkb|]. intros k Hk. simpl in Hk.
    rewrite <- category_progress_floor by lia. apply H64; lia. }
  split.
  { intros Ht. eapply Forall_impl; [exact Hmb|]. intros m Hm. simpl in Hm.
    replace (30 + 60 * m / t)%Z with (30 + 60 * (m - 1 + 1) / t)%Z
      by (do 3 f_equal; lia).
    rewrite <- product_progress_floor by lia. apply H64; lia. }
  intros ->.
  apply (run_keeps BeautifulSoup server strftime time_time generate_feeds fuel
           shows_written shows_written_insensitive shows_written_write
           shows_written_read config history_len (new_job status0 w faults [])).
  intros d Hd _. apply shows_written_first; [reflexivity | reflexivity | exact Hd].
Qed.

(** C4, the claim as worded fails.  In a completed run over seven
    categories and seven unique links the code writes 8 after the second
    category, where rounding to the nearest integer gives 9, and 38 for
    the first link, where rounding gives 39; five of the fourteen values
    differ. *)
Lemma progress_differs_from_rounding :
  let run := WorkerExamples.seven_run in
  run.1 = Completed
  ∧ progress_writes (updates run.2)
    = PInt <$> (0 :: [4; 8; 12; 17; 21; 25; 30] ++ [38; 47; 55; 64; 72; 81; 90]
                  ++ [90; 100])%Z
  ∧ (fun k => spec_category_progress k 7) <$> seqZ 1 7 = [4; 9; 13; 17; 21; 26; 30]%Z
  ∧ (fun m => spec_product_progress m 7) <$> seqZ 1 7 = [39; 47; 56; 64; 73; 81; 90]%Z
  ∧ (fun k => Binary64.category_progress64 k 7) <$> seqZ 1 7
    = [4; 8; 12; 17; 21; 25; 30]%Z
  ∧ (fun m => Binary64.product_progress64 (m - 1) 7) <$> seqZ 1 7
    = [38; 47; 55; 64; 72; 81; 90]%Z.
Proof. vm_compute. repeat split; reflexivity. Qed.

(** C7, the claim as worded fails.  A run in which an exception strikes
    after the category phase: the reads show progress 30 and then, with
    the update of the handler, 0.  And a run during which a second worker
    (started as in C6) performs its first update: the reads show progress
    30 and then 0 while the status is "Running". *)
Lemma progress_decreases_on_failure_and_on_race :
  let failed := WorkerExamples.run_with [false; false; false; false; true] [] in
  let raced := WorkerExamples.run_with []
                 [ []; []; []; []; []; []; [WorkerExamples.first_update] ] in
  failed.1 = Failed
  ∧ WorkerExamples.reads failed
    = [ (PStr "Running", 0%Z); (PStr "Running", 0%Z);
        (PStr "Scraping category: /rings", 0%Z);
        (PStr "Scraping category: /rings", 30%Z); (PStr "Idle", 0%Z) ]
  ∧ raced.1 = Completed
  ∧ take 6 (WorkerExamples.reads raced)
    = [ (PStr "Running", 0%Z); (PStr "Running", 0%Z);
        (PStr "Scraping category: /rings", 0%Z);
        (PStr "Scraping category: /rings", 30%Z); (PStr "Running", 0%Z);
        (PStr "Processing products", 0%Z) ].
Proof. vm_compute. repeat split; reflexivity. Qed.

(** ** The start endpoint *)

(** While the status is not "Idle" a start request is answered with the
    "already running" error and changes nothing: no thread is started and
    nothing is remembered of the request. *)
Lemma start_scraper_rejects_when_not_idle (run : list (gmap string pyval)) (b : Backend) :
  not_idle (shared_status b) = true →
  start_scraper run b = (Json400 "Scraper is already running", b).
Proof. intros H. unfold start_scraper. rewrite H. reflexivity. Qed.

(** A thread that has performed its first update makes the status
    "Running", after which start requests are rejected. *)
Lemma start_scraper_rejected_after_first_update :
  let b1 := snd (start_scraper (updates (snd Example.sample_run)) initial_backend) in
  let b2 := thread_step 0 b1 in
  status_get (get_status b2) "status" = PStr "Running"
  ∧ start_scraper (updates (snd Example.sample_run)) b2
    = (Json400 "Scraper is already running", b2).
Proof.
  split; [vm_compute; reflexivity|].
  apply start_scraper_rejects_when_not_idle. vm_compute. reflexivity.
Qed.

(** C6, the failing run.  Two start requests arrive before the thread
    started by the first one has performed its first status update: the
    status still reads "Idle", both requests are accepted and two workers
    run at the same time; each of them then marks the job "Running". *)
Theorem start_scraper_race_two_workers :
  let run := updates (snd Example.sample_run) in
  let r1 := start_scraper run initial_backend in
  let r2 := start_scraper run (snd r1) in
  let b := thread_step 1 (thread_step 0 (snd r2)) in
  fst r1 = Json200 "Scraper started"
  ∧ fst r2 = Json200 "Scraper started"
  ∧ length (live_workers (snd r2)) = 2
  ∧ status_get (get_status b) "status" = PStr "Running"
  ∧ length (live_workers b) = 2.
Proof. vm_compute. repeat split; reflexivity. Qed.

(** * Further properties of the code *)

(** ** More on strings *)

Module PyStrExtFacts.
Import PyStr PyStrExt PyStrFacts.

Lemma lstrip_first (s : string) : lstrip s = "" ∨ first_nonspace (lstrip s) = true.
Proof.
  induction s as [|c s IH]; [left; reflexivity|]. simpl.
  destruct (isspace c) eqn:Hc; [exact IH|]. right. simpl. rewrite Hc. reflexivity.
Qed.

Lemma rstrip_last (s : string) : rstrip s = "" ∨ last_nonspace (rstrip s) = true.
Proof.
  induction s as [|c s IH]; [left; reflexivity|]. simpl.
  destruct (rstrip s) as [|d r] eqn:Hr.
  - destruct (isspace c) eqn:Hc; [left; reflexivity|]. right. simpl. rewrite Hc. reflexivity.
  - right. destruct IH as [IH|IH]; [discriminate|]. exact IH.
Qed.

Lemma rstrip_first (s : string) :
  first_nonspace s = true → first_nonspace (rstrip s) = true.
Proof.
  destruct s as [|c s]; [discriminate|]. simpl. intros Hc.
  destruct (rstrip s); [|exact Hc].
  destruct (isspace c) eqn:E; [discriminate|]. simpl. rewrite E. reflexivity.
Qed.

Lemma rstrip_nonempty (s : string) : first_nonspace s = true → rstrip s ≠ "".
Proof.
  intros H. apply rstrip_first in H. destruct (rstrip s); [discriminate H | discriminate].
Qed.

(** What [strip] returns has no surrounding white space. *)
Lemma strip_stripped (s : string) : stripped (strip s).
Proof.
  unfold strip, stripped. destruct (lstrip_first s) as [->|Hf]; [left; reflexivity|].
  right. split; [apply rstrip_first, Hf|].
  destruct (rstrip_last (lstrip s)) as [He|Hl]; [|exact Hl].
  exfalso. exact (rstrip_nonempty _ Hf He).
Qed.

Lemma lstrip_id (s : string) : first_nonspace s = true → lstrip s = s.
Proof.
  destruct s as [|c s]; [discriminate|]. simpl.
  destruct (isspace c); [discriminate | reflexivity].
Qed.

Lemma rstrip_id (s : string) : last_nonspace s = true → rstrip s = s.
Proof.
  intros H. rewrite <- (app_empty_r s) at 1. rewrite rstrip_app by exact H.
  apply app_empty_r.
Qed.

Lemma strip_id (s : string) : stripped s → strip s = s.
Proof.
  intros [->|[Hf Hl]]; [reflexivity|]. unfold strip.
  rewrite lstrip_id by exact Hf. apply rstrip_id, Hl.
Qed.

(** A needle found after stripping was there before. *)
Lemma contains_strip (needle s : string) :
  contains needle (strip s) = true → contains needle s = true.
Proof.
  rewrite !contains_spec. intros (pre & post & H). unfold strip in H.
  destruct (lstrip_spec s) as [ws1 H1]. destruct (rstrip_spec (lstrip s)) as [ws2 H2].
  exists (ws1 +:+ pre), (post +:+ ws2).
  rewrite H1 at 1. rewrite H2 at 1. rewrite H, !app_assoc. reflexivity.
Qed.

Lemma word_prefix (s : string) : ∃ post, s = word s +:+ post.
Proof.
  induction s as [|c s [post IH]]; [exists ""; reflexivity|]. simpl.
  destruct (isspace c).
  - exists (String c s). reflexivity.
  - exists post. rewrite app_cons. congruence.
Qed.

Lemma word_no_space (s : string) : no_space (word s) = true.
Proof.
  induction s as [|c s IH]; [reflexivity|]. simpl.
  destruct (isspace c) eqn:Hc; [reflexivity|]. simpl. rewrite Hc, IH. reflexivity.
Qed.

Lemma truthy_app_l (a b : string) : truthy a = true → truthy (a +:+ b) = true.
Proof. destruct a; [discriminate | reflexivity]. Qed.

(** The first word that [split] finds. *)
Lemma split_go_head (cur s : string) :
  truthy (cur +:+ word s) = true →
  ∃ rest, split_go cur s = (cur +:+ word s) :: rest.
Proof.
  revert cur. induction s as [|c s IH]; intros cur H; simpl in *.
  - rewrite app_empty_r in *. rewrite H. eauto.
  - destruct (isspace c) eqn:Hc.
    + rewrite app_empty_r in *. rewrite H. eauto.
    + destruct (IH (cur +:+ String c "")) as [rest Hrest].
      * rewrite app_assoc. exact H.
      * exists rest. rewrite Hrest, app_assoc. reflexivity.
Qed.

Lemma split_head (s : string) :
  first_nonspace s = true → ∃ rest, split s = word s :: rest.
Proof.
  intros H. apply (split_go_head "" s). rewrite app_empty_l.
  destruct s as [|c s]; [discriminate|]. simpl in *.
  destruct (isspace c); [discriminate | reflexivity].
Qed.

(** Replacing a character by nothing leaves no occurrence of it. *)
Lemma replace_char_gone (c : ascii) (s : string) :
  contains (String c "") (replace (String c "") "" s) = false.
Proof.
  unfold replace. induction s as [|d s IH]; [reflexivity|].
  simpl replace_go. destruct (ascii_dec c d) as [->|Hne].
  - destruct s; exact IH.
  - rewrite contains_eq. simpl String.prefix.
    destruct (ascii_dec c d); [contradiction|]. exact IH.
Qed.

End PyStrExtFacts.

(** ** More on the fetcher *)



(** ** More on link and pagination extraction *)

Section LinkFactsMore.

Variable config : JewelryScraperConfig.
Variable BeautifulSoup : string -> Soup.

Lemma comprehension_product_link_map (elems : list Tag) (links : list string) :
  comprehension (product_link config) elems = Return links →
  links = (fun elem =>
             let href := default "" (tag_get elem "href") in
             if PyStr.startswith href "http" then href else BASE_URL config +:+ href)
          <$> elems.
Proof.
  revert links. induction elems as [|elem elems IH]; intros links H.
  - injection H as <-. reflexivity.
  - simpl in H. destruct (tag_get elem "href") as [href|] eqn:E.
    + rewrite (product_link_href _ _ _ E) in H. cbn in H.
      destruct (comprehension (product_link config) elems) as [ls|e]; [|discriminate].
      cbn in H. injection H as <-. rewrite fmap_cons, E, <- (IH ls eq_refl). reflexivity.
    + rewrite (product_link_no_href _ _ E) in H. discriminate.
Qed.

(** X2. The links returned by [extract_product_links] are the [href]s of
    the matched anchors in document order, duplicates included, each
    either kept as it is (when it begins with "http") or prefixed with
    the base URL; with a base URL that begins with "http" every link
    returned begins with "http". *)
Theorem extract_product_links_resolves (html : string) (links : list string) :
  extract_product_links config BeautifulSoup html = Return links →
  links = (fun elem =>
             let href := default "" (tag_get elem "href") in
             if PyStr.startswith href "http" then href else BASE_URL config +:+ href)
          <$> select (BeautifulSoup html) (SELECTORS "product_links")
  ∧ (PyStr.startswith (BASE_URL config) "http" = true →
     Forall (fun link => PyStr.startswith link "http" = true) links).
Proof.
  intros H. apply comprehension_product_link_map in H. split; [exact H|].
  intros Hbase. rewrite H. apply Forall_fmap, Forall_forall. intros elem _. simpl.
  destruct (PyStr.startswith (default "" (tag_get elem "href")) "http") eqn:E.
  - exact E.
  - apply ExampleFacts.startswith_app, Hbase.
Qed.

(** X3. [get_next_page_url] returns a URL exactly when the first
    next-page anchor carries a non-empty [href]; the URL is that [href],
    prefixed with the base URL unless it begins with "http", hence never
    empty.  An anchor without [href], or with an empty one, gives none
    (no [KeyError], unlike the product links). *)
Theorem get_next_page_url_characterised (html current_url next_url : string) :
  get_next_page_url config BeautifulSoup html current_url = Some next_url ↔
  ∃ next_button href,
    select_one (BeautifulSoup html) (SELECTORS "pagination") = Some next_button
    ∧ tag_get next_button "href" = Some href
    ∧ href ≠ ""
    ∧ next_url ≠ ""
    ∧ next_url = (if PyStr.startswith href "http" then href
                  else BASE_URL config +:+ href).
Proof.
  unfold get_next_page_url. split.
  - intros H.
    destruct (select_one _ _) as [button|]; [|discriminate].
    destruct (tag_get button "href") as [href|] eqn:Hh; [|discriminate].
    destruct href as [|c href]; [discriminate|].
    exists button, (String c href). split; [reflexivity|]. split; [exact Hh|].
    split; [discriminate|]. simpl PyStr.truthy in H. cbv iota in H.
    destruct (PyStr.startswith (String c href) "http"); simpl in H;
      injection H as <-; split; try reflexivity; try discriminate.
    destruct (BASE_URL config); discriminate.
  - intros (button & href & -> & -> & Hne & _ & ->).
    destruct href as [|c href]; [contradiction|]. simpl PyStr.truthy. cbv iota.
    destruct (PyStr.startswith (String c href) "http"); reflexivity.
Qed.

End LinkFactsMore.

(** The listing page of the example: two links, the relative one made
    absolute. *)
Lemma extract_product_links_resolves_witness :
  Forall (fun link => PyStr.startswith link "http" = true)
    ["https://shop.example/p/1"; "https://cdn.example/p/2"].
Proof.
  apply (proj2 (extract_product_links_resolves Example.shop Example.parser "listing"
                  ["https://shop.example/p/1"; "https://cdn.example/p/2"] eq_refl)).
  reflexivity.
Defined.

(** The listing page of the example has a next page. *)
Lemma get_next_page_url_characterised_witness :
  ∃ next_button href,
    select_one (Example.parser "listing") (SELECTORS "pagination") = Some next_button
    ∧ tag_get next_button "href" = Some href
    ∧ href ≠ ""
    ∧ "https://shop.example/rings?page=2" ≠ ""
    ∧ "https://shop.example/rings?page=2"
      = (if PyStr.startswith href "http" then href
         else BASE_URL Example.shop +:+ href).
Proof.
  apply (proj1 (get_next_page_url_characterised Example.shop Example.parser "listing"
                  "https://shop.example/rings" "https://shop.example/rings?page=2")).
  reflexivity.
Defined.

(** ** More on product extraction *)

Section ProductFactsMore.

Variable BeautifulSoup : string -> Soup.

Lemma text_or_empty_stripped (elem : option Tag) : stripped (text_or_empty elem).
Proof.
  destruct elem as [e|]; [apply PyStrExtFacts.strip_stripped | left; reflexivity].
Qed.

(** X4. Every text field of an extracted product (SKU, title, price,
    description, materials, dimensions, weight) has no white space at
    its beginning or end: it is empty, or begins and ends with a
    character other than white space.  Stripping it again changes
    nothing. *)
Theorem parsed_fields_are_stripped (html product_url now : string) (product : Product) :
  parse_product_page BeautifulSoup html product_url now = Some product →
  Forall (fun field => stripped field ∧ PyStr.strip field = field)
    [ sku product; title product; price product; description product;
      materials product; dimensions product; weight product ].
Proof.
  unfold parse_product_page.
  destruct (select_one _ (SELECTORS "product_title")) as [title_elem|]; [|discriminate].
  destruct (select_one _ (SELECTORS "product_sku")) as [sku_elem|]; [|discriminate].
  intros [= <-]. simpl.
  assert (Hs : ∀ s, stripped s → stripped s ∧ PyStr.strip s = s)
    by (intros s Hs; split; [exact Hs | apply PyStrExtFacts.strip_id, Hs]).
  repeat (apply Forall_cons_2;
          [first [ apply Hs, PyStrExtFacts.strip_stripped
                 | apply Hs, text_or_empty_stripped ]|]).
  apply Forall_nil_2.
Qed.

Lemma extract_images_elem (elems : list Tag) (u : string) :
  u ∈ extract_images elems ↔
  ∃ img, img ∈ elems ∧ u ≠ ""
         ∧ PyStr.or_else (tag_get img "src") (tag_get img "data-src") = Some u.
Proof.
  unfold extract_images. rewrite list_elem_of_omap. split.
  - intros (img & Hin & H). exists img. split; [exact Hin|].
    destruct (PyStr.or_else _ _) as [v|]; [|discriminate].
    simpl in H. destruct v; [discriminate|]. injection H as <-. split; [discriminate | reflexivity].
  - intros (img & Hin & Hne & H). exists img. split; [exact Hin|]. rewrite H. simpl.
    destruct u; [contradiction | reflexivity].
Qed.

(** X5. The images of an extracted product: the main image followed by
    the other images lists, in document order, the source of every image
    element that has one, where the source is the [src] attribute if it
    is present and not empty and the [data-src] attribute otherwise.  No
    listed image is empty, and the main image is empty exactly when
    no image element has a source. *)
Theorem parsed_images (html product_url now : string) (product : Product) :
  parse_product_page BeautifulSoup html product_url now = Some product →
  let images := extract_images (select (BeautifulSoup html) (SELECTORS "product_images")) in
  (main_image product = "" ↔ images = [])
  ∧ (images ≠ [] → main_image product :: other_images product = images)
  ∧ (images = [] → other_images product = [])
  ∧ (∀ u, u ∈ images ↔
          ∃ img, img ∈ select (BeautifulSoup html) (SELECTORS "product_images")
                 ∧ u ≠ ""
                 ∧ PyStr.or_else (tag_get img "src") (tag_get img "data-src") = Some u).
Proof.
  unfold parse_product_page.
  destruct (select_one _ (SELECTORS "product_title")) as [title_elem|]; [|discriminate].
  destruct (select_one _ (SELECTORS "product_sku")) as [sku_elem|]; [|discriminate].
  intros [= <-]. simpl.
  set (images := extract_images _).
  assert (Hne : ∀ u, u ∈ images → u ≠ "").
  { intros u Hu. apply extract_images_elem in Hu as (_ & _ & Hu & _). exact Hu. }
  split; [|split; [|split]].
  - destruct images as [|u rest]; [split; reflexivity|]. simpl. split.
    + intros ->. exfalso. apply (Hne ""); [left | reflexivity].
    + discriminate.
  - destruct images; [congruence | reflexivity].
  - intros ->. reflexivity.
  - intros u. apply extract_images_elem.
Qed.

End ProductFactsMore.

(** The product of the example page has stripped fields. *)
Lemma parsed_fields_are_stripped_witness :
  Forall (fun field => stripped field ∧ PyStr.strip field = field)
    [ "GR-1"; "Gold Ring"; "$ 120"; ""; ""; ""; "" ].
Proof.
  exact (parsed_fields_are_stripped Example.parser "ring" "u" "t"
           {| sku := "GR-1"; title := "Gold Ring"; price := "$ 120";
              stock_status := "Out of Stock"; description := "";
              materials := ""; dimensions := ""; weight := "";
              main_image := "/img/a.png"; other_images := ["/img/b.png"];
              url := "u"; last_updated := "t" |} eq_refl).
Defined.

(** The product of the example page has two images, the second taken from
    its [data-src]. *)
Lemma parsed_images_witness :
  "/img/a.png" :: ["/img/b.png"]
  = extract_images (select (Example.parser "ring") (SELECTORS "product_images")).
Proof.
  apply (proj1 (proj2 (parsed_images Example.parser "ring" "u" "t"
           {| sku := "GR-1"; title := "Gold Ring"; price := "$ 120";
              stock_status := "Out of Stock"; description := "";
              materials := ""; dimensions := ""; weight := "";
              main_image := "/img/a.png"; other_images := ["/img/b.png"];
              url := "u"; last_updated := "t" |} eq_refl))).
  discriminate.
Defined.

(** ** More on the category crawl *)

Section CrawlFactsMore.

Variable config : JewelryScraperConfig.
Variable BeautifulSoup : string -> Soup.
Variable server : nat -> string -> response.

Local Abbreviation loop := (pagination_loop config BeautifulSoup server).

Lemma loop_raises (fuel : nat) (u : string) (page_count : nat) (acc : list string)
    (w w1 : World) (html : string) (e : exn) :
  PyStr.truthy u = true →
  get_page server u 3 2%Q w = (Return (Some html), w1) →
  PyStr.truthy html = true →
  extract_product_links config BeautifulSoup html = Raise e →
  loop (S fuel) u page_count acc w = Some (Raise e, w1).
Proof. intros Hu Hget Hhtml Hlinks. simpl. rewrite Hu, Hget, Hhtml, Hlinks. reflexivity. Qed.

Lemma loop_stops_on_empty_body (fuel : nat) (u : string) (page_count : nat)
    (acc : list string) (w w1 : World) :
  PyStr.truthy u = true →
  get_page server u 3 2%Q w = (Return (Some ""), w1) →
  loop (S fuel) u page_count acc w = Some (Return acc, w1).
Proof. intros Hu Hget. simpl. rewrite Hu, Hget. reflexivity. Qed.

Lemma loop_stops_on_last_page (fuel : nat) (u : string) (page_count : nat)
    (acc : list string) (w w1 : World) (html : string) (links : list string) :
  PyStr.truthy u = true →
  get_page server u 3 2%Q w = (Return (Some html), w1) →
  PyStr.truthy html = true →
  extract_product_links config BeautifulSoup html = Return links →
  get_next_page_url config BeautifulSoup html u = None →
  loop (S fuel) u page_count acc w = Some (Return (acc ++ links), w1).
Proof.
  intros Hu Hget Hhtml Hlinks Hnext. simpl.
  rewrite Hu, Hget, Hhtml, Hlinks, Hnext. reflexivity.
Qed.

(** After the pages of a prefix the loop stands at its last URL with the
    links of the prefix added. *)
Lemma crawl_prefix_reaches (u : string) (w : World) (links : list string)
    (cur : string) (wc : World) :
  crawl_prefix config BeautifulSoup server u w links cur wc →
  ∀ page_count acc, ∃ k page_count',
    ∀ fuel, loop (k + fuel) u page_count acc w = loop fuel cur page_count' (acc ++ links) wc.
Proof.
  induction 1 as [u w|u w html w1 links next_url rest u' w2 Hu Hget Hhtml Hlinks Hnext Hne _ IH];
    intros page_count acc.
  - exists 0, page_count. intros fuel. rewrite app_nil_r. reflexivity.
  - destruct (IH (page_count + 1) (acc ++ links)) as (k & n' & Hk).
    exists (S k), n'. intros fuel. simpl plus.
    rewrite (loop_advances _ _ _ _ _ _ _ _ _ _ _ _ Hu Hget Hhtml Hlinks Hnext Hne).
    rewrite Hk, <- app_assoc. reflexivity.
Qed.

Lemma scrape_category_after_prefix (category_url : string) (w0 : World)
    (links : list string) (cur : string) (w : World) (r : result (list string) * World) :
  crawl_prefix config BeautifulSoup server (full_url config category_url) w0 links cur w →
  (∀ page_count, loop 1 cur page_count ([] ++ links) w = Some r) →
  ∃ fuel, ∀ fuel', fuel ≤ fuel' →
    scrape_category config BeautifulSoup server fuel' category_url w0 = Some r.
Proof.
  intros Hprefix Hend.
  destruct (crawl_prefix_reaches _ _ _ _ _ Hprefix 1 []) as (k & n' & Hk).
  exists (k + 1). intros fuel' Hle. unfold scrape_category.
  apply loop_fuel_mono with (fuel := k + 1); [|exact Hle].
  fold (full_url config category_url). rewrite Hk. apply Hend.
Qed.

(** X6. A crawl that runs to the last page returns every link: when the
    pages of a category have been fetched one after the other and the
    page reached has no next-page link, or one that leads back to
    itself, [scrape_category] returns the links of all pages, the last
    one included, in order. *)
Theorem scrape_category_complete (category_url : string) (w0 : World)
    (links : list string) (cur : string) (w w1 : World) (html : string)
    (last_links : list string) :
  crawl_prefix config BeautifulSoup server (full_url config category_url) w0 links cur w →
  PyStr.truthy cur = true →
  get_page server cur 3 2%Q w = (Return (Some html), w1) →
  PyStr.truthy html = true →
  extract_product_links config BeautifulSoup html = Return last_links →
  get_next_page_url config BeautifulSoup html cur = None
  ∨ get_next_page_url config BeautifulSoup html cur = Some cur →
  ∃ fuel, ∀ fuel', fuel ≤ fuel' →
    scrape_category config BeautifulSoup server fuel' category_url w0
    = Some (Return (links ++ last_links), w1).
Proof.
  intros Hprefix Hu Hget Hhtml Hlinks Hnext.
  apply (scrape_category_after_prefix _ _ _ _ _ _ Hprefix). intros page_count.
  destruct Hnext as [Hnext|Hnext].
  - exact (loop_stops_on_last_page _ _ _ _ _ _ _ _ Hu Hget Hhtml Hlinks Hnext).
  - exact (loop_stops_on_cycle _ _ _ _ _ _ _ _ _ _ _ Hu Hget Hhtml Hlinks Hnext).
Qed.

(** X7. A malformed page loses the whole category: when a fetched page
    has a product anchor without [href], [scrape_category] raises the
    [KeyError], and the links of the pages crawled before it are not
    returned. *)
Theorem scrape_category_raises_on_bad_anchor (category_url : string) (w0 : World)
    (links : list string) (cur : string) (w w1 : World) (html : string) :
  crawl_prefix config BeautifulSoup server (full_url config category_url) w0 links cur w →
  PyStr.truthy cur = true →
  get_page server cur 3 2%Q w = (Return (Some html), w1) →
  PyStr.truthy html = true →
  ¬ Forall has_href (select (BeautifulSoup html) (SELECTORS "product_links")) →
  ∃ fuel, ∀ fuel', fuel ≤ fuel' →
    scrape_category config BeautifulSoup server fuel' category_url w0
    = Some (Raise (KeyError "href"), w1).
Proof.
  intros Hprefix Hu Hget Hhtml Hbad.
  apply (scrape_category_after_prefix _ _ _ _ _ _ Hprefix). intros page_count.
  apply loop_raises with html; try assumption.
  unfold extract_product_links. apply comprehension_missing_href, Hbad.
Qed.

(** X8. An empty body counts as a failed fetch: when the server answers
    a page request with an empty body, the crawl stops there and returns
    the links found so far; nothing is extracted from the empty page and
    no further page is requested. *)
Theorem scrape_category_stops_on_empty_body (category_url : string) (w0 : World)
    (links : list string) (cur : string) (w w1 : World) :
  crawl_prefix config BeautifulSoup server (full_url config category_url) w0 links cur w →
  PyStr.truthy cur = true →
  get_page server cur 3 2%Q w = (Return (Some ""), w1) →
  ∃ fuel, ∀ fuel', fuel ≤ fuel' →
    scrape_category config BeautifulSoup server fuel' category_url w0
    = Some (Return links, w1).
Proof.
  intros Hprefix Hu Hget.
  apply (scrape_category_after_prefix _ _ _ _ _ _ Hprefix). intros page_count.
  exact (loop_stops_on_empty_body _ _ _ _ _ _ Hu Hget).
Qed.

End CrawlFactsMore.

(** On a site that serves the first listing page to the first request,
    the crawl of the example category reaches its second page with the two
    links of the first. *)
Lemma first_page_crawled (site : nat → string → response) :
  site 0 "https://shop.example/rings" = Ok "listing" →
  crawl_prefix Example.shop Example.parser site
    (full_url Example.shop "/rings") initial_world
    ["https://shop.example/p/1"; "https://cdn.example/p/2"]
    "https://shop.example/rings?page=2" MoreExamples.after_first_page.
Proof.
  intros Hsite.
  apply (crawl_on Example.shop Example.parser site
           "https://shop.example/rings" initial_world "listing"
           {| requests := 1; events := [Request "https://shop.example/rings"] |}
           ["https://shop.example/p/1"; "https://cdn.example/p/2"]
           "https://shop.example/rings?page=2" []);
    try reflexivity.
  - unfold get_page. simpl. rewrite Hsite. reflexivity.
  - discriminate.
  - apply crawl_here.
Qed.

(** The example site with two listing pages: three links in all. *)
Lemma scrape_category_complete_witness :
  ∃ fuel, ∀ fuel', fuel ≤ fuel' →
    scrape_category Example.shop Example.parser Example.full_site fuel' "/rings"
      initial_world
    = Some (Return (["https://shop.example/p/1"; "https://cdn.example/p/2"]
                    ++ ["https://shop.example/p/3"]),
            snd (get_page Example.full_site "https://shop.example/rings?page=2" 3 2%Q
                   MoreExamples.after_first_page)).
Proof.
  apply (scrape_category_complete Example.shop Example.parser Example.full_site "/rings"
           initial_world _ "https://shop.example/rings?page=2"
           MoreExamples.after_first_page _ "last" ["https://shop.example/p/3"]
           (first_page_crawled Example.full_site eq_refl));
    try reflexivity.
  left. reflexivity.
Defined.

(** The site with a broken second page: the two links of the first page
    are lost. *)
Lemma scrape_category_raises_on_bad_anchor_witness :
  ∃ fuel, ∀ fuel', fuel ≤ fuel' →
    scrape_category Example.shop Example.parser MoreExamples.broken_site fuel' "/rings"
      initial_world
    = Some (Raise (KeyError "href"),
            snd (get_page MoreExamples.broken_site "https://shop.example/rings?page=2"
                   3 2%Q MoreExamples.after_first_page)).
Proof.
  apply (scrape_category_raises_on_bad_anchor Example.shop Example.parser
           MoreExamples.broken_site "/rings" initial_world _
           "https://shop.example/rings?page=2" MoreExamples.after_first_page _ "broken"
           (first_page_crawled MoreExamples.broken_site eq_refl));
    try reflexivity.
  intros Hall. apply Forall_cons_1 in Hall as [_ Hall].
  apply Forall_cons_1 in Hall as [[href Hhref] _]. discriminate Hhref.
Defined.

(** The site with an empty second page: the two links of the first page
    are returned. *)
Lemma scrape_category_stops_on_empty_body_witness :
  ∃ fuel, ∀ fuel', fuel ≤ fuel' →
    scrape_category Example.shop Example.parser MoreExamples.empty_body_site fuel' "/rings"
      initial_world
    = Some (Return ["https://shop.example/p/1"; "https://cdn.example/p/2"],
            snd (get_page MoreExamples.empty_body_site "https://shop.example/rings?page=2"
                   3 2%Q MoreExamples.after_first_page)).
Proof.
  apply (scrape_category_stops_on_empty_body Example.shop Example.parser
           MoreExamples.empty_body_site "/rings" initial_world _
           "https://shop.example/rings?page=2" MoreExamples.after_first_page _
           (first_page_crawled MoreExamples.empty_body_site eq_refl));
    reflexivity.
Defined.

(** ** The stand-alone scraper run *)

Section ScrapeAllFacts.

Variable config : JewelryScraperConfig.
Variable BeautifulSoup : string -> Soup.
Variable server : nat -> string -> response.
Variable strftime : World -> string -> string.
Variable fuel : nat.

Lemma parse_product_page_url (html product_url now : string) (product : Product) :
  parse_product_page BeautifulSoup html product_url now = Some product →
  url product = product_url.
Proof.
  unfold parse_product_page.
  destruct (select_one _ (SELECTORS "product_title")); [|discriminate].
  destruct (select_one _ (SELECTORS "product_sku")); [|discriminate].
  intros [= <-]. reflexivity.
Qed.

Lemma routed_available (html product_url now : string) (product : Product) :
  parse_product_page BeautifulSoup html product_url now = Some product →
  is_unavailable product = false → stock_status product = "Available".
Proof.
  intros Hparse Hun. destruct (decide (stock_status product = "Available")) as [H|H]; [exact H|].
  apply (is_unavailable_iff BeautifulSoup _ _ _ _ Hparse) in H. congruence.
Qed.

Lemma routed_unavailable (product : Product) :
  is_unavailable product = true →
  stock_status product ∈ ["Out of Stock"; "In Production"; "Removed"].
Proof. unfold is_unavailable. apply bool_decide_eq_true. Qed.

(** What the product loop adds to the two lists. *)
Lemma process_links_spec (links : list string) (i : nat)
    (products unavailable : list Product) (w : World)
    (products' unavailable' : list Product) (w' : World) :
  process_links BeautifulSoup server strftime i links products unavailable w
  = (Return (products', unavailable'), w') →
  ∃ new_available new_unavailable,
    products' = products ++ new_available
    ∧ unavailable' = unavailable ++ new_unavailable
    ∧ Forall (fun p => stock_status p = "Available") new_available
    ∧ Forall (fun p => stock_status p ∈ ["Out of Stock"; "In Production"; "Removed"])
        new_unavailable
    ∧ Forall (fun p => url p ∈ links) (new_available ++ new_unavailable)
    ∧ (NoDup links → NoDup (url <$> (new_available ++ new_unavailable)))
    ∧ length new_available + length new_unavailable ≤ length links.
Proof.
  revert i products unavailable w.
  induction links as [|link rest IH]; intros i products unavailable w H; simpl in H.
  - injection H as <- <- <-. exists [], []. rewrite !app_nil_r.
    repeat split; try constructor; simpl; lia.
  - destruct (get_page server link 3 2%Q w) as [[html|e] w1]; [|discriminate H].
    set (step :=
      match html with
      | Some html =>
          if PyStr.truthy html then
            match parse_product_page BeautifulSoup html link
                    (strftime w1 "%Y-%m-%d %H:%M:%S") with
            | Some product =>
                if is_unavailable product
                then (products, unavailable ++ [product])
                else (products ++ [product], unavailable)
            | None => (products, unavailable)
            end
          else (products, unavailable)
      | None => (products, unavailable)
      end) in H.
    assert (Hstep :
      step = (products, unavailable)
      ∨ (∃ p, step = (products ++ [p], unavailable)
              ∧ stock_status p = "Available" ∧ url p = link)
      ∨ (∃ p, step = (products, unavailable ++ [p])
              ∧ stock_status p ∈ ["Out of Stock"; "In Production"; "Removed"]
              ∧ url p = link)).
    { subst step. destruct html as [html|]; [|left; reflexivity].
      destruct (PyStr.truthy html); [|left; reflexivity].
      destruct (parse_product_page _ _ _ _) as [p|] eqn:Hparse; [|left; reflexivity].
      pose proof (parse_product_page_url _ _ _ _ Hparse) as Hurl.
      destruct (is_unavailable p) eqn:Hun.
      - right; right. exists p. split; [reflexivity|].
        split; [apply routed_unavailable, Hun | exact Hurl].
      - right; left. exists p. split; [reflexivity|].
        split; [exact (routed_available _ _ _ _ Hparse Hun) | exact Hurl]. }
    clearbody step. destruct step as [products1 unavailable1].
    destruct (IH _ _ _ _ H) as (na & nu & -> & -> & Hna & Hnu & Hurls & Hnodup & Hlen).
    assert (Hrest : Forall (fun p => url p ∈ link :: rest) (na ++ nu)).
    { eapply Forall_impl; [exact Hurls|]. simpl. intros p Hp. right. exact Hp. }
    assert (Hfresh : NoDup (link :: rest) → link ∉ url <$> (na ++ nu)).
    { intros Hnd Hin. apply NoDup_cons in Hnd as [Hnotin _]. apply Hnotin.
      apply list_elem_of_fmap in Hin as (p & -> & Hp).
      rewrite Forall_forall in Hurls. apply Hurls, Hp. }
    destruct Hstep as [[= -> ->]|[(p & [= -> ->] & Hst & Hurl)|(p & [= -> ->] & Hst & Hurl)]].
    + exists na, nu. repeat split; try assumption.
      * intros Hnd. apply Hnodup. apply NoDup_cons in Hnd. apply Hnd.
      * simpl. lia.
    + exists (p :: na), nu. rewrite <- app_assoc. repeat split; try assumption.
      * constructor; assumption.
      * simpl. constructor; [rewrite Hurl; left | exact Hrest].
      * intros Hnd. simpl. rewrite Hurl. apply NoDup_cons. split; [apply Hfresh, Hnd|].
        apply Hnodup. apply NoDup_cons in Hnd. apply Hnd.
      * simpl. lia.
    + exists na, (p :: nu). rewrite <- app_assoc. repeat split; try assumption.
      * constructor; assumption.
      * apply Forall_app. apply Forall_app in Hrest as [Ha Hu].
        split; [exact Ha|]. constructor; [rewrite Hurl; left | exact Hu].
      * intros Hnd. rewrite <- Permutation_middle. simpl. rewrite Hurl.
        apply NoDup_cons. split; [apply Hfresh, Hnd|].
        apply Hnodup. apply NoDup_cons in Hnd. apply Hnd.
      * rewrite length_cons. simpl in *. lia.
Qed.

(** X9. Routing in [scrape_all_products]: a run that returns keeps the
    two product lists it found and appends to them; every product it
    appends to the available list has status "Available", and every
    product it appends to the unavailable list has status "Out of Stock",
    "In Production" or "Removed". *)
Theorem scrape_all_products_routes (products unavailable : list Product) (w : World)
    (products' unavailable' : list Product) (w' : World) :
  scrape_all_products config BeautifulSoup server strftime fuel products unavailable w
  = Some (Return (products', unavailable'), w') →
  ∃ new_available new_unavailable,
    products' = products ++ new_available
    ∧ unavailable' = unavailable ++ new_unavailable
    ∧ Forall (fun p => stock_status p = "Available") new_available
    ∧ Forall (fun p => stock_status p ∈ ["Out of Stock"; "In Production"; "Removed"])
        new_unavailable.
Proof.
  unfold scrape_all_products.
  destruct (scrape_categories _ _ _ _ _ _ _) as [[[all|e] w1]|]; [|discriminate..].
  intros [= Hloop].
  destruct (process_links_spec _ _ _ _ _ _ _ _ Hloop)
    as (na & nu & Hp & Hu & Hna & Hnu & _).
  exists na, nu. auto.
Qed.

(** X10. Deduplication in [scrape_all_products]: the products a run
    appends have pairwise different URLs, each of them a link found in
    some category, and there are at most as many of them as there are
    distinct links. *)
Theorem scrape_all_products_one_product_per_link (products unavailable : list Product)
    (w : World) (products' unavailable' : list Product) (w' : World) :
  scrape_all_products config BeautifulSoup server strftime fuel products unavailable w
  = Some (Return (products', unavailable'), w') →
  ∃ all_product_links w1 new_available new_unavailable,
    scrape_categories config BeautifulSoup server fuel (CATEGORY_URLS config) [] w
    = Some (Return all_product_links, w1)
    ∧ products' = products ++ new_available
    ∧ unavailable' = unavailable ++ new_unavailable
    ∧ NoDup (url <$> (new_available ++ new_unavailable))
    ∧ Forall (fun p => url p ∈ all_product_links) (new_available ++ new_unavailable)
    ∧ length new_available + length new_unavailable
      ≤ size (list_to_set all_product_links : gset string).
Proof.
  unfold scrape_all_products.
  destruct (scrape_categories _ _ _ _ _ _ _) as [[[all|e] w1]|]; [|discriminate..].
  intros [= Hloop].
  destruct (process_links_spec _ _ _ _ _ _ _ _ Hloop)
    as (na & nu & Hp & Hu & _ & _ & Hurls & Hnodup & Hlen).
  exists all, w1, na, nu. split; [reflexivity|]. split; [exact Hp|]. split; [exact Hu|].
  split; [apply Hnodup, NoDup_elements|]. split; [|exact Hlen].
  eapply Forall_impl; [exact Hurls|]. simpl. intros p Hin.
  apply elem_of_elements, elem_of_list_to_set in Hin. exact Hin.
Qed.

End ScrapeAllFacts.

(** The run on the example site: three links, three products, all of them
    out of stock. *)
Lemma scrape_all_products_routes_witness :
  ∃ new_available new_unavailable,
    fst (MoreExamples.run_lists MoreExamples.shop_run) = [] ++ new_available
    ∧ snd (MoreExamples.run_lists MoreExamples.shop_run) = [] ++ new_unavailable
    ∧ Forall (fun p => stock_status p = "Available") new_available
    ∧ Forall (fun p => stock_status p ∈ ["Out of Stock"; "In Production"; "Removed"])
        new_unavailable.
Proof.
  apply (scrape_all_products_routes Example.shop Example.parser Example.full_site
           (fun _ _ => "2024-01-01 00:00:00") 10 [] [] initial_world
           (fst (MoreExamples.run_lists MoreExamples.shop_run))
           (snd (MoreExamples.run_lists MoreExamples.shop_run))
           (MoreExamples.run_world MoreExamples.shop_run)).
  vm_compute. reflexivity.
Defined.

Lemma scrape_all_products_one_product_per_link_witness :
  ∃ all_product_links w1 new_available new_unavailable,
    scrape_categories Example.shop Example.parser Example.full_site 10
      (CATEGORY_URLS Example.shop) [] initial_world
    = Some (Return all_product_links, w1)
    ∧ fst (MoreExamples.run_lists MoreExamples.shop_run) = [] ++ new_available
    ∧ snd (MoreExamples.run_lists MoreExamples.shop_run) = [] ++ new_unavailable
    ∧ NoDup (url <$> (new_available ++ new_unavailable))
    ∧ Forall (fun p => url p ∈ all_product_links) (new_available ++ new_unavailable)
    ∧ length new_available + length new_unavailable
      ≤ size (list_to_set all_product_links : gset string).
Proof.
  apply (scrape_all_products_one_product_per_link Example.shop Example.parser
           Example.full_site (fun _ _ => "2024-01-01 00:00:00") 10 [] [] initial_world
           (fst (MoreExamples.run_lists MoreExamples.shop_run))
           (snd (MoreExamples.run_lists MoreExamples.shop_run))
           (MoreExamples.run_world MoreExamples.shop_run)).
  vm_compute. reflexivity.
Defined.

(** ** The feed mapper *)

Lemma Got_inj {A} (a b : A) : Got a = Got b → a = b.
Proof.
  intros H.
  exact (f_equal (fun r => match r with Got x => x | IndexError => a end) H).
Qed.

Lemma amazon_item_got (product : Product) (item : gmap string string) :
  amazon_item product = Got item →
  ∃ w, item_weight product = Got w
       ∧ item = list_to_map (amazon_item_entries product w).
Proof.
  unfold amazon_item. destruct (item_weight product) as [w|]; [|discriminate].
  intros H. exists w. split; [reflexivity|]. symmetry. exact (Got_inj _ _ H).
Qed.

Lemma amazon_data_cons (p : Product) (ps : list Product) :
  amazon_data (p :: ps)
  = (item ← amazon_item p; items ← amazon_data ps; Got (item :: items)).
Proof. reflexivity. Qed.

Lemma amazon_data_items (products : list Product) (items : list (gmap string string)) :
  amazon_data products = Got items → Forall2 (fun p item => amazon_item p = Got item) products items.
Proof.
  revert items. induction products as [|p ps IH]; intros items H; simpl in H.
  - injection H as <-. constructor.
  - destruct (amazon_item p) as [item|] eqn:Hitem; [|discriminate].
    destruct (amazon_data ps) as [rest|]; [|discriminate].
    apply Got_inj in H. subst items. constructor; [exact Hitem | apply IH; reflexivity].
Qed.

Lemma item_weight_stripped (product : Product) :
  stripped (weight product) →
  item_weight product = Got (PyStrExt.word (weight product)).
Proof.
  unfold item_weight. intros [->|[Hf _]]; [reflexivity|].
  destruct (weight product) as [|c s] eqn:E; [discriminate|]. simpl PyStr.truthy. cbv iota.
  destruct (PyStrExtFacts.split_head (String c s) Hf) as [rest ->]. reflexivity.
Qed.

Lemma parsed_weight_stripped (BeautifulSoup : string → Soup) (html product_url now : string)
    (product : Product) :
  parse_product_page BeautifulSoup html product_url now = Some product →
  stripped (weight product).
Proof.
  unfold parse_product_page.
  destruct (select_one _ (SELECTORS "product_title")); [|discriminate].
  destruct (select_one _ (SELECTORS "product_sku")); [|discriminate].
  intros [= <-]. apply text_or_empty_stripped.
Qed.

Lemma parsed_image_fields (BeautifulSoup : string → Soup) (html product_url now : string)
    (product : Product) :
  parse_product_page BeautifulSoup html product_url now = Some product →
  main_image product
  = hd "" (extract_images (select (BeautifulSoup html) (SELECTORS "product_images")))
  ∧ other_images product
    = tl (extract_images (select (BeautifulSoup html) (SELECTORS "product_images"))).
Proof.
  unfold parse_product_page.
  destruct (select_one _ (SELECTORS "product_title")); [|discriminate].
  destruct (select_one _ (SELECTORS "product_sku")); [|discriminate].
  intros [= <-]. split; reflexivity.
Qed.

(** X11. The quantity column follows the routing: for a product that came
    out of [parse_product_page], the row built by the feed mapper has
    quantity "0" when the product is routed to the unavailable list and
    "10" when it is routed to the available list. *)
Theorem feed_quantity_follows_routing (BeautifulSoup : string → Soup)
    (html product_url now : string) (product : Product) (item : gmap string string) :
  parse_product_page BeautifulSoup html product_url now = Some product →
  amazon_item product = Got item →
  item !! "quantity" = Some (if is_unavailable product then "0" else "10").
Proof.
  intros Hparse Hitem. apply amazon_item_got in Hitem as (w & _ & ->).
  change (list_to_map (amazon_item_entries product w) !! "quantity")
    with (Some (quantity product)).
  f_equal. unfold quantity.
  destruct (is_unavailable product) eqn:Hun.
  - apply (is_unavailable_iff BeautifulSoup _ _ _ _ Hparse) in Hun.
    apply String.eqb_neq in Hun. rewrite Hun. reflexivity.
  - rewrite (routed_available BeautifulSoup _ _ _ _ Hparse Hun). reflexivity.
Qed.

(** X12. Image columns: for a product that came out of
    [parse_product_page], the five image columns of its row hold the
    first five image sources of the page in document order, with the
    empty string where the page has fewer; a sixth and later images
    reach no column. *)
Theorem feed_image_columns (BeautifulSoup : string → Soup)
    (html product_url now : string) (product : Product) (item : gmap string string) :
  parse_product_page BeautifulSoup html product_url now = Some product →
  amazon_item product = Got item →
  let images := extract_images (select (BeautifulSoup html) (SELECTORS "product_images")) in
  (fun column => item !! column)
    <$> [ "main-image-url"; "other-image-url1"; "other-image-url2";
          "other-image-url3"; "other-image-url4" ]
  = (fun k => Some (default "" (images !! k))) <$> [0; 1; 2; 3; 4].
Proof.
  intros Hparse Hitem images. apply amazon_item_got in Hitem as (w & _ & ->).
  assert (Hmain : main_image product = default "" (images !! 0)
                  ∧ ∀ k, item_or_empty (other_images product) k = default "" (images !! S k)).
  { destruct (parsed_image_fields _ _ _ _ _ Hparse) as [-> ->]. fold images.
    destruct images as [|image rest]; split; reflexivity. }
  destruct Hmain as [Hmain Hother].
  change ((fun column => list_to_map (amazon_item_entries product w) !! column)
            <$> [ "main-image-url"; "other-image-url1"; "other-image-url2";
                  "other-image-url3"; "other-image-url4" ])
    with [ Some (main_image product);
           Some (item_or_empty (other_images product) 0);
           Some (item_or_empty (other_images product) 1);
           Some (item_or_empty (other_images product) 2);
           Some (item_or_empty (other_images product) 3) ].
  rewrite Hmain, !Hother. reflexivity.
Qed.

(** X13. The price column: whatever the price text of the product, the
    price of its row contains no dollar sign and has no white space at
    its beginning or end. *)
Theorem feed_price_has_no_dollar (product : Product) (item : gmap string string) :
  amazon_item product = Got item →
  ∃ v, item !! "item-price" = Some v
       ∧ PyStr.contains "$" v = false
       ∧ stripped v.
Proof.
  intros Hitem. apply amazon_item_got in Hitem as (w & _ & ->).
  exists (item_price product). split; [reflexivity|]. unfold item_price. split.
  - destruct (PyStr.contains "$" (PyStr.strip _)) eqn:E; [|reflexivity].
    apply PyStrExtFacts.contains_strip in E.
    rewrite PyStrExtFacts.replace_char_gone in E. discriminate.
  - apply PyStrExtFacts.strip_stripped.
Qed.

(** X14. The feed mapper does not raise on extracted products: for a
    list of products that all came out of [parse_product_page] the
    mapping returns one row dictionary for each product, and the weight
    of a row is the first word of the product's weight text (the text up
    to the first white space; empty when the weight is empty). *)
Theorem feed_mapping_total_on_parsed (BeautifulSoup : string → Soup)
    (products : list Product) :
  Forall (fun p => ∃ html product_url now,
            parse_product_page BeautifulSoup html product_url now = Some p) products →
  ∃ items,
    amazon_data products = Got items
    ∧ Forall2 (fun p item =>
                 item !! "item-weight" = Some (PyStrExt.word (weight p))
                 ∧ PyStrExt.no_space (PyStrExt.word (weight p)) = true)
        products items.
Proof.
  induction 1 as [|p ps (html & product_url & now & Hparse) _ (items & Hitems & Hall)].
  - exists []. split; [reflexivity | constructor].
  - pose proof (item_weight_stripped p (parsed_weight_stripped _ _ _ _ _ Hparse)) as Hw.
    exists (list_to_map (amazon_item_entries p (PyStrExt.word (weight p))) :: items).
    split.
    + rewrite amazon_data_cons. unfold amazon_item. rewrite Hw, Hitems. reflexivity.
    + constructor; [|exact Hall].
      split; [reflexivity | apply PyStrExtFacts.word_no_space].
Qed.

(** A hand-made product whose weight is a single blank makes the mapper
    raise [IndexError]. *)
Example amazon_item_blank_weight_raises :
  amazon_item {| sku := "S"; title := "T"; price := ""; stock_status := "Available";
                 description := ""; materials := ""; dimensions := ""; weight := " ";
                 main_image := ""; other_images := []; url := ""; last_updated := "" |}
  = IndexError.
Proof. reflexivity. Qed.

(** X15. Nothing that the mapper computes is lost in the column
    selection: every key of a row dictionary is one of the feed columns,
    and in the table row one cell for each of the 39 columns, 23 are
    filled and 16 are always empty. *)
Theorem feed_row_fits_columns (product : Product) (item : gmap string string) :
  amazon_item product = Got item →
  (∀ key, is_Some (item !! key) → key ∈ AMAZON_FEED_COLUMNS)
  ∧ length ((fun column => item !! column) <$> AMAZON_FEED_COLUMNS) = 39
  ∧ length (filter is_Some ((fun column => item !! column) <$> AMAZON_FEED_COLUMNS)) = 23.
Proof.
  intros Hitem. apply amazon_item_got in Hitem as (w & _ & ->).
  split; [|split; [reflexivity | vm_compute; reflexivity]].
  intros key [v Hv]. apply elem_of_list_to_map_2 in Hv.
  assert (Hkeys : Forall (fun k => k ∈ AMAZON_FEED_COLUMNS) (amazon_item_entries product w).*1).
  { apply (bool_decide_unpack _). vm_compute. exact I. }
  rewrite Forall_forall in Hkeys. apply Hkeys.
  apply list_elem_of_fmap. exists (key, v). split; [reflexivity | exact Hv].
Qed.

(** The product of the example page: routed to the unavailable list,
    quantity "0". *)
Lemma feed_quantity_follows_routing_witness :
  MoreExamples.ring_item !! "quantity" = Some "0".
Proof.
  exact (feed_quantity_follows_routing Example.parser "ring" "u" "t"
           MoreExamples.ring_product MoreExamples.ring_item eq_refl eq_refl).
Defined.

Lemma feed_image_columns_witness :
  (fun column => MoreExamples.ring_item !! column)
    <$> [ "main-image-url"; "other-image-url1"; "other-image-url2";
          "other-image-url3"; "other-image-url4" ]
  = [Some "/img/a.png"; Some "/img/b.png"; Some ""; Some ""; Some ""].
Proof.
  exact (feed_image_columns Example.parser "ring" "u" "t"
           MoreExamples.ring_product MoreExamples.ring_item eq_refl eq_refl).
Defined.

Lemma feed_price_has_no_dollar_witness :
  ∃ v, MoreExamples.ring_item !! "item-price" = Some v
       ∧ PyStr.contains "$" v = false ∧ stripped v.
Proof.
  exact (feed_price_has_no_dollar MoreExamples.ring_product MoreExamples.ring_item eq_refl).
Defined.

Lemma feed_mapping_total_on_parsed_witness :
  ∃ items,
    amazon_data [MoreExamples.ring_product] = Got items
    ∧ Forall2 (fun p item =>
                 item !! "item-weight" = Some (PyStrExt.word (weight p))
                 ∧ PyStrExt.no_space (PyStrExt.word (weight p)) = true)
        [MoreExamples.ring_product] items.
Proof.
  apply (feed_mapping_total_on_parsed Example.parser [MoreExamples.ring_product]).
  apply Forall_cons_2; [|apply Forall_nil_2].
  exists "ring", "u", "t". reflexivity.
Defined.

Lemma feed_row_fits_columns_witness :
  "quantity" ∈ AMAZON_FEED_COLUMNS.
Proof.
  apply (proj1 (feed_row_fits_columns MoreExamples.ring_product MoreExamples.ring_item
                  eq_refl) "quantity").
  eexists. reflexivity.
Defined.

(** ** The product browser *)

(** A slice between two indices inside the list. *)
Lemma py_slice_inside {A} (a b : Z) (l : list A) :
  (0 <= a <= b)%Z → (b <= Z.of_nat (length l))%Z →
  py_slice a b l = take (Z.to_nat (b - a)) (drop (Z.to_nat a) l).
Proof.
  intros Ha Hb. unfold py_slice.
  replace (a <? 0)%Z with false by lia.
  replace (b <? 0)%Z with false by lia.
  rewrite !Z.min_l by lia. reflexivity.
Qed.

(** A slice that starts at or after the end of the list is empty. *)
Lemma py_slice_outside {A} (a b : Z) (l : list A) :
  (Z.of_nat (length l) <= a)%Z → py_slice a b l = [].
Proof.
  intros Ha. unfold py_slice.
  replace (a <? 0)%Z with false by lia.
  rewrite (Z.min_r a) by lia. rewrite Nat2Z.id, drop_all. apply take_nil.
Qed.

(** The rows of a page from the first on. *)
Lemma page_data_from_first {A} (df : list A) (page per_page : Z) :
  (0 < per_page)%Z → (1 <= page)%Z →
  py_slice ((page - 1) * per_page)
    (Z.min ((page - 1) * per_page + per_page) (Z.of_nat (length df))) df
  = take (Z.to_nat per_page) (drop (Z.to_nat ((page - 1) * per_page)) df).
Proof.
  intros Hp Hk.
  set (start_idx := ((page - 1) * per_page)%Z).
  assert (Hs : (0 <= start_idx)%Z) by (unfold start_idx; nia).
  destruct (Z_le_gt_dec (Z.of_nat (length df)) start_idx) as [Hout | Hin].
  - rewrite py_slice_outside by exact Hout.
    rewrite drop_ge by lia. symmetry. apply take_nil.
  - rewrite py_slice_inside by lia.
    destruct (Z_le_gt_dec (start_idx + per_page) (Z.of_nat (length df))) as [Hfull | Hlast].
    + rewrite Z.min_l by lia. f_equal. lia.
    + rewrite Z.min_r by lia.
      rewrite !take_ge; [reflexivity | |]; rewrite length_drop; lia.
Qed.

(** Consecutive chunks of a list make up a prefix of it. *)
Lemma chunks_take {A} (l : list A) (p t : nat) :
  concat ((fun i => take p (drop (i * p) l)) <$> seq 0 t) = take (t * p) l.
Proof.
  induction t as [|t IH].
  - reflexivity.
  - rewrite seq_S, fmap_app, concat_app, IH. simpl.
    rewrite app_nil_r, take_take_drop. f_equal. lia.
Qed.

(** X16.  For a positive page size and a page number from 1 on, the
    endpoint answers 200 with the rows [(page-1)*per_page ..
    page*per_page - 1] of the sheet (fewer on the last page, never more
    than [per_page]), echoes [page] and [per_page], reports the number of
    rows of the sheet, and reports as [total_pages] the least number of
    pages that hold all rows. *)
Theorem get_products_page {A} (df : list A) (page per_page : Z) :
  (0 < per_page)%Z → (1 <= page)%Z →
  ∃ total_pages,
    get_products (Sheet df) page per_page
    = Page200 (take (Z.to_nat per_page) (drop (Z.to_nat ((page - 1) * per_page)) df))
        page per_page (Z.of_nat (length df)) total_pages
    ∧ ((total_pages - 1) * per_page < Z.of_nat (length df) <= total_pages * per_page)%Z
    ∧ (length (page_rows (get_products (Sheet df) page per_page)) <= Z.to_nat per_page)%nat.
Proof.
  intros Hp Hk.
  exists ((Z.of_nat (length df) + per_page - 1) / per_page)%Z.
  assert (Heq : get_products (Sheet df) page per_page
    = Page200 (take (Z.to_nat per_page) (drop (Z.to_nat ((page - 1) * per_page)) df))
        page per_page (Z.of_nat (length df))
        ((Z.of_nat (length df) + per_page - 1) / per_page)%Z).
  { unfold get_products. replace (per_page =? 0)%Z with false by lia.
    cbv zeta. rewrite page_data_from_first by assumption. reflexivity. }
  split; [exact Heq | split].
  - pose proof (Z.div_mod (Z.of_nat (length df) + per_page - 1) per_page ltac:(lia)) as Hdm.
    pose proof (Z.mod_pos_bound (Z.of_nat (length df) + per_page - 1) per_page Hp) as Hm.
    nia.
  - rewrite Heq. simpl. rewrite length_take. lia.
Qed.

Lemma get_products_page_witness :
  ∃ total_pages,
    get_products (Sheet ["a"; "b"; "c"; "d"; "e"]) 3 2
    = Page200 (take (Z.to_nat 2) (drop (Z.to_nat ((3 - 1) * 2)) ["a"; "b"; "c"; "d"; "e"]))
        3 2 (Z.of_nat (length ["a"; "b"; "c"; "d"; "e"])) total_pages
    ∧ ((total_pages - 1) * 2 < Z.of_nat (length ["a"; "b"; "c"; "d"; "e"])
       <= total_pages * 2)%Z
    ∧ (length (page_rows (get_products (Sheet ["a"; "b"; "c"; "d"; "e"]) 3 2))
       <= Z.to_nat 2)%nat.
Proof.
  apply (get_products_page ["a"; "b"; "c"; "d"; "e"] 3 2); lia.
Defined.

(** X17.  For a positive page size, the pages 1 to [total_pages], read
    one after another, give back the sheet: every row is on exactly one
    page, in the order of the sheet. *)
Theorem get_products_pages_partition {A} (df : list A) (per_page : Z) :
  (0 < per_page)%Z →
  let total_pages := ((Z.of_nat (length df) + per_page - 1) / per_page)%Z in
  concat ((fun page => page_rows (get_products (Sheet df) (Z.of_nat page) per_page))
            <$> seq 1 (Z.to_nat total_pages))
  = df.
Proof.
  intros Hp total_pages.
  assert (Hceil : (Z.of_nat (length df) <= total_pages * per_page)%Z).
  { pose proof (Z.div_mod (Z.of_nat (length df) + per_page - 1) per_page ltac:(lia)) as Hdm.
    pose proof (Z.mod_pos_bound (Z.of_nat (length df) + per_page - 1) per_page Hp) as Hm.
    unfold total_pages. nia. }
  assert (Hnn : (0 <= total_pages)%Z).
  { unfold total_pages. apply Z.div_pos; lia. }
  transitivity (take (Z.to_nat total_pages * Z.to_nat per_page) df);
    [|apply take_ge; nia].
  rewrite <- chunks_take, <- (fmap_S_seq 0), <- list_fmap_compose.
  f_equal. apply list_fmap_ext. intros _ i _. simpl.
  unfold get_products. replace (per_page =? 0)%Z with false by lia.
  cbv zeta. unfold page_rows.
  rewrite page_data_from_first by lia.
  f_equal. f_equal. nia.
Qed.

Lemma get_products_pages_partition_witness :
  concat ((fun page => page_rows (get_products (Sheet ["a"; "b"; "c"; "d"; "e"])
                                    (Z.of_nat page) 2))
            <$> seq 1 (Z.to_nat ((Z.of_nat (length ["a"; "b"; "c"; "d"; "e"]) + 2 - 1) / 2)))
  = ["a"; "b"; "c"; "d"; "e"].
Proof.
  apply (get_products_pages_partition ["a"; "b"; "c"; "d"; "e"] 2). lia.
Defined.

(** X18.  A page number beyond the last page, and the page number 0, are
    not refused: for a positive page size the answer is 200 with no rows. *)
Theorem get_products_page_out_of_range {A} (df : list A) (page per_page : Z) :
  (0 < per_page)%Z →
  (page = 0 ∨ (Z.of_nat (length df) + per_page - 1) / per_page < page)%Z →
  ∃ total_pages,
    get_products (Sheet df) page per_page
    = Page200 [] page per_page (Z.of_nat (length df)) total_pages.
Proof.
  intros Hp Hpage. eexists.
  unfold get_products. replace (per_page =? 0)%Z with false by lia.
  cbv zeta. f_equal.
  destruct Hpage as [-> | Hbeyond].
  - unfold py_slice.
    replace ((0 - 1) * per_page <? 0)%Z with true by lia.
    replace (Z.min ((0 - 1) * per_page + per_page) (Z.of_nat (length df))) with 0%Z by lia.
    simpl (0 <? 0)%Z. cbv iota.
    rewrite (Z.min_l 0) by lia.
    replace (Z.to_nat (0 - _)) with 0%nat by lia. reflexivity.
  - apply py_slice_outside.
    pose proof (Z.div_mod (Z.of_nat (length df) + per_page - 1) per_page ltac:(lia)) as Hdm.
    pose proof (Z.mod_pos_bound (Z.of_nat (length df) + per_page - 1) per_page Hp) as Hm.
    nia.
Qed.

Lemma get_products_page_out_of_range_witness :
  ∃ total_pages,
    get_products (Sheet ["a"; "b"; "c"; "d"; "e"]) 4 2
    = Page200 [] 4 2 (Z.of_nat (length ["a"; "b"; "c"; "d"; "e"])) total_pages.
Proof.
  apply (get_products_page_out_of_range ["a"; "b"; "c"; "d"; "e"] 4 2).
  - lia.
  - right. vm_compute. reflexivity.
Defined.

(** X19.  A negative page number is not refused either: because the slice
    bounds are then negative, they count from the end of the sheet.  When
    the sheet has at least [(1 - page) * per_page] rows, the answer holds
    the [per_page] rows that start [(1 - page) * per_page] rows before the
    end. *)
Theorem get_products_negative_page {A} (df : list A) (page per_page : Z) :
  (0 < per_page)%Z → (page < 0)%Z →
  ((1 - page) * per_page <= Z.of_nat (length df))%Z →
  page_rows (get_products (Sheet df) page per_page)
  = take (Z.to_nat per_page)
      (drop (Z.to_nat (Z.of_nat (length df) - (1 - page) * per_page)) df)
  ∧ length (page_rows (get_products (Sheet df) page per_page)) = Z.to_nat per_page.
Proof.
  intros Hp Hneg Hrows.
  assert (Hdata : page_rows (get_products (Sheet df) page per_page)
    = take (Z.to_nat per_page)
        (drop (Z.to_nat (Z.of_nat (length df) - (1 - page) * per_page)) df)).
  { unfold get_products. replace (per_page =? 0)%Z with false by lia.
    cbv zeta. unfold page_rows, py_slice.
    assert (Hstart : ((page - 1) * per_page < 0)%Z) by nia.
    assert (Hend : ((page - 1) * per_page + per_page < 0)%Z) by nia.
    rewrite (Z.min_l ((page - 1) * per_page + per_page)) by lia.
    replace ((page - 1) * per_page <? 0)%Z with true by lia.
    replace ((page - 1) * per_page + per_page <? 0)%Z with true by lia.
    rewrite !Z.max_l by nia.
    f_equal; [|f_equal]; nia. }
  split; [exact Hdata|].
  rewrite Hdata, length_take, length_drop. nia.
Qed.

Lemma get_products_negative_page_witness :
  page_rows (get_products (Sheet ["a"; "b"; "c"; "d"; "e"]) (-1) 2)
  = take (Z.to_nat 2)
      (drop (Z.to_nat (Z.of_nat (length ["a"; "b"; "c"; "d"; "e"]) - (1 - (-1)) * 2))
         ["a"; "b"; "c"; "d"; "e"])
  ∧ length (page_rows (get_products (Sheet ["a"; "b"; "c"; "d"; "e"]) (-1) 2)) = Z.to_nat 2.
Proof.
  apply (get_products_negative_page ["a"; "b"; "c"; "d"; "e"] (-1) 2); simpl; lia.
Defined.

(** ** The elapsed-time format *)

(** A boolean test that holds on every number below a bound. *)
Lemma holds_below (P : nat → bool) (bound : nat) :
  forallb P (seq 0 bound) = true → ∀ n, n < bound → P n = true.
Proof.
  intros Hall n Hn. rewrite forallb_forall in Hall.
  apply Hall, in_seq. lia.
Qed.

Lemma pad2_table : pad2_table_ok 60 = true.
Proof. vm_compute. reflexivity. Qed.

Lemma pad2_table_spec (bound : nat) :
  pad2_table_ok bound = true →
  ∀ a b, (0 <= a < Z.of_nat bound)%Z → (0 <= b < Z.of_nat bound)%Z →
    String.length (pad2 a) = 2 ∧ (pad2 a = pad2 b → a = b).
Proof.
  intros Hok a b Ha Hb.
  pose proof (holds_below _ _ Hok (Z.to_nat a) ltac:(lia)) as Hrow.
  simpl in Hrow. rewrite Z2Nat.id in Hrow by lia.
  apply andb_prop in Hrow as [Hlen Hinj].
  split.
  - apply Nat.eqb_eq, Hlen.
  - intros Heq.
    pose proof (holds_below _ _ Hinj (Z.to_nat b) ltac:(lia)) as Hcell.
    simpl in Hcell. rewrite Z2Nat.id in Hcell by lia.
    rewrite Heq, String.eqb_refl in Hcell. simpl in Hcell.
    apply Nat.eqb_eq in Hcell. lia.
Qed.

(** Two concatenations with first parts of the same length are equal
    part by part. *)
Lemma append_inj (s1 s2 t1 t2 : string) :
  String.length s1 = String.length s2 →
  s1 +:+ t1 = s2 +:+ t2 → s1 = s2 ∧ t1 = t2.
Proof.
  revert s2. induction s1 as [|c s1 IH]; intros [|d s2] Hlen Heq;
    try discriminate Hlen.
  - split; [reflexivity | exact Heq].
  - rewrite !PyStrFacts.app_cons in Heq. injection Heq as -> Heq.
    injection Hlen as Hlen.
    destruct (IH s2 Hlen Heq) as [-> ->]. split; reflexivity.
Qed.

(** X20.  For non-negative whole seconds the text "H:MM:SS" has exactly
    two characters in its minute and second fields, and loses nothing:
    different durations are printed differently. *)
Theorem format_time_elapsed_injective (seconds1 seconds2 : Z) :
  (0 <= seconds1)%Z → (0 <= seconds2)%Z →
  String.length (format_time_elapsed seconds1)
  = String.length (pretty (seconds1 / 3600)%Z) + 6
  ∧ (format_time_elapsed seconds1 = format_time_elapsed seconds2 → seconds1 = seconds2).
Proof.
  intros H1 H2.
  assert (Hfield : ∀ x, (0 <= x)%Z →
            (0 <= x mod 3600 / 60 < 60)%Z ∧ (0 <= (x mod 3600) mod 60 < 60)%Z).
  { intros x Hx.
    pose proof (Z.mod_pos_bound x 3600 ltac:(lia)) as Hr.
    pose proof (Z.mod_pos_bound (x mod 3600) 60 ltac:(lia)) as Hs.
    split; [split|exact Hs].
    - apply Z.div_pos; lia.
    - apply Z.div_lt_upper_bound; lia. }
  assert (Hlen : ∀ x, (0 <= x)%Z →
            String.length (format_time_elapsed x)
            = String.length (pretty (x / 3600)%Z) + 6).
  { intros x Hx. destruct (Hfield x Hx) as [Hm Hs].
    unfold format_time_elapsed. cbv zeta.
    rewrite !ExampleFacts.length_app.
    rewrite (proj1 (pad2_table_spec 60 pad2_table _ 0%Z Hm ltac:(lia))).
    rewrite (proj1 (pad2_table_spec 60 pad2_table _ 0%Z Hs ltac:(lia))).
    simpl. lia. }
  split; [apply Hlen, H1|].
  intros Heq.
  pose proof (Hlen _ H1) as Hl1. pose proof (Hlen _ H2) as Hl2.
  rewrite Heq, Hl2 in Hl1.
  destruct (Hfield _ H1) as [Hm1 Hs1]. destruct (Hfield _ H2) as [Hm2 Hs2].
  unfold format_time_elapsed in Heq. cbv zeta in Heq.
  apply append_inj in Heq as [Hh Heq]; [|lia].
  apply (inj pretty) in Hh.
  apply append_inj in Heq as [_ Heq]; [|reflexivity].
  apply append_inj in Heq as [Hm Heq].
  2:{ rewrite (proj1 (pad2_table_spec 60 pad2_table _ 0%Z Hm1 ltac:(lia))).
      rewrite (proj1 (pad2_table_spec 60 pad2_table _ 0%Z Hm2 ltac:(lia))).
      reflexivity. }
  apply append_inj in Heq as [_ Hs]; [|reflexivity].
  apply (proj2 (pad2_table_spec 60 pad2_table _ _ Hm1 Hm2)) in Hm.
  apply (proj2 (pad2_table_spec 60 pad2_table _ _ Hs1 Hs2)) in Hs.
  rewrite (Z.div_mod seconds1 3600), (Z.div_mod seconds2 3600) by lia.
  rewrite (Z.div_mod (seconds1 mod 3600) 60), (Z.div_mod (seconds2 mod 3600) 60) by lia.
  rewrite Hh, Hm, Hs. reflexivity.
Qed.

Lemma format_time_elapsed_injective_witness :
  String.length (format_time_elapsed 3725)
  = String.length (pretty (3725 / 3600)%Z) + 6
  ∧ (format_time_elapsed 3725 = format_time_elapsed 3725 → 3725%Z = 3725%Z).
Proof.
  apply (format_time_elapsed_injective 3725 3725); lia.
Defined.

(** ** What the readers of the status can rely on *)

Lemma write_status_state (d : gmap string pyval) (j : Job) :
  ∃ j', interfere j = (inl tt, j')
        ∧ snd (write_status d j)
          = set_status (update_scraper_status d (scraper_status j')) (add_update d j').
Proof.
  unfold write_status, mbind, worker_bind.
  destruct (interfere_frame j) as (j' & Heq & _). exists j'. rewrite Heq. auto.
Qed.

Lemma write_status_lookup (d : gmap string pyval) (j : Job) (key : string) (v : pyval) :
  d !! key = Some v → scraper_status (snd (write_status d j)) !! key = Some v.
Proof.
  intros Hd. destruct (write_status_state d j) as (j' & _ & ->). simpl.
  apply lookup_union_Some_l, Hd.
Qed.

Lemma read_status_state (key : string) (j : Job) :
  ∃ j', interfere j = (inl tt, j') ∧ snd (read_status key j) = j'.
Proof.
  unfold read_status, mbind, worker_bind.
  destruct (interfere_frame j) as (j' & Heq & _). exists j'. rewrite Heq. auto.
Qed.

Lemma readable_update (status0 d s : gmap string pyval) :
  polite d → readable status0 s → readable status0 (update_scraper_status d s).
Proof.
  intros Hd [Hdom (p & Hp & Hb)]. unfold update_scraper_status. split.
  - rewrite dom_union. etrans; [exact Hdom | apply union_subseteq_r].
  - destruct (d !! "progress") as [v|] eqn:Hv.
    + destruct (Hd v Hv) as (q & -> & Hq). exists q.
      split; [apply lookup_union_Some_l; exact Hv | exact Hq].
    + exists p. split; [rewrite lookup_union_r by exact Hv; exact Hp | exact Hb].
Qed.

Lemma readable_other_writes (status0 : gmap string pyval)
    (ds : list (gmap string pyval)) (j : Job) :
  Forall polite ds →
  readable status0 (scraper_status j) → Forall (readable status0) (snapshots j) →
  readable status0 (scraper_status (foldl other_write j ds))
  ∧ Forall (readable status0) (snapshots (foldl other_write j ds)).
Proof.
  revert j. induction ds as [|d ds IH]; intros j Hds Hst Hsn; simpl; [auto|].
  apply Forall_cons_1 in Hds as [Hd Hds].
  pose proof (readable_update status0 d (scraper_status j) Hd Hst) as Hnew.
  apply IH; [exact Hds | exact Hnew|].
  simpl. apply Forall_app. split; [exact Hsn | apply Forall_singleton; exact Hnew].
Qed.

Lemma replay_interfere (status0 : gmap string pyval) (j j' : Job) :
  interfere j = (inl tt, j') → replay status0 j →
  replay status0 j' ∧ updates j' = updates j.
Proof.
  unfold interfere. intros Heq [Hot Hj].
  destruct (others j) as [|ds rest] eqn:Ho.
  - injection Heq as <-. split; [|reflexivity]. split; [rewrite Ho; exact Hot | exact Hj].
  - injection Heq as <-. apply Forall_cons_1 in Hot as [Hds Hrest].
    destruct (other_writes_frame ds (set_others rest j)) as (Hup & _ & Hoth & _).
    split; [|exact Hup]. split.
    + rewrite Hoth. exact Hrest.
    + rewrite Hup. intros Hpol. destruct (Hj Hpol) as [Hst Hsn].
      apply readable_other_writes; assumption.
Qed.

Lemma replay_write (status0 d : gmap string pyval) (j : Job) :
  replay status0 j → replay status0 (snd (write_status d j)).
Proof.
  intros Hj. destruct (write_status_state d j) as (j' & Heq & ->).
  destruct (replay_interfere status0 j j' Heq Hj) as [[Hot Hj'] Hup].
  split; [exact Hot|]. simpl. intros Hpol.
  apply Forall_app in Hpol as [Hpol Hd]. rewrite Forall_singleton in Hd.
  destruct (Hj' Hpol) as [Hst Hsn].
  pose proof (readable_update status0 d (scraper_status j') Hd Hst) as Hnew.
  split; [exact Hnew|].
  apply Forall_app. split; [exact Hsn | apply Forall_singleton; exact Hnew].
Qed.

Lemma replay_read (status0 : gmap string pyval) (key : string) (j : Job) :
  replay status0 j → replay status0 (snd (read_status key j)).
Proof.
  intros Hj. destruct (read_status_state key j) as (j' & Heq & ->).
  apply (replay_interfere status0 j j' Heq Hj).
Qed.

Lemma replay_insensitive (status0 : gmap string pyval) : insensitive (replay status0).
Proof.
  intros j j' Hst Hsn Hup Hot. unfold replay. rewrite Hst, Hsn, Hup, Hot. auto.
Qed.

Lemma other_writes_snapshots (ds : list (gmap string pyval)) (j : Job) :
  snapshots j ≠ [] → snapshots (foldl other_write j ds) ≠ [].
Proof.
  revert j. induction ds as [|d ds IH]; intros j Hj; simpl; [exact Hj|].
  apply IH. simpl. destruct (snapshots j); discriminate.
Qed.

Lemma some_snapshot_insensitive : insensitive (fun j => snapshots j ≠ []).
Proof. intros j j' _ Hsn _ _. rewrite Hsn. auto. Qed.

Lemma some_snapshot_write (d : gmap string pyval) (j : Job) :
  snapshots (snd (write_status d j)) ≠ [].
Proof.
  destruct (write_status_state d j) as (j' & _ & ->). simpl.
  destruct (snapshots j'); discriminate.
Qed.

Lemma some_snapshot_read (key : string) (j : Job) :
  snapshots j ≠ [] → snapshots (snd (read_status key j)) ≠ [].
Proof.
  intros Hj. destruct (read_status_state key j) as (j' & Heq & ->).
  unfold interfere in Heq. destruct (others j) as [|ds rest].
  - injection Heq as <-. exact Hj.
  - injection Heq as <-. apply other_writes_snapshots. exact Hj.
Qed.

(** The updates of a run are polite. *)
Lemma run_updates_polite
    (BeautifulSoup : string → Soup) (server : nat → string → response)
    (strftime : World → string → string) (time_time : World → Z)
    (generate_feeds : list Product → list Product → bool) (fuel : nat)
    (config : JobConfig) (history_len : nat) (status0 : gmap string pyval) (w : World)
    (faults : list bool) (others : list (list (gmap string pyval))) :
  Forall polite
    (updates (scraper_thread BeautifulSoup server strftime time_time generate_feeds fuel
                config history_len (new_job status0 w faults others)).2).
Proof.
  destruct (progress_values BeautifulSoup server strftime time_time generate_feeds fuel
              config history_len status0 w faults others)
    as (ks & ms & t & closing & Hw & _ & Hkb & _ & Hmb & Hout & _).
  cbv zeta in Hw, Hout, Hkb.
  set (run := scraper_thread _ _ _ _ _ _ _ _ _) in *.
  set (n := Z.of_nat _) in *.
  assert (Hclosing : Forall (fun p => (0 <= p <= 100)%Z) closing).
  { destruct run.1.
    - subst closing. repeat constructor; lia.
    - destruct Hout as (before & Hb & ->). apply Forall_app. split.
      + apply elem_of_cons in Hb as [->|Hb]; [constructor|].
        apply elem_of_cons in Hb as [->|Hb]; [repeat constructor; lia|].
        apply list_elem_of_singleton in Hb as ->. repeat constructor; lia.
      + repeat constructor; lia.
    - subst closing. constructor.
    - destruct Hout as (_ & _ & ->). constructor. }
  assert (Hall : Forall (fun p => (0 <= p <= 100)%Z)
                   (0 :: ((fun k => 30 * k / n) <$> ks)
                      ++ ((fun m => 30 + 60 * m / t) <$> ms) ++ closing)%Z).
  { constructor; [lia|]. apply Forall_app. split; [|apply Forall_app; split].
    - apply Forall_fmap. eapply Forall_impl; [exact Hkb|]. intros k Hk. simpl in *.
      split; [apply Z.div_pos; lia|].
      apply Z.le_trans with 30%Z; [|lia]. apply Z.div_le_upper_bound; lia.
    - apply Forall_fmap. eapply Forall_impl; [exact Hmb|]. intros m Hm. simpl in *.
      assert (0 <= 60 * m / t)%Z by (apply Z.div_pos; lia).
      assert (60 * m / t <= 60)%Z by (apply Z.div_le_upper_bound; lia). lia.
    - exact Hclosing. }
  apply Forall_forall. intros d Hd v Hv.
  assert (Hin : v ∈ progress_writes (updates run.2)).
  { unfold progress_writes. apply list_elem_of_omap. exists d. auto. }
  rewrite Hw in Hin. apply list_elem_of_fmap in Hin as (p & -> & Hp).
  exists p. split; [reflexivity|]. exact (proj1 (Forall_forall _ _) Hall p Hp).
Qed.

(** X21.  Whatever the site answers, wherever an exception strikes and
    however the run ends: if the shared dictionary holds an integer
    progress between 0 and 100 when the run starts and the other threads
    set the progress to nothing but such values, then every status that a
    reader can see during the run keeps all the keys that the dictionary
    had at the start and carries an integer progress between 0 and 100;
    and the run makes at least one status visible. *)
Theorem scraper_thread_status_readable
    (BeautifulSoup : string → Soup) (server : nat → string → response)
    (strftime : World → string → string) (time_time : World → Z)
    (generate_feeds : list Product → list Product → bool) (fuel : nat)
    (config : JobConfig) (history_len : nat) (status0 : gmap string pyval) (w : World)
    (faults : list bool) (others : list (list (gmap string pyval))) :
  (∃ p, status0 !! "progress" = Some (PInt p) ∧ (0 <= p <= 100)%Z) →
  Forall (Forall polite) others →
  let run := scraper_thread BeautifulSoup server strftime time_time generate_feeds fuel
               config history_len (new_job status0 w faults others) in
  snapshots run.2 ≠ []
  ∧ Forall (fun s => dom status0 ⊆ dom s
                     ∧ ∃ p, s !! "progress" = Some (PInt p) ∧ (0 <= p <= 100)%Z)
      (snapshots run.2).
Proof.
  intros Hp Hot run. split.
  - apply (run_keeps BeautifulSoup server strftime time_time generate_feeds fuel
             (fun j => snapshots j ≠ []) some_snapshot_insensitive
             (fun d j _ => some_snapshot_write d j) some_snapshot_read).
    intros d _ _. apply some_snapshot_write.
  - assert (Hrun : replay status0 run.2).
    { apply (run_keeps BeautifulSoup server strftime time_time generate_feeds fuel
               (replay status0) (replay_insensitive status0) (replay_write status0)
               (replay_read status0)).
      intros d _ _. apply replay_write. split; [exact Hot|].
      intros _. split; [|constructor]. split; [reflexivity | exact Hp]. }
    destruct Hrun as [_ Hrun]. apply Hrun. apply run_updates_polite.
Qed.

(** On the example site, with a second worker that performs its first
    update during the run. *)
Lemma scraper_thread_status_readable_witness :
  let run := WorkerExamples.run_with []
               [ []; []; []; []; []; []; [WorkerExamples.first_update] ] in
  snapshots run.2 ≠ []
  ∧ Forall (fun s => dom initial_scraper_status ⊆ dom s
                     ∧ ∃ p, s !! "progress" = Some (PInt p) ∧ (0 <= p <= 100)%Z)
      (snapshots run.2).
Proof.
  apply (scraper_thread_status_readable Example.parser Example.full_site
           (fun _ _ => "2024-01-01 00:00:00") (fun w => Z.of_nat (requests w))
           (fun _ _ => true) 10 Example.job_config 0 initial_scraper_status initial_world
           [] [ []; []; []; []; []; []; [WorkerExamples.first_update] ]).
  - exists 0%Z. split; [reflexivity | lia].
  - repeat constructor. intros v Hv. vm_compute in Hv. injection Hv as <-.
    exists 0%Z. split; [reflexivity | lia].
Defined.

(** ** How a run leaves the shared dictionary *)

Lemma configure_frame (config : JobConfig) (j : Job) :
  scraper_status (configure config j).2 = scraper_status j.
Proof.
  unfold configure.
  destruct (base_url config); [|reflexivity].
  destruct (user_agent config); [|reflexivity].
  destruct (categories config); [|reflexivity].
  unfold mbind, worker_bind, fault_point.
  destruct (faults j) as [|[|] rest]; reflexivity.
Qed.

(** A thread that dies before the [try] leaves the status of its first
    update. *)
Lemma died_state
    (BeautifulSoup : string → Soup) (server : nat → string → response)
    (strftime : World → string → string) (time_time : World → Z)
    (generate_feeds : list Product → list Product → bool) (fuel : nat)
    (config : JobConfig) (history_len : nat) (j : Job) :
  let run := scraper_thread BeautifulSoup server strftime time_time generate_feeds fuel
               config history_len j in
  run.1 = Died →
  scraper_status run.2 !! "status" = Some (PStr "Running")
  ∧ scraper_status run.2 !! "progress" = Some (PInt 0).
Proof.
  unfold scraper_thread. cbv zeta.
  match goal with
  | |- context [configure _ (snd (write_status ?d ?j))] =>
      pose proof (write_status_lookup d j "status" _ eq_refl) as Hs;
      pose proof (write_status_lookup d j "progress" _ eq_refl) as Hp;
      set (j1 := snd (write_status d j)) in *
  end.
  clearbody j1.
  pose proof (configure_frame config j1) as Hc.
  destruct (configure config j1) as [[[scraper_config total]|e] j2].
  - destruct (try_block _ _ _ _ _ _ _ _ _ _ j2) as [[[]|[|]] j3]; discriminate.
  - intros _. simpl in *. rewrite Hc. auto.
Qed.

(** X22.  How a run leaves the shared dictionary, whatever the other
    threads wrote in between: a completed run with status "Idle" and
    progress 100; a failed run with status "Idle", progress 0 and feed
    status "Failed"; a thread that died before the [try] with status
    "Running" and progress 0.  A run whose crawl never ends, with no other
    thread writing, has a status other than "Idle".  So the start
    endpoint accepts the next request after a completed and after a
    failed run and refuses it after a thread has died. *)
Theorem scraper_thread_end_state
    (BeautifulSoup : string → Soup) (server : nat → string → response)
    (strftime : World → string → string) (time_time : World → Z)
    (generate_feeds : list Product → list Product → bool) (fuel : nat)
    (config : JobConfig) (history_len : nat) (status0 : gmap string pyval) (w : World)
    (faults : list bool) (others : list (list (gmap string pyval))) :
  let run := scraper_thread BeautifulSoup server strftime time_time generate_feeds fuel
               config history_len (new_job status0 w faults others) in
  let final := scraper_status run.2 in
  match run.1 with
  | Completed =>
      final !! "status" = Some (PStr "Idle") ∧ final !! "progress" = Some (PInt 100)
  | Failed =>
      final !! "status" = Some (PStr "Idle") ∧ final !! "progress" = Some (PInt 0)
      ∧ final !! "feed_status" = Some (PStr "Failed")
  | Died =>
      final !! "status" = Some (PStr "Running") ∧ final !! "progress" = Some (PInt 0)
  | Hung => others = [] → not_idle final = true
  end
  ∧ ∀ next started,
      let b := {| shared_status := final; threads := started |} in
      match run.1 with
      | Completed | Failed =>
          start_scraper next b
          = (Json200 "Scraper started",
             {| shared_status := final; threads := started ++ [next] |})
      | Died => start_scraper next b = (Json400 "Scraper is already running", b)
      | Hung => others = [] →
                start_scraper next b = (Json400 "Scraper is already running", b)
      end.
Proof.
  intros run final.
  assert (Hstate :
    match run.1 with
    | Completed =>
        final !! "status" = Some (PStr "Idle") ∧ final !! "progress" = Some (PInt 100)
    | Failed =>
        final !! "status" = Some (PStr "Idle") ∧ final !! "progress" = Some (PInt 0)
        ∧ final !! "feed_status" = Some (PStr "Failed")
    | Died =>
        final !! "status" = Some (PStr "Running") ∧ final !! "progress" = Some (PInt 0)
    | Hung => others = [] → not_idle final = true
    end).
  { pose proof (run_keeps_running BeautifulSoup server strftime time_time generate_feeds
                  fuel (fun _ => True)
                  (fun j => scraper_status j !! "status" = Some (PStr "Idle")
                            ∧ scraper_status j !! "progress" = Some (PInt 100))) as Hgen.
    specialize (Hgen ltac:(intros ? ? _ _ _ _ _; exact I)).
    specialize (Hgen ltac:(intros j j' Hst _ _ _; rewrite Hst; auto)).
    specialize (Hgen ltac:(auto) ltac:(auto)).
    specialize (Hgen ltac:(intros d j Hs Hp _; split; apply write_status_lookup;
                           assumption)).
    specialize (Hgen config history_len (new_job status0 w faults others)
                  ltac:(intros; exact I)).
    cbv zeta in Hgen. fold run in Hgen.
    pose proof (died_state BeautifulSoup server strftime time_time generate_feeds fuel
                  config history_len (new_job status0 w faults others)) as Hdied.
    cbv zeta in Hdied. fold run in Hdied.
    pose proof (alone_run BeautifulSoup server strftime time_time generate_feeds fuel
                  config history_len (new_job status0 w faults [])
                  eq_refl eq_refl eq_refl) as Halone.
    cbv zeta in Halone.
    destruct run.1 eqn:Hout.
    - exact Hgen.
    - destruct Hgen as (j' & _ & Heq). unfold final. rewrite Heq.
      split; [|split]; apply write_status_lookup; reflexivity.
    - intros Hot. subst others. fold run in Halone. rewrite Hout in Halone.
      destruct Halone as (_ & _ & _ & _ & Hni & _). exact Hni.
    - apply Hdied. reflexivity. }
  split; [exact Hstate|].
  intros next started b. unfold start_scraper, b. simpl shared_status.
  destruct run.1.
  - destruct Hstate as [Hs _]. rewrite (idle_of_status final Hs). reflexivity.
  - destruct Hstate as [Hs _]. rewrite (idle_of_status final Hs). reflexivity.
  - intros Hot. rewrite (Hstate Hot). reflexivity.
  - destruct Hstate as [Hs _].
    assert (Hni : not_idle final = true).
    { unfold not_idle, status_get. rewrite Hs. reflexivity. }
    rewrite Hni. reflexivity.
Qed.

(** ** The start endpoint and the worker threads, under any schedule *)

Lemma scheduled_step (i : nat) (first : gmap string pyval)
    (rest closing : list (gmap string pyval)) (c k : nat) (b : Backend) :
  marks_running first → Forall keeps_running rest →
  scheduled i (first :: rest ++ closing) c b →
  c + (if decide (k = i) then 1 else 0) <= S (length rest) →
  scheduled i (first :: rest ++ closing) (c + (if decide (k = i) then 1 else 0))
    (thread_step k b).
Proof.
  intros Hfirst Hrest (Hi & Hlen & Hoth & Hni) Hc.
  unfold thread_step. destruct (decide (k = i)) as [->|Hk].
  - rewrite Hi.
    assert (Hlook : ∃ d, (first :: rest ++ closing) !! c = Some d
                         ∧ (c = 0 → marks_running d) ∧ (1 <= c → keeps_running d)).
    { destruct c as [|c].
      - exists first. split; [reflexivity|]. split; [auto | lia].
      - assert (Hc' : c < length rest) by lia.
        destruct (lookup_lt_is_Some_2 rest c Hc') as [d Hd].
        exists d. simpl. rewrite lookup_app_l by exact Hc'.
        split; [exact Hd|]. split; [lia|]. intros _.
        exact (proj1 (Forall_forall _ _) Hrest d (list_elem_of_lookup_2 _ _ _ Hd)). }
    destruct Hlook as (d & Hd & Hd0 & Hd1).
    rewrite (drop_S _ _ _ Hd). replace (c + 1) with (S c) by lia.
    split; [|split; [|split]]; simpl.
    + apply list_lookup_insert_eq. apply lookup_lt_is_Some_1. eauto.
    + rewrite length_insert. exact Hlen.
    + intros k l Hk Hl. rewrite list_lookup_insert_ne in Hl by auto.
      exact (Hoth k l Hk Hl).
    + intros _. destruct c as [|c].
      * apply not_idle_marked. auto.
      * apply not_idle_update; [apply Hd1; lia | apply Hni; lia].
  - rewrite Nat.add_0_r.
    destruct (threads b !! k) as [[|d l]|] eqn:Hl;
      [split; [|split; [|split]]; assumption | |split; [|split; [|split]]; assumption].
    pose proof (Hoth k (d :: l) Hk Hl) as Hdl.
    apply Forall_cons_1 in Hdl as [Hd Hl'].
    split; [|split; [|split]]; simpl.
    + rewrite list_lookup_insert_ne by auto. exact Hi.
    + rewrite length_insert. exact Hlen.
    + intros k' l' Hk' Hl''. destruct (decide (k' = k)) as [->|Hkk].
      * rewrite list_lookup_insert_eq in Hl'' by (apply lookup_lt_is_Some_1; eauto).
        injection Hl'' as <-. exact Hl'.
      * rewrite list_lookup_insert_ne in Hl'' by auto. exact (Hoth k' l' Hk' Hl'').
    + intros Hc1. apply not_idle_update; [exact Hd | apply Hni, Hc1].
Qed.

Lemma scheduled_run (i : nat) (first : gmap string pyval)
    (rest closing : list (gmap string pyval)) (schedule : list nat) (c : nat)
    (b : Backend) :
  marks_running first → Forall keeps_running rest →
  scheduled i (first :: rest ++ closing) c b →
  c + steps_of i schedule <= S (length rest) →
  scheduled i (first :: rest ++ closing) (c + steps_of i schedule)
    (run_schedule schedule b).
Proof.
  intros Hfirst Hrest. revert c b.
  induction schedule as [|k schedule IH]; intros c b Hb Hc; simpl in *.
  - rewrite Nat.add_0_r. exact Hb.
  - rewrite Nat.add_assoc. apply IH; [|lia].
    apply scheduled_step; [assumption.. | lia].
Qed.

Lemma scheduled_start (b : Backend) (run : list (gmap string pyval)) :
  not_idle (shared_status b) = false →
  Forall (Forall keeps_running) (threads b) →
  (start_scraper run b).1 = Json200 "Scraper started"
  ∧ scheduled (length (threads b)) run 0 (start_scraper run b).2.
Proof.
  intros Hidle Hoth. unfold start_scraper. rewrite Hidle. simpl.
  split; [reflexivity|]. split; [|split; [|split]]; simpl.
  - rewrite lookup_app_r by lia. rewrite Nat.sub_diag. reflexivity.
  - rewrite length_app. simpl. lia.
  - intros k l Hk Hl.
    assert (Hlt : k < length (threads b)).
    { apply lookup_lt_Some in Hl. rewrite length_app in Hl. simpl in Hl. lia. }
    rewrite lookup_app_l in Hl by exact Hlt.
    exact (proj1 (Forall_forall _ _) Hoth l (list_elem_of_lookup_2 _ _ _ Hl)).
  - lia.
Qed.

(** X24.  A start request is accepted while the status is "Idle".  Under
    every schedule of the threads then alive in which no thread writes
    "Idle": once the thread that the request started has performed its
    first update, which marks the job as running, and for as long as it
    goes on with updates that do not write "Idle", every further start
    request is answered with the "already running" error and starts no
    thread. *)
Theorem start_scraper_excludes_while_busy (b : Backend) (first : gmap string pyval)
    (rest closing : list (gmap string pyval)) (schedule : list nat)
    (next : list (gmap string pyval)) :
  not_idle (shared_status b) = false →
  Forall (Forall keeps_running) (threads b) →
  marks_running first → Forall keeps_running rest →
  1 <= steps_of (length (threads b)) schedule <= S (length rest) →
  let r := start_scraper (first :: rest ++ closing) b in
  let b' := run_schedule schedule r.2 in
  r.1 = Json200 "Scraper started"
  ∧ start_scraper next b' = (Json400 "Scraper is already running", b')
  ∧ length (threads b') = S (length (threads b)).
Proof.
  intros Hidle Hoth Hfirst Hrest Hsteps r b'.
  destruct (scheduled_start b (first :: rest ++ closing) Hidle Hoth) as [Hr H0].
  fold r in Hr, H0. split; [exact Hr|].
  pose proof (scheduled_run (length (threads b)) first rest closing schedule 0 r.2
                Hfirst Hrest H0 ltac:(simpl; lia)) as (_ & Hlen & _ & Hni).
  fold b' in Hlen, Hni. split; [|exact Hlen].
  unfold start_scraper. rewrite Hni by (simpl; lia). reflexivity.
Qed.

(** On a backend with a lingering thread: the new thread performs two
    updates and the lingering one its last. *)
Lemma start_scraper_excludes_while_busy_witness :
  let r := start_scraper (WorkerExamples.first_update
                            :: [ {[ "progress" := PInt 30 ]} ] ++ [failure_update])
             WorkerExamples.lingering_backend in
  let b' := run_schedule [1; 0; 1] r.2 in
  r.1 = Json200 "Scraper started"
  ∧ start_scraper [] b' = (Json400 "Scraper is already running", b')
  ∧ length (threads b') = 2.
Proof.
  apply (start_scraper_excludes_while_busy WorkerExamples.lingering_backend
           WorkerExamples.first_update [ {[ "progress" := PInt 30 ]} ] [failure_update]
           [1; 0; 1] []).
  - reflexivity.
  - repeat constructor.
  - exists "Running". split; [reflexivity | discriminate].
  - repeat constructor.
  - simpl. lia.
Defined.

(** *** The updates of a run, whatever the other threads write *)

Lemma updates_under_way_write (d : gmap string pyval) (j : Job) :
  keeps_running d → updates_under_way j → updates_under_way (snd (write_status d j)).
Proof.
  intros Hd (first & rest & Hup & Hfirst & Hrest).
  destruct (write_status_state d j) as (j' & Heq & ->).
  destruct (interfere_frame j) as (j'' & Heq' & Hup' & _).
  rewrite Heq in Heq'. injection Heq' as <-.
  exists first, (rest ++ [d]). simpl. rewrite Hup', Hup.
  split; [reflexivity|]. split; [exact Hfirst|].
  apply Forall_app. split; [exact Hrest | apply Forall_singleton; exact Hd].
Qed.

Lemma updates_under_way_read (key : string) (j : Job) :
  updates_under_way j → updates_under_way (snd (read_status key j)).
Proof.
  intros Hj. destruct (read_status_state key j) as (j' & Heq & ->).
  destruct (interfere_frame j) as (j'' & Heq' & Hup' & _).
  rewrite Heq in Heq'. injection Heq' as <-.
  unfold updates_under_way. rewrite Hup'. exact Hj.
Qed.

Lemma updates_closed_final (d : gmap string pyval) (j : Job) :
  d !! "status" = Some (PStr "Idle") →
  updates_under_way j → updates_closed (snd (write_status d j)).
Proof.
  intros Hd (first & rest & Hup & Hfirst & Hrest).
  destruct (write_status_state d j) as (j' & Heq & ->).
  destruct (interfere_frame j) as (j'' & Heq' & Hup' & _).
  rewrite Heq in Heq'. injection Heq' as <-.
  exists first, rest, d. simpl. rewrite Hup', Hup. auto.
Qed.


Lemma updates_first (d : gmap string pyval) (j : Job) :
  updates j = [] → marks_running d → updates_under_way (snd (write_status d j)).
Proof.
  intros Hup Hd.
  destruct (write_status_state d j) as (j' & Heq & ->).
  destruct (interfere_frame j) as (j'' & Heq' & Hup' & _).
  rewrite Heq in Heq'. injection Heq' as <-.
  exists d, []. simpl. rewrite Hup', Hup. auto.
Qed.

(** The updates of a run: one that marks the job as running, updates
    that leave it so, and the closing updates. *)
Lemma run_updates_shape
    (BeautifulSoup : string → Soup) (server : nat → string → response)
    (strftime : World → string → string) (time_time : World → Z)
    (generate_feeds : list Product → list Product → bool) (fuel : nat)
    (config : JobConfig) (history_len : nat) (status0 : gmap string pyval) (w : World)
    (faults : list bool) (others : list (list (gmap string pyval))) :
  let run := scraper_thread BeautifulSoup server strftime time_time generate_feeds fuel
               config history_len (new_job status0 w faults others) in
  ∃ first rest final,
    updates run.2 = first :: rest ++ final
    ∧ marks_running first ∧ Forall keeps_running rest
    ∧ Forall (fun d => d !! "status" = Some (PStr "Idle")) final
    ∧ match run.1 with
      | Completed => length final = 1
      | Failed => 1 <= length final <= 2
      | Hung | Died => final = []
      end.
Proof.
  intros run.
  pose proof (run_keeps_running BeautifulSoup server strftime time_time generate_feeds
                fuel updates_under_way updates_closed) as Hgen.
  specialize (Hgen ltac:(intros j j' _ _ Hup _; unfold updates_under_way;
                         rewrite Hup; auto)).
  specialize (Hgen ltac:(intros j j' _ _ Hup _; unfold updates_closed;
                         rewrite Hup; auto)).
  specialize (Hgen updates_under_way_write updates_under_way_read).
  specialize (Hgen ltac:(intros d j Hd _; apply updates_closed_final; exact Hd)).
  specialize (Hgen config history_len (new_job status0 w faults others)).
  specialize (Hgen ltac:(intros d _ Hs; apply updates_first;
                         [reflexivity | exists "Running"; split;
                                        [exact Hs | discriminate]])).
  cbv zeta in Hgen. fold run in Hgen.
  assert (Hway : ∀ j, updates_under_way j →
            ∃ first rest final, updates j = first :: rest ++ final
              ∧ marks_running first ∧ Forall keeps_running rest
              ∧ Forall (fun d => d !! "status" = Some (PStr "Idle")) final
              ∧ final = []).
  { intros j (first & rest & Hup & Hfirst & Hrest).
    exists first, rest, []. rewrite app_nil_r. auto. }
  assert (Hclosed : ∀ j, updates_closed j →
            ∃ first rest final, updates j = first :: rest ++ final
              ∧ marks_running first ∧ Forall keeps_running rest
              ∧ Forall (fun d => d !! "status" = Some (PStr "Idle")) final
              ∧ length final = 1).
  { intros j (first & rest & final & Hup & Hfirst & Hrest & Hfinal).
    exists first, rest, [final]. auto 10. }
  destruct run.1.
  - exact (Hclosed _ Hgen).
  - destruct Hgen as (j' & Hj' & Heq).
    assert (Hup : updates run.2 = updates j' ++ [failure_update]).
    { rewrite Heq. destruct (write_status_state failure_update j') as (j'' & Hi & ->).
      destruct (interfere_frame j') as (j3 & Hi' & Hup' & _).
      rewrite Hi in Hi'. injection Hi' as <-. simpl. rewrite Hup'. reflexivity. }
    assert (Hsome : ∃ first rest final, updates j' = first :: rest ++ final
              ∧ marks_running first ∧ Forall keeps_running rest
              ∧ Forall (fun d => d !! "status" = Some (PStr "Idle")) final
              ∧ length final <= 1).
    { destruct Hj' as [Hj'|Hj'];
        [destruct (Hway _ Hj') as (first & rest & final & H1 & H2 & H3 & H4 & H5)
        |destruct (Hclosed _ Hj') as (first & rest & final & H1 & H2 & H3 & H4 & H5)];
        exists first, rest, final; repeat (split; [assumption|]);
        [rewrite H5; simpl; lia | lia]. }
    destruct Hsome as (first & rest & final & H1 & H2 & H3 & H4 & H5).
    exists first, rest, (final ++ [failure_update]).
    rewrite Hup, H1. split; [rewrite <- app_comm_cons, <- List.app_assoc; reflexivity|].
    split; [exact H2|]. split; [exact H3|]. split.
    + apply Forall_app. split; [exact H4 | apply Forall_singleton; reflexivity].
    + rewrite length_app. simpl. lia.
  - destruct (Hway _ Hgen) as (first & rest & final & Hup & Hf & Hr & Hi & Hlen).
    exists first, rest, final. auto 10.
  - destruct (Hway _ Hgen) as (first & rest & final & Hup & Hf & Hr & Hi & Hlen).
    exists first, rest, final. auto 10.
Qed.

(** X25.  The worker and the start endpoint together.  When a start
    request has been accepted and the thread performs the updates of a
    run of the worker, then under every schedule of the threads alive in
    which no other thread writes "Idle", every further start request is
    rejected from the first update of the run up to its closing updates,
    whatever the other threads wrote while the run went on. *)
Theorem worker_run_excludes_second_start
    (BeautifulSoup : string → Soup) (server : nat → string → response)
    (strftime : World → string → string) (time_time : World → Z)
    (generate_feeds : list Product → list Product → bool) (fuel : nat)
    (config : JobConfig) (history_len : nat) (status0 : gmap string pyval) (w : World)
    (faults : list bool) (others : list (list (gmap string pyval)))
    (b : Backend) (schedule : list nat) (next : list (gmap string pyval)) :
  let run := scraper_thread BeautifulSoup server strftime time_time generate_feeds fuel
               config history_len (new_job status0 w faults others) in
  let b' := run_schedule schedule (start_scraper (updates run.2) b).2 in
  not_idle (shared_status b) = false →
  Forall (Forall keeps_running) (threads b) →
  1 <= steps_of (length (threads b)) schedule →
  steps_of (length (threads b)) schedule + closing_updates run.1
  <= length (updates run.2) →
  start_scraper next b' = (Json400 "Scraper is already running", b')
  ∧ length (threads b') = S (length (threads b)).
Proof.
  intros run b' Hidle Hoth Hk1 Hk.
  destruct (run_updates_shape BeautifulSoup server strftime time_time generate_feeds
              fuel config history_len status0 w faults others)
    as (first & rest & final & Hup & Hfirst & Hrest & _ & Hlen).
  fold run in Hup, Hlen.
  assert (Hsteps : steps_of (length (threads b)) schedule <= S (length rest)).
  { rewrite Hup in Hk. simpl in Hk. rewrite length_app in Hk.
    destruct run.1; simpl in Hk; try subst final; simpl in *; lia. }
  destruct (scheduled_start b (updates run.2) Hidle Hoth) as [_ H0].
  rewrite Hup in H0.
  pose proof (scheduled_run (length (threads b)) first rest final schedule 0 _
                Hfirst Hrest H0 ltac:(simpl; lia)) as (_ & Hl & _ & Hni).
  rewrite <- Hup in Hl, Hni. fold b' in Hl, Hni.
  split; [|exact Hl].
  unfold start_scraper. rewrite Hni by (simpl; lia). reflexivity.
Qed.

(** The sample run on the backend with a lingering thread. *)
Lemma worker_run_excludes_second_start_witness :
  let b' := run_schedule [1; 1; 0; 1]
              (start_scraper (updates Example.sample_run.2)
                 WorkerExamples.lingering_backend).2 in
  start_scraper [] b' = (Json400 "Scraper is already running", b')
  ∧ length (threads b') = 2.
Proof.
  apply (worker_run_excludes_second_start Example.parser Example.full_site
           (fun _ _ => "2024-01-01 00:00:00") (fun w => Z.of_nat (requests w))
           (fun _ _ => true) 10 Example.job_config 0
           initial_scraper_status initial_world [] []
           WorkerExamples.lingering_backend [1; 1; 0; 1] []).
  - reflexivity.
  - repeat constructor.
  - simpl. lia.
  - vm_compute. lia.
Defined.

(** X23.  The worker writes status "Idle" only to close its run.
    Whatever the other threads write, the updates of a run are one that
    marks the job as running, updates that leave the status as it is or
    set it to something other than "Idle", and then the closing updates,
    which set it to "Idle": one after a completed run, one or two after a
    failed run, none while a crawl goes on or when the thread died.  And
    when no other thread writes, the statuses that the run makes visible
    are accordingly one or more that are not "Idle", followed by the
    closing ones that are. *)
Theorem scraper_thread_idle_only_at_end
    (BeautifulSoup : string → Soup) (server : nat → string → response)
    (strftime : World → string → string) (time_time : World → Z)
    (generate_feeds : list Product → list Product → bool) (fuel : nat)
    (config : JobConfig) (history_len : nat) (status0 : gmap string pyval) (w : World)
    (faults : list bool) (others : list (list (gmap string pyval))) :
  let run := scraper_thread BeautifulSoup server strftime time_time generate_feeds fuel
               config history_len (new_job status0 w faults others) in
  (∃ first rest final,
     updates run.2 = first :: rest ++ final
     ∧ marks_running first ∧ Forall keeps_running rest
     ∧ Forall (fun d => d !! "status" = Some (PStr "Idle")) final
     ∧ match run.1 with
       | Completed => length final = 1
       | Failed => 1 <= length final <= 2
       | Hung | Died => final = []
       end)
  ∧ (others = [] →
     ∃ under_way closing,
       snapshots run.2 = under_way ++ closing
       ∧ under_way ≠ []
       ∧ Forall (fun s => not_idle s = true) under_way
       ∧ Forall (fun s => not_idle s = false) closing
       ∧ match run.1 with
         | Completed => length closing = 1
         | Failed => 1 <= length closing <= 2
         | Hung | Died => closing = []
         end).
Proof.
  intros run. split.
  - apply run_updates_shape.
  - intros ->.
    destruct (alone_run_shape BeautifulSoup server strftime time_time generate_feeds fuel
                config history_len status0 w faults)
      as (under_way & closing & first & rest & final & Hsn & Hu & Hc & _ & _ & _ & Hlen
          & _ & Hout).
    fold run in Hsn, Hout. exists under_way, closing.
    split; [exact Hsn | split; [|split; [exact Hu | split; [exact Hc | exact Hout]]]].
    destruct under_way; [discriminate Hlen | discriminate].
Qed.

(** ** The counters of the status *)

Lemma shows_update_keep (s0 d s : gmap string pyval) (key : string) (n : Z) :
  d !! key = None → shows s0 s key n → shows s0 (update_scraper_status d s) key n.
Proof.
  intros Hd Hs. unfold shows, update_scraper_status.
  rewrite (lookup_union_r _ _ _ Hd). exact Hs.
Qed.

Lemma shows_update_set (s0 d s : gmap string pyval) (key : string) (n : Z) :
  d !! key = Some (PInt n) → n ≠ 0%Z → shows s0 (update_scraper_status d s) key n.
Proof.
  intros Hd Hn. unfold shows, update_scraper_status.
  rewrite (lookup_union_Some_l _ _ _ _ Hd).
  destruct (Z.eqb_spec n 0); [contradiction | reflexivity].
Qed.

Lemma tally_frame (s0 : gmap string pyval) (t : option Z) (i c : Z) (j j' : Job) :
  scraper_status j' = scraper_status j → products j' = products j →
  unavailable_products j' = unavailable_products j →
  others j' = others j → faults j' = faults j →
  tally s0 t i c j → tally s0 t i c j'.
Proof. intros Hst Hp Hu Hot Hfa. unfold tally. rewrite Hst, Hp, Hu, Hot, Hfa. tauto. Qed.

Lemma tally_le (s0 : gmap string pyval) (t : option Z) (i c c' : Z) (j : Job) :
  (c <= c')%Z → tally s0 t i c j → tally s0 t i c' j.
Proof.
  intros Hle (H0 & H0' & H1 & H2 & H3 & H4 & H5).
  repeat (split; [assumption|]). split; [lia | exact H5].
Qed.

(** In a run on its own in which no exception strikes, a status update
    is performed. *)
Lemma update_calm (d : gmap string pyval) (j : Job) :
  others j = [] → calm (faults j) →
  ∃ j', update d j = (inl tt, j')
        ∧ scraper_status j' = update_scraper_status d (scraper_status j)
        ∧ products j' = products j
        ∧ unavailable_products j' = unavailable_products j
        ∧ others j' = [] ∧ calm (faults j').
Proof.
  intros Hot Hcalm.
  unfold update, write_status, mbind, worker_bind, fault_point, interfere, own_write.
  destruct (faults j) as [|[|] rest] eqn:Hf.
  - rewrite Hot. eexists. split; [reflexivity|]. simpl. rewrite Hf. auto 10.
  - apply Forall_cons_1 in Hcalm as [Habs _]. discriminate Habs.
  - simpl. rewrite Hot. eexists. split; [reflexivity|]. simpl.
    apply Forall_cons_1 in Hcalm as [_ Hrest]. auto 10.
Qed.

(** An update that writes neither product counter. *)
Lemma tally_update EE (s0 : gmap string pyval) (t t' : option Z) (i i' c : Z)
    (d : gmap string pyval) :
  d !! "available_products" = None → d !! "unavailable_products" = None →
  (d !! "products_processed" = None ∧ i' = i
   ∨ d !! "products_processed" = Some (PInt i') ∧ i' ≠ 0%Z) →
  (d !! "total_products" = None ∧ t' = t
   ∨ ∃ n, d !! "total_products" = Some (PInt n) ∧ t' = Some n) →
  triple EE (tally s0 t i c) (update d) (fun _ => tally s0 t' i' c).
Proof.
  intros Ha Hu Hp Ht j (Hot & Hcalm & H1 & H2 & H3 & H4 & H5).
  destruct (update_calm d j Hot Hcalm) as (j' & -> & Hst & Hpr & Hun & Hot' & Hcalm').
  unfold tally. rewrite Hst, Hpr, Hun.
  split; [exact Hot'|]. split; [exact Hcalm'|].
  split; [|split; [|split; [|split]]].
  - destruct Hp as [[Hp ->] | [Hp Hi]];
      [apply shows_update_keep | apply shows_update_set]; assumption.
  - apply shows_update_keep; assumption.
  - apply shows_update_keep; assumption.
  - exact H4.
  - intros n Hn. unfold update_scraper_status.
    destruct Ht as [[Ht ->] | (m & Ht & ->)].
    + rewrite (lookup_union_r _ _ _ Ht). apply H5, Hn.
    + injection Hn as <-. apply lookup_union_Some_l, Ht.
Qed.

Local Ltac other_keys :=
  apply tally_update;
  [reflexivity | reflexivity | left; split; reflexivity | left; split; reflexivity].

(** Steps that leave alone what [tally] reads. *)
Lemma tally_silent {A} EE (s0 : gmap string pyval) (t : option Z) (i c : Z)
    (m : Worker A) :
  (∀ j, scraper_status (m j).2 = scraper_status j ∧ products (m j).2 = products j
        ∧ unavailable_products (m j).2 = unavailable_products j
        ∧ others (m j).2 = others j ∧ faults (m j).2 = faults j) →
  (∀ e j, tally s0 t i c j → EE e j) →
  triple EE (tally s0 t i c) m (fun _ => tally s0 t i c).
Proof.
  intros Hm HE j Hj. destruct (Hm j) as (Hst & Hp & Hu & Hot & Hfa).
  pose proof (tally_frame s0 t i c j (m j).2 Hst Hp Hu Hot Hfa Hj) as Hj'.
  destruct (m j) as [[a|e] j']; [exact Hj' | apply HE, Hj'].
Qed.

Lemma tally_read_status EE (s0 : gmap string pyval) (t : option Z) (i c : Z)
    (key : string) :
  triple EE (tally s0 t i c) (read_status key) (fun _ => tally s0 t i c).
Proof.
  intros j Hj. pose proof Hj as (Hot & _).
  unfold read_status, mbind, worker_bind, interfere, own_read. rewrite Hot. exact Hj.
Qed.

Section WorkerCounters.

Variable BeautifulSoup : string -> Soup.
Variable server : nat -> string -> response.
Variable strftime : World -> string -> string.
Variable time_time : World -> Z.
Variable generate_feeds : list Product -> list Product -> bool.
Variable fuel : nat.

(** The shared dictionary when the run starts. *)
Variable s0 : gmap string pyval.

Lemma tally_in_world {A} EE (t : option Z) (i c : Z) (f : World → A * World) :
  triple EE (tally s0 t i c) (in_world f) (fun _ => tally s0 t i c).
Proof.
  intros j Hj. unfold in_world. destruct (f (world j)) as [a w].
  exact (tally_frame s0 t i c j _ eq_refl eq_refl eq_refl eq_refl eq_refl Hj).
Qed.

Lemma tally_category_loop (scraper_config : JewelryScraperConfig) (total : Z)
    (category_urls all_product_links : list string) (processed : Z) :
  triple anywhere (tally s0 None 0 0)
    (category_loop BeautifulSoup server fuel scraper_config total category_urls
       all_product_links processed)
    (fun _ => tally s0 None 0 0).
Proof.
  revert all_product_links processed.
  induction category_urls as [|category_url rest IH]; intros all processed.
  - simpl. apply triple_ret.
  - simpl.
    eapply triple_bind; [other_keys|].
    intros ?. apply triple_bind with (Q := fun _ => tally s0 None 0 0).
    { apply triple_attempt with (H := tally s0 None 0 0); [|auto].
      apply tally_silent.
      - intros j. unfold crawl.
        destruct (scrape_category _ _ _ _ _ _) as [[[links|e] w]|]; simpl; auto 10.
      - intros [|] j Hj; [exact Hj | exact I]. }
    intros [category_links|].
    + apply triple_bind with (Q := fun _ => tally s0 None 0 0); [|intros ?; apply IH].
      apply triple_try_except with (H := tally s0 None 0 0).
      * eapply triple_bind; [apply tally_read_status|]. intros pages_crawled.
        eapply triple_bind; [apply tally_read_status|]. intros total_pages.
        other_keys.
      * apply tally_silent; [intros j; simpl; auto 10 | intros; exact I].
    + eapply triple_bind; [|intros ?; apply IH].
      apply tally_silent; [intros j; simpl; auto 10 | intros; exact I].
Qed.

(** At most one product more in one of the two lists, and its counter
    with it. *)
Lemma tally_process_product EE (t : option Z) (i c : Z) (link : string) :
  (∀ e j, tally s0 t i c j → EE e j) →
  triple EE (tally s0 t i c) (process_product BeautifulSoup server strftime link)
    (fun _ => tally s0 t i (c + 1)).
Proof.
  intros HE.
  assert (Hskip : ∀ a : unit, triple EE (tally s0 t i c) (mret a)
                                (fun _ => tally s0 t i (c + 1))).
  { intros a j Hj. apply (tally_le s0 t i c (c + 1) j); [lia | exact Hj]. }
  unfold process_product.
  eapply triple_bind.
  { apply tally_silent; [|exact HE]. intros j. unfold fetch.
    destruct (get_page _ _ _ _ _) as [[html|e] w]; simpl; auto 10. }
  intros html.
  destruct (PyStr.truthy_opt html); [|apply Hskip].
  eapply triple_bind; [apply tally_in_world|]. intros now.
  destruct (parse_product_page _ _ _ _) as [product|]; [|apply Hskip].
  destruct (is_unavailable product).
  - intros j (Hot & Hcalm & H1 & H2 & H3 & H4 & H5).
    unfold mbind, worker_bind, append_unavailable.
    match goal with
    | |- context [update ?d ?j'] =>
        destruct (update_calm d j' Hot Hcalm)
          as (j2 & -> & Hst & Hpr & Hun & Hot' & Hcalm')
    end.
    simpl in Hst, Hpr, Hun.
    unfold tally. rewrite Hst, Hpr, Hun, !length_app. simpl.
    split; [exact Hot'|]. split; [exact Hcalm'|].
    split; [apply shows_update_keep; [reflexivity | exact H1]|].
    split; [apply shows_update_keep; [reflexivity | exact H2]|].
    split; [apply shows_update_set; [|lia];
            rewrite lookup_singleton_eq; do 2 f_equal; lia|].
    split; [lia|].
    intros m Hm. unfold update_scraper_status.
    rewrite lookup_union_r by reflexivity. apply H5, Hm.
  - intros j (Hot & Hcalm & H1 & H2 & H3 & H4 & H5).
    unfold mbind, worker_bind, append_available.
    match goal with
    | |- context [update ?d ?j'] =>
        destruct (update_calm d j' Hot Hcalm)
          as (j2 & -> & Hst & Hpr & Hun & Hot' & Hcalm')
    end.
    simpl in Hst, Hpr, Hun.
    unfold tally. rewrite Hst, Hpr, Hun, !length_app. simpl.
    split; [exact Hot'|]. split; [exact Hcalm'|].
    split; [apply shows_update_keep; [reflexivity | exact H1]|].
    split; [apply shows_update_set; [|lia];
            rewrite lookup_singleton_eq; do 2 f_equal; lia|].
    split; [apply shows_update_keep; [reflexivity | exact H3]|].
    split; [lia|].
    intros m Hm. unfold update_scraper_status.
    rewrite lookup_union_r by reflexivity. apply H5, Hm.
Qed.

Lemma tally_product_body EE (config : JobConfig) (start_time len : Z) (t : option Z)
    (i : Z) (link : string) :
  (0 <= i)%Z →
  (∀ e j, tally s0 t (i + 1) (i + 1) j → EE e j) →
  triple EE (tally s0 t i i)
    (product_body BeautifulSoup server strftime time_time config start_time len i link)
    (fun _ => tally s0 t (i + 1) (i + 1)).
Proof.
  intros Hi HE.
  assert (HE' : ∀ e j, tally s0 t (i + 1) i j → EE e j).
  { intros e j Hj. apply HE. apply (tally_le s0 t (i + 1) i (i + 1) j); [lia | exact Hj]. }
  unfold product_body.
  eapply triple_bind.
  { apply tally_update with (t' := t) (i' := (i + 1)%Z);
      [reflexivity | reflexivity | right; split; [reflexivity | lia]
      | left; split; reflexivity]. }
  intros ?. eapply triple_bind; [other_keys|].
  intros ?. eapply triple_bind; [apply tally_process_product; exact HE'|].
  intros ?. eapply triple_bind; [apply tally_in_world|].
  intros now. eapply triple_bind; [other_keys|].
  intros ?.
  assert (Hpause : ∀ seconds, triple EE (tally s0 t (i + 1) (i + 1)) (pause seconds)
                                (fun _ => tally s0 t (i + 1) (i + 1))).
  { intros seconds. apply tally_silent; [|exact HE]. intros j. unfold pause.
    destruct (time_sleep _ _); simpl; auto 10. }
  destruct (i mod 10 =? 0)%Z; [|apply Hpause].
  destruct (request_delay config); [apply Hpause|].
  apply triple_raise. apply HE.
Qed.

Lemma tally_product_loop (config : JobConfig) (start_time len : Z) (t : option Z)
    (links : list string) (i : Z) :
  (0 <= i)%Z →
  triple anywhere (tally s0 t i i)
    (product_loop BeautifulSoup server strftime time_time config start_time len i links)
    (fun _ => tally s0 t (i + Z.of_nat (length links)) (i + Z.of_nat (length links))).
Proof.
  revert i. induction links as [|link rest IH]; intros i Hi.
  - simpl. rewrite Z.add_0_r. apply triple_ret.
  - simpl product_loop.
    apply triple_bind with (Q := fun _ => tally s0 t (i + 1) (i + 1)).
    + apply triple_try_except with (H := tally s0 t (i + 1) (i + 1)).
      * apply tally_product_body; [exact Hi|].
        intros [|] j Hj; [exact Hj | exact I].
      * apply tally_silent; [intros j; simpl; auto 10 | intros; exact I].
    + intros ?.
      replace (i + Z.of_nat (length (link :: rest)))%Z
        with (i + 1 + Z.of_nat (length rest))%Z by (simpl length; lia).
      apply (IH (i + 1)%Z). lia.
Qed.

Lemma tally_try_block (config : JobConfig) (scraper_config : JewelryScraperConfig)
    (total start_time : Z) :
  triple anywhere (tally s0 None 0 0)
    (try_block BeautifulSoup server strftime time_time generate_feeds fuel config
       scraper_config total start_time)
    (fun _ j => ∃ n, (0 <= n)%Z ∧ tally s0 (Some n) n n j).
Proof.
  unfold try_block.
  eapply triple_bind; [other_keys|].
  intros ?. eapply triple_bind; [apply tally_category_loop|].
  intros all_product_links. cbv zeta.
  set (unique_links := elements (list_to_set all_product_links : gset string)).
  set (n := Z.of_nat (length unique_links)).
  apply triple_bind with (Q := fun _ => tally s0 (Some n) 0 0).
  { apply tally_update;
      [reflexivity | reflexivity | left; split; reflexivity
      | right; exists n; split; reflexivity]. }
  intros ?. apply triple_bind with (Q := fun _ => tally s0 (Some n) n n).
  { apply triple_weaken
      with (P := tally s0 (Some n) 0 0)
           (Q := fun _ => tally s0 (Some n) (0 + Z.of_nat (length unique_links))
                            (0 + Z.of_nat (length unique_links)));
      [apply tally_product_loop; lia | auto | auto]. }
  intros ?. eapply triple_bind; [other_keys|].
  intros ?. apply triple_bind with (Q := fun _ => tally s0 (Some n) n n).
  { apply triple_try_except with (H := tally s0 (Some n) n n).
    - eapply triple_bind; [|intros ?; other_keys].
      apply tally_silent.
      + intros j. unfold feeds. destruct (generate_feeds _ _); simpl; auto 10.
      + intros [|] j Hj; [exact Hj | exact I].
    - eapply triple_bind; [|intros ?; other_keys].
      apply tally_silent; [intros j; simpl; auto 10 | intros; exact I]. }
  intros ?. eapply triple_bind; [apply tally_in_world|].
  intros now. eapply triple_bind; [other_keys|].
  intros ? j Hj. unfold fault_point.
  assert (Hj' : ∀ rest, calm rest → ∃ m, (0 <= m)%Z ∧ tally s0 (Some m) m m (set_faults rest j)).
  { intros rest Hrest. exists n. split; [lia|].
    destruct Hj as (H0 & _ & Hj). split; [exact H0|]. split; [exact Hrest | exact Hj]. }
  destruct (faults j) as [|[|] rest] eqn:Hf; [|exact I|].
  - exists n. split; [lia | exact Hj].
  - apply Hj'. destruct Hj as (_ & Hcalm & _). rewrite Hf in Hcalm.
    apply Forall_cons_1 in Hcalm. apply Hcalm.
Qed.

End WorkerCounters.

(** X26.  In a run during which no other thread writes the status and no
    exception strikes at a status update, the worker writes the counters
    of the status as it goes: [products_processed] with each product
    taken up, [available_products] and [unavailable_products] when a
    product is appended to the respective list.  So after a completed run
    [products_processed] equals [total_products], the two product
    counters are the lengths of the two lists, which together hold at
    most [total_products] products; but a counter that would be zero is
    not written at all and still shows what the dictionary held when the
    run started. *)
Theorem scraper_thread_counters (BeautifulSoup : string → Soup)
    (server : nat → string → response)
    (strftime : World → string → string) (time_time : World → Z)
    (generate_feeds : list Product → list Product → bool) (fuel : nat)
    (config : JobConfig) (history_len : nat)
    (status0 : gmap string pyval) (w : World) (strikes : list bool) :
  calm strikes →
  let run := scraper_thread BeautifulSoup server strftime time_time generate_feeds fuel
               config history_len (new_job status0 w strikes []) in
  let final := scraper_status run.2 in
  run.1 = Completed →
  ∃ n, (0 <= n)%Z
    ∧ final !! "total_products" = Some (PInt n)
    ∧ shows status0 final "products_processed" n
    ∧ shows status0 final "available_products" (Z.of_nat (length (products run.2)))
    ∧ shows status0 final "unavailable_products"
        (Z.of_nat (length (unavailable_products run.2)))
    ∧ (Z.of_nat (length (products run.2) + length (unavailable_products run.2)) <= n)%Z.
Proof.
  intros Hcalm run final. unfold final, run, scraper_thread. cbv zeta.
  match goal with
  | |- context [configure _ (snd (write_status ?d ?j))] =>
      assert (Hj1 : tally status0 None 0 0 (snd (write_status d j)));
        [|set (j1 := snd (write_status d j)) in *]
  end.
  { unfold write_status, mbind, worker_bind, interfere, own_write. simpl.
    split; [reflexivity|]. split; [exact Hcalm|].
    unfold shows, update_scraper_status. simpl.
    repeat split; try (rewrite lookup_union_r by reflexivity; reflexivity).
    - lia.
    - intros n Hn. discriminate Hn. }
  clearbody j1.
  assert (Hconf : match configure config j1 with
                  | (inl _, j2) => tally status0 None 0 0 j2
                  | (inr _, _) => True
                  end).
  { unfold configure.
    destruct (base_url config); [|exact I].
    destruct (user_agent config); [|exact I].
    destruct (categories config); [|exact I].
    unfold mbind, worker_bind, fault_point.
    destruct Hj1 as (H0 & Hc & Hj1).
    destruct (faults j1) as [|[|] rest] eqn:Hf; simpl; [|exact I|].
    - split; [exact H0|]. split; [rewrite Hf; constructor | exact Hj1].
    - split; [exact H0|]. split; [|exact Hj1]. simpl.
      apply Forall_cons_1 in Hc. apply Hc. }
  destruct (configure config j1) as [[[scraper_config total]|e] j2]; [|discriminate].
  pose proof (tally_try_block BeautifulSoup server strftime time_time generate_feeds fuel
                status0 config scraper_config total (time_time w) j2 Hconf) as H.
  simpl world.
  destruct (try_block _ _ _ _ _ _ _ _ _ _ j2) as [[[]|[|]] j3]; simpl;
    [|discriminate..].
  intros _. destruct H as (n & Hn & _ & _ & H1 & H2 & H3 & H4 & H5).
  exists n. split; [exact Hn|]. split; [apply H5; reflexivity|]. auto.
Qed.

(** On the sample run. *)
Lemma scraper_thread_counters_witness :
  let run := Example.sample_run in
  let final := scraper_status run.2 in
  ∃ n, (0 <= n)%Z
    ∧ final !! "total_products" = Some (PInt n)
    ∧ shows initial_scraper_status final "products_processed" n
    ∧ shows initial_scraper_status final "available_products"
        (Z.of_nat (length (products run.2)))
    ∧ shows initial_scraper_status final "unavailable_products"
        (Z.of_nat (length (unavailable_products run.2)))
    ∧ (Z.of_nat (length (products run.2) + length (unavailable_products run.2)) <= n)%Z.
Proof.
  apply (scraper_thread_counters Example.parser Example.full_site
           (fun _ _ => "2024-01-01 00:00:00") (fun w => Z.of_nat (requests w))
           (fun _ _ => true) 10 Example.job_config 0
           initial_scraper_status initial_world []).
  - constructor.
  - vm_compute. reflexivity.
Defined.
